(** * ai-note: the transcription-and-subtitle pipeline

  A shallow embedding of [backend/services/whisper_service.py] and of
  [FileUtils.find_file_by_id] from [backend/utils/file_utils.py], followed
  by the properties of the pipeline that the specification states.

  Layout: Part I holds the embedding (one module per component), Part II
  the lemmas and theorems about it. *)

From Stdlib Require Import ZArith QArith Qround Qpower Lia Lqa.
From Stdlib Require Import String Ascii List DecimalString.
From Stdlib Require Import SpecFloat.
From stdpp Require Import gmap strings list.
Import ListNotations.

Local Open Scope Z_scope.
Local Open Scope string_scope.

(* ===================================================================== *)
(** * Part I.  The embedding                                              *)
(* ===================================================================== *)

(** ** Python numbers

  A Python [float] is an IEEE-754 binary64 value.  It is modelled by the
  rational number it denotes, together with the predicate [binary64]
  saying that a rational is such a value.  Of the float operations the
  time-code code uses, [%] is exact (C's [fmod]) and so is [//] on the
  non-negative arguments met here (the difference [x - x % y] is an
  integer multiple of [y] below 2^53); [*] rounds its exact result to the
  nearest binary64 value, ties to even, which is [b64_round]. *)
Module PyFloat.

Local Open Scope Q_scope.

Definition float := Q.

(** [x = m * 2^e] with a significand of at most 53 bits and an exponent
    no smaller than that of the subnormal numbers. *)
Definition binary64 (x : Q) : Prop :=
  exists m e : Z,
    x == inject_Z m * 2 ^ e /\ (Z.abs m < 2 ^ 53)%Z /\ (-1074 <= e <= 971)%Z.

(** The binary64 value with significand [m] and exponent [e]. *)
Definition of_bits (m e : Z) : Q := inject_Z m * 2 ^ e.

(** Exponent of the binade of a positive rational: the [l] with
    [2^l <= x < 2^(l+1)]. *)
Definition floor_log2 (x : Q) : Z :=
  let l := (Z.log2 (Qnum x) - Z.log2 (Zpos (Qden x)))%Z in
  if Qle_bool (2 ^ l) x then l else (l - 1)%Z.

(** Nearest integer, ties to the even one. *)
Definition round_half_even (x : Q) : Z :=
  let f := Qfloor x in
  match Qcompare (x - inject_Z f) (1 # 2) with
  | Lt => f
  | Gt => (f + 1)%Z
  | Eq => if Z.even f then f else (f + 1)%Z
  end.

(** Unit in the last place of the binade of a positive [x]: 53 bits of
    significand, exponents clamped at the subnormal range. *)
Definition ulp (x : Q) : Q := 2 ^ (Z.max (floor_log2 x) (-1022) - 52).

(** Round-to-nearest-even onto binary64 (results are far below the
    overflow threshold in every use here). *)
Definition b64_round (x : Q) : Q :=
  match Qcompare x 0 with
  | Eq => 0
  | Gt => inject_Z (round_half_even (x / ulp x)) * ulp x
  | Lt => - (inject_Z (round_half_even ((- x) / ulp (- x))) * ulp (- x))
  end.

(** [x // y] *)
Definition floordiv (x y : float) : float := inject_Z (Qfloor (x / y)).

(** [x % y], for [y > 0]: the result lies in [[0, y)]. *)
Definition mod_ (x y : float) : float := x - y * inject_Z (Qfloor (x / y)).

(** [x * y] *)
Definition mul (x y : float) : float := b64_round (x * y).

(** [int(x)]: truncation toward zero. *)
Definition int (x : float) : Z :=
  if Qle_bool 0 x then Qfloor x else Qceiling x.

(** The rational denoted by a finite value of the Standard Library's
    specification of IEEE-754 arithmetic; [SFmul 53 1024] is its binary64
    multiplication, against which [mul] is cross-checked on samples. *)
Definition of_spec (f : spec_float) : Q :=
  match f with
  | S754_finite sg m e => (if sg then - inject_Z (Zpos m) else inject_Z (Zpos m)) * 2 ^ e
  | _ => 0
  end.

(** The binary64 value nearest to the decimal 0.009
    ([0x1.26e978d4fdf3bp-7], slightly below 9/1000). *)
Definition float_0_009 : float := of_bits 5188146770730811 (-59).

(** The binary64 value nearest to the decimal 1.115
    ([0x1.1d70a3d70a3d7p+0], slightly below 1115/1000). *)
Definition float_1_115 : float := of_bits 5021513584518103 (-52).

(** The binary64 value nearest to the decimal 86399.999
    ([0x1.517fffbe76c8bp+16], slightly below it). *)
Definition float_86399_999 : float := of_bits 5937362721270923 (-36).

End PyFloat.

(** ** Python string formatting of integers *)
Module PyFormat.

(** Decimal digits of a natural number, most significant first. *)
Definition digits (n : Z) : string := NilEmpty.string_of_uint (N.to_uint (Z.to_N n)).

Fixpoint zeros (k : nat) : string :=
  match k with
  | O => ""
  | S k' => String "0" (zeros k')
  end.

(** Left-pad with zeros up to [width] characters. *)
Definition zfill (width : nat) (s : string) : string :=
  zeros (width - String.length s) ++ s.

(** The format specification [{z:0<width>d}]: zero padding goes between
    the sign and the digits, and the sign counts toward the width. *)
Definition format_d (width : nat) (z : Z) : string :=
  if (z <? 0)%Z then String "-" (zfill (width - 1) (digits (- z)))
  else zfill width (digits z).

End PyFormat.

(** ** Subtitle Formatter: time codes ([whisper_service.py], 479-495) *)
Module Timecode.
Import PyFloat PyFormat.

(** The four integer fields the two converters compute. *)
Record fields := { hours : Z; minutes : Z; secs : Z; millisecs : Z }.

Definition split_seconds (seconds : float) : fields :=
  {| hours := int (floordiv seconds 3600%Q);
     minutes := int (floordiv (mod_ seconds 3600%Q) 60%Q);
     secs := int (mod_ seconds 60%Q);
     millisecs := int (mul (mod_ seconds 1%Q) 1000%Q) |}.

Definition render (sep : string) (f : fields) : string :=
  format_d 2 (hours f) ++ ":" ++ format_d 2 (minutes f) ++ ":" ++
  format_d 2 (secs f) ++ sep ++ format_d 3 (millisecs f).

(** [_seconds_to_srt_time]: comma before the milliseconds. *)
Definition _seconds_to_srt_time (seconds : float) : string :=
  render "," (split_seconds seconds).

(** [_seconds_to_vtt_time]: period before the milliseconds. *)
Definition _seconds_to_vtt_time (seconds : float) : string :=
  render "." (split_seconds seconds).

(** Modelled from the spec: the source has no time-code parser; the spec
    names one, [parseTimecode], as the inverse of the two converters.  It
    reads [HH:MM:SS<sep>mmm] and returns the instant in whole
    milliseconds. *)
Fixpoint split_on (c : ascii) (s : string) : list string :=
  match s with
  | EmptyString => [EmptyString]
  | String a s' =>
      if Ascii.eqb a c then EmptyString :: split_on c s'
      else match split_on c s' with
           | [] => [String a EmptyString]
           | w :: ws => String a w :: ws
           end
  end.

Definition parse_decimal (s : string) : option Z :=
  match s with
  | EmptyString => None
  | _ => option_map Z.of_uint (NilEmpty.uint_of_string s)
  end.

Definition parseTimecode (sep : ascii) (s : string) : option Z :=
  match split_on ":" s with
  | [h; m; rest] =>
      match split_on sep rest with
      | [sc; ms] =>
          match parse_decimal h, parse_decimal m, parse_decimal sc, parse_decimal ms with
          | Some h', Some m', Some sc', Some ms' =>
              Some (((h' * 60 + m') * 60 + sc') * 1000 + ms')
          | _, _, _, _ => None
          end
      | _ => None
      end
  | _ => None
  end.

(** Modelled from the spec: [truncateToMs], the number of whole
    milliseconds in [s]. *)
Definition truncateToMs (s : float) : Z := Qfloor (s * 1000)%Q.

(** Modelled from the spec: [truncateToMs] as a Python test would compute
    it, [math.floor(s * 1000)], with the product rounded to binary64. *)
Definition truncateToMs_float (s : float) : Z := Qfloor (mul s 1000%Q).

(** The exact product whose rounding gives the millisecond field. *)
Definition ms_product (s : float) : Q := (mod_ s 1 * 1000)%Q.

(** [lacks c s]: the character [c] does not occur in [s]. *)
Fixpoint lacks (c : ascii) (s : string) : bool :=
  match s with
  | EmptyString => true
  | String a s' => negb (Ascii.eqb a c) && lacks c s'
  end.

(** A rendered field is free of the three separators and reads back as
    the number it was rendered from. *)
Definition field_ok (width : nat) (n : Z) : bool :=
  let s := format_d width n in
  lacks ":" s && lacks "." s && lacks "," s &&
  match parse_decimal s with
  | Some m => (m =? n)%Z
  | None => false
  end.

(** [all_from P z n]: [P] holds of the [n] integers from [z] on. *)
Fixpoint all_from (P : Z -> bool) (z : Z) (n : nat) : bool :=
  match n with
  | O => true
  | S n' => P z && all_from P (z + 1) n'
  end.

(** The range of instants the round-trip property is stated for. *)
Definition in_day (s : Q) : Prop := (0 <= s /\ s <= 86399999 # 1000)%Q.

End Timecode.

(** ** Exceptions and strings

  Code that may raise returns an [outcome]; a [try ... except Exception]
  block is a [match] on it. *)
Module Py.

Inductive outcome (A : Type) : Type :=
| Returned (a : A)
| Raised (what : string).
Arguments Returned {A} a.
Arguments Raised {A} what.

(** A [str] is represented by its UTF-8 encoding, a character of the
    ASCII range by one byte.  The text is ASCII when every byte is below
    128. *)
Definition is_ascii (s : string) : bool :=
  forallb (fun c => (nat_of_ascii c <? 128)%nat) (list_ascii_of_string s).

(** [str.lower()] on ASCII text: the letters A to Z are lowered. *)
Definition lower_char (c : ascii) : ascii :=
  let n := nat_of_ascii c in
  if ((65 <=? n)%nat && (n <=? 90)%nat)%bool then ascii_of_nat (n + 32) else c.

Fixpoint ascii_lower (s : string) : string :=
  match s with
  | EmptyString => EmptyString
  | String c s' => String (lower_char c) (ascii_lower s')
  end.

(** [str.lower()].  For text with characters outside ASCII the answer
    comes from the Unicode tables of the interpreter, which differ from
    one version to the next; [unicode_lower] stands for them. *)
Definition lower (unicode_lower : string -> string) (s : string) : string :=
  if is_ascii s then ascii_lower s else unicode_lower s.

(** [str.strip()] removes the characters for which [str.isspace()]
    holds.  These are, among the ASCII characters, the space, 9 to 13 and
    28 to 31, ... *)
Definition is_space (c : ascii) : bool :=
  let n := nat_of_ascii c in
  ((n =? 32)%nat || ((9 <=? n)%nat && (n <=? 13)%nat)
   || ((28 <=? n)%nat && (n <=? 31)%nat))%bool.

(** ... U+0085 and U+00A0, of two bytes in UTF-8, ... *)
Definition is_space2 (c d : ascii) : bool :=
  ((nat_of_ascii c =? 194)%nat &&
   ((nat_of_ascii d =? 133)%nat || (nat_of_ascii d =? 160)%nat))%bool.

(** ... and U+1680, U+2000 to U+200A, U+2028, U+2029, U+202F, U+205F and
    U+3000, of three bytes. *)
Definition is_space3 (c d f : ascii) : bool :=
  let n := nat_of_ascii c in
  let m := nat_of_ascii d in
  let k := nat_of_ascii f in
  (((n =? 225)%nat && (m =? 154)%nat && (k =? 128)%nat)
   || ((n =? 226)%nat && (m =? 128)%nat &&
       (((128 <=? k)%nat && (k <=? 138)%nat)
        || (k =? 168)%nat || (k =? 169)%nat || (k =? 175)%nat))
   || ((n =? 226)%nat && (m =? 129)%nat && (k =? 159)%nat)
   || ((n =? 227)%nat && (m =? 128)%nat && (k =? 128)%nat))%bool.

(** The number of bytes of the white-space character the text starts
    with; 0 when it starts with none. *)
Definition space_width (s : string) : nat :=
  match s with
  | EmptyString => 0
  | String c rest =>
      if is_space c then 1
      else
        match rest with
        | EmptyString => 0
        | String d rest' =>
            if is_space2 c d then 2
            else
              match rest' with
              | EmptyString => 0
              | String f _ => if is_space3 c d f then 3 else 0
              end
        end
  end.

(** [drop_spaces skip s]: [s] without its first [skip] bytes and without
    the white-space characters that follow them. *)
Fixpoint drop_spaces (skip : nat) (s : string) : string :=
  match s with
  | EmptyString => EmptyString
  | String c rest =>
      match skip with
      | S skip' => drop_spaces skip' rest
      | O =>
          match space_width s with
          | O => s
          | S more => drop_spaces more rest
          end
      end
  end.

Definition lstrip (s : string) : string := drop_spaces 0 s.

(** The text consists of white space only. *)
Definition blank (s : string) : bool := String.eqb (lstrip s) "".

(** The text up to the point from which only white space follows. *)
Fixpoint rstrip (s : string) : string :=
  match s with
  | EmptyString => EmptyString
  | String c s' => if blank s then EmptyString else String c (rstrip s')
  end.

Definition strip (s : string) : string := rstrip (lstrip s).

(** [x in l] for a list of strings. *)
Definition str_in (x : string) (l : list string) : bool :=
  existsb (String.eqb x) l.

End Py.


(** ** Subtitle Formatter: documents ([whisper_service.py], 452-477) *)
Module Subtitle.
Import PyFloat PyFormat Timecode.

(** A segment dictionary [{'start': ..., 'end': ..., 'text': ...}]. *)
Record segment := { seg_start : float; seg_end : float; seg_text : string }.

(** The line feed. *)
Definition nl : string := String "010" "".

(** [f"{i}"] for an integer [i]. *)
Definition str_int (i : Z) : string := format_d 0 i.

(** [enumerate(l, start)] *)
Fixpoint enumerate {A} (start : Z) (l : list A) : list (Z * A) :=
  match l with
  | [] => []
  | x :: l' => (start, x) :: enumerate (start + 1) l'
  end.

(** [_generate_srt_content]: the loop appends three pieces per segment
    to the accumulator [srt_content]. *)
Definition _generate_srt_content (segments : list segment) : string :=
  fold_left
    (fun srt_content '(i, segment) =>
       let start_time := _seconds_to_srt_time (seg_start segment) in
       let end_time := _seconds_to_srt_time (seg_end segment) in
       let srt_content := srt_content ++ (str_int i ++ nl) in
       let srt_content := srt_content ++ (start_time ++ " --> " ++ end_time ++ nl) in
       srt_content ++ (seg_text segment ++ nl ++ nl))
    (enumerate 1 segments) "".

(** [_generate_vtt_content]: the accumulator starts with the header. *)
Definition _generate_vtt_content (segments : list segment) : string :=
  fold_left
    (fun vtt_content segment =>
       let start_time := _seconds_to_vtt_time (seg_start segment) in
       let end_time := _seconds_to_vtt_time (seg_end segment) in
       let vtt_content := vtt_content ++ (start_time ++ " --> " ++ end_time ++ nl) in
       vtt_content ++ (seg_text segment ++ nl ++ nl))
    segments ("WEBVTT" ++ nl ++ nl).

(** The specification's description of the two documents, block by
    block: what a Format A block and the [n]-th Format B block are. *)
Definition vtt_block (s : segment) : string :=
  _seconds_to_vtt_time (seg_start s) ++ " --> " ++ _seconds_to_vtt_time (seg_end s) ++ nl ++
  seg_text s ++ nl ++
  nl.

Definition srt_block (n : Z) (s : segment) : string :=
  str_int n ++ nl ++
  _seconds_to_srt_time (seg_start s) ++ " --> " ++ _seconds_to_srt_time (seg_end s) ++ nl ++
  seg_text s ++ nl ++
  nl.

(** The blocks of a Format B document whose first index is [start]. *)
Definition srt_blocks (start : Z) (segments : list segment) : list string :=
  map (fun '(i, s) => srt_block i s) (enumerate start segments).

(** Concatenation of a list of blocks. *)
Definition join (blocks : list string) : string := fold_right append "" blocks.

Definition is_digit (c : ascii) : bool :=
  let n := nat_of_ascii c in (48 <=? n)%nat && (n <=? 57)%nat.

(** [HH:MM:SS<sep>mmm]: twelve characters, digits around the separators. *)
Definition is_timecode (sep : ascii) (s : string) : bool :=
  match s with
  | String h1 (String h2 (String c1 (String m1 (String m2 (String c2
      (String s1 (String s2 (String c3 (String x1 (String x2 (String x3 ""))))))))))) =>
      is_digit h1 && is_digit h2 && Ascii.eqb c1 ":" &&
      is_digit m1 && is_digit m2 && Ascii.eqb c2 ":" &&
      is_digit s1 && is_digit s2 && Ascii.eqb c3 sep &&
      is_digit x1 && is_digit x2 && is_digit x3
  | _ => false
  end.

(** A rendered field of [width] characters consists of digits only. *)
Definition digits_only (width : nat) (n : Z) : bool :=
  let s := format_d width n in
  (String.length s =? width)%nat && forallb is_digit (list_ascii_of_string s).

(** The instants for which the hour field takes two digits: binary64
    values from 0 up to, and not including, 100 hours. *)
Definition below_100_hours (s : Q) : Prop :=
  binary64 s /\ (0 <= s /\ s < 360000)%Q.

Definition two_digit_hours (s : segment) : Prop :=
  below_100_hours (seg_start s) /\ below_100_hours (seg_end s).

End Subtitle.

(** ** File Correlator ([file_utils.py], 364-399) *)
Module Correlator.
Import Py.

(** An entry of the temp-storage directory as [glob('*')] yields it: its
    name and what [is_file()] does on it.  The call answers
    [entry_is_file], unless [entry_raises] holds: then it raises
    [OSError], as it does on a link whose target has too long a name.
    The listing is a list because the fallback returns the first match in
    iteration order. *)
Record dir_entry := {
  entry_name : string;
  entry_is_file : bool;
  entry_raises : bool
}.

(** [name.rfind('.')] *)
Fixpoint rfind_dot (name : string) : option nat :=
  match name with
  | EmptyString => None
  | String c rest =>
      match rfind_dot rest with
      | Some i => Some (S i)
      | None => if Ascii.eqb c "." then Some O else None
      end
  end.

(** [PurePath.stem]: the name up to its last dot, unless that dot leads
    or ends the name. *)
Definition stem (name : string) : string :=
  match rfind_dot name with
  | Some i =>
      if ((0 <? i)%nat && (i <? String.length name - 1)%nat)%bool
      then substring 0 i name
      else name
  | None => name
  end.

(** [str(file_path)] for an entry of the temp folder. *)
Definition entry_path (temp_folder : string) (e : dir_entry) : string :=
  temp_folder ++ "/" ++ entry_name e.

(** A [for] loop over the listing that returns at the first entry
    satisfying [test].  It calls [is_file()] on every entry it reaches,
    and the exception of such a call ends the loop. *)
Fixpoint first_match (test : dir_entry -> bool) (listing : list dir_entry)
  : outcome (option dir_entry) :=
  match listing with
  | [] => Returned None
  | e :: rest =>
      if entry_raises e then Raised "OSError"
      else if test e then Returned (Some e) else first_match test rest
  end.

Definition exact_test (file_id : string) (e : dir_entry) : bool :=
  entry_is_file e && String.eqb (stem (entry_name e)) file_id.

Definition prefix_test (file_id : string) (e : dir_entry) : bool :=
  entry_is_file e && String.prefix file_id (stem (entry_name e)).

(** The body of the [try] block of [find_file_by_id]: the exact-match
    loop, then the prefix loop, then [None]. *)
Definition find_file_by_id_try (temp_folder : string) (listing : list dir_entry)
    (file_id : string) : outcome (option string) :=
  match first_match (exact_test file_id) listing with
  | Raised what => Raised what
  | Returned (Some e) => Returned (Some (entry_path temp_folder e))
  | Returned None =>
      match first_match (prefix_test file_id) listing with
      | Raised what => Raised what
      | Returned (Some e) => Returned (Some (entry_path temp_folder e))
      | Returned None => Returned None
      end
  end.

(** [find_file_by_id]: an exception is logged and [None] returned. *)
Definition find_file_by_id (temp_folder : string) (listing : list dir_entry)
    (file_id : string) : option string :=
  match find_file_by_id_try temp_folder listing file_id with
  | Returned found => found
  | Raised _ => None
  end.

(** No entry of the listing makes [is_file()] raise. *)
Definition quiet (listing : list dir_entry) : Prop :=
  Forall (fun e => entry_raises e = false) listing.

End Correlator.

(** ** Model Runtime ([whisper_service.py], 36-126 and 191-226) *)
Module Runtime.
Import Py.

(** The static configuration ([config.py]). *)
Definition WHISPER_DEFAULT_MODEL : string := "base".
Definition WHISPER_AVAILABLE_MODELS : list string := ["base"; "large-v3-turbo"].
Definition SUBTITLE_AVAILABLE_FORMATS : list string := ["srt"; "vtt"].

(** What the [WhisperModel] constructor is given: the local model
    directory of a model, or the model's identifier together with the
    shared download directory. *)
Inductive model_source : Type :=
| LocalDirectory (model_name : string)
| Download (model_name : string).

(** A loaded model, opaque to the service. *)
Record handle := { built_from : model_source; serial : nat }.

(** The persisted runtime selection [whisper_config.json]: absent, not
    parsable as a JSON object, or an object with string members. *)
Inductive config_file : Type :=
| NoFile
| Unreadable
| JsonObject (members : gmap string string).

(** The service object, with two probes: the log of constructor calls
    (argument, and whether a model was built) and the number of attempts
    to write the selection record. *)
Record state := {
  current_model : option handle;
  current_model_name : string;
  SUBTITLE_OUTPUT_FORMAT : string;
  model_config_file : config_file;
  constructor_log : list (model_source * bool);
  write_attempts : nat
}.

(** What the world outside the service answers.  [WhisperModel] is
    [None] when faster-whisper is not installed; otherwise it is the
    constructor, whose [n]-th call either builds a model or raises.
    [unicode_lower] is what [str.lower()] answers for text outside
    ASCII. *)
Record env := {
  WhisperModel : option (nat -> model_source -> option handle);
  local_model_present : string -> bool;
  model_dir_mkdir_ok : bool;
  config_write_ok : nat -> bool;
  now_isoformat : string;
  unicode_lower : string -> string
}.

Definition set_model (h : handle) (st : state) : state :=
  {| current_model := Some h;
     current_model_name := current_model_name st;
     SUBTITLE_OUTPUT_FORMAT := SUBTITLE_OUTPUT_FORMAT st;
     model_config_file := model_config_file st;
     constructor_log := constructor_log st;
     write_attempts := write_attempts st |}.

Definition set_model_name (name : string) (st : state) : state :=
  {| current_model := current_model st;
     current_model_name := name;
     SUBTITLE_OUTPUT_FORMAT := SUBTITLE_OUTPUT_FORMAT st;
     model_config_file := model_config_file st;
     constructor_log := constructor_log st;
     write_attempts := write_attempts st |}.

Definition set_format (fmt : string) (st : state) : state :=
  {| current_model := current_model st;
     current_model_name := current_model_name st;
     SUBTITLE_OUTPUT_FORMAT := fmt;
     model_config_file := model_config_file st;
     constructor_log := constructor_log st;
     write_attempts := write_attempts st |}.

Definition set_config_file (f : config_file) (st : state) : state :=
  {| current_model := current_model st;
     current_model_name := current_model_name st;
     SUBTITLE_OUTPUT_FORMAT := SUBTITLE_OUTPUT_FORMAT st;
     model_config_file := f;
     constructor_log := constructor_log st;
     write_attempts := S (write_attempts st) |}.

Definition count_write_attempt (st : state) : state :=
  set_config_file (model_config_file st) st.

Definition log_constructor_call (src : model_source) (built : bool) (st : state) : state :=
  {| current_model := current_model st;
     current_model_name := current_model_name st;
     SUBTITLE_OUTPUT_FORMAT := SUBTITLE_OUTPUT_FORMAT st;
     model_config_file := model_config_file st;
     constructor_log := constructor_log st ++ [(src, built)];
     write_attempts := write_attempts st |}.

(** Load-count probes: constructor calls made, and models built. *)
Definition constructor_calls (st : state) : nat := length (constructor_log st).
Definition models_built (st : state) : nat :=
  length (filter (fun c => snd c = true) (constructor_log st)).

(** The body of the [try] block of [_save_config]: the record is
    rewritten, unless opening the file for writing raises. *)
Definition _save_config_try (e : env) (st : state) : outcome unit * state :=
  let config : gmap string string :=
    <["current_model" := current_model_name st]>
      (<["subtitle_output_format" := SUBTITLE_OUTPUT_FORMAT st]>
         (<["updated_at" := now_isoformat e]> ∅)) in
  if config_write_ok e (write_attempts st)
  then (Returned tt, set_config_file (JsonObject config) st)
  else (Raised "open", count_write_attempt st).

(** [_save_config]: an exception is logged and swallowed. *)
Definition _save_config (e : env) (st : state) : state :=
  snd (_save_config_try e st).

(** [dict.get(key, default)] *)
Definition get (members : gmap string string) (key default : string) : string :=
  match members !! key with
  | Some v => v
  | None => default
  end.

(** [_load_config] *)
Definition _load_config (e : env) (st : state) : state :=
  match model_config_file st with
  | JsonObject config =>
      let st := set_model_name (get config "current_model" WHISPER_DEFAULT_MODEL) st in
      let subtitle_format :=
        get config "subtitle_output_format" (SUBTITLE_OUTPUT_FORMAT st) in
      if str_in subtitle_format SUBTITLE_AVAILABLE_FORMATS
      then set_format subtitle_format st
      else st
  | NoFile => _save_config e st
  | Unreadable => set_model_name WHISPER_DEFAULT_MODEL st
  end.

(** [__init__]: a process start.  [initial_format] is the configured
    [SUBTITLE_OUTPUT_FORMAT], [file] the selection record found on disk. *)
Definition init (e : env) (initial_format : string) (file : config_file) : state :=
  _load_config e
    {| current_model := None;
       current_model_name := WHISPER_DEFAULT_MODEL;
       SUBTITLE_OUTPUT_FORMAT := initial_format;
       model_config_file := file;
       constructor_log := [];
       write_attempts := 0 |}.

(** Truth value of [self.current_model]. *)
Definition resident (st : state) : bool :=
  match current_model st with
  | Some _ => true
  | None => false
  end.

(** The body of the [try] block of [_load_model]. *)
Definition _load_model_try (e : env) (model_name : string) (st : state)
  : outcome bool * state :=
  match WhisperModel e with
  | None => (Returned true, st)
  | Some construct =>
      if (resident st && String.eqb (current_model_name st) model_name)%bool
      then (Returned true, st)
      else
        let build (src : model_source) (st : state) : outcome bool * state :=
          match construct (constructor_calls st) src with
          | None => (Raised "WhisperModel", log_constructor_call src false st)
          | Some h =>
              let st := set_model h (log_constructor_call src true st) in
              let st := set_model_name model_name st in
              let st := _save_config e st in
              (Returned true, st)
          end in
        if local_model_present e model_name
        then build (LocalDirectory model_name) st
        else if model_dir_mkdir_ok e
             then build (Download model_name) st
             else (Raised "mkdir", st)
  end.

(** [_load_model]: any exception is logged and turned into [False]. *)
Definition _load_model (e : env) (model_name : string) (st : state) : bool * state :=
  match _load_model_try e model_name st with
  | (Returned b, st') => (b, st')
  | (Raised _, st') => (false, st')
  end.

(** The state a load leaves when it builds a model from [src]. *)
Definition loaded (e : env) (model_name : string) (src : model_source) (h : handle)
    (st : state) : state :=
  _save_config e (set_model_name model_name (set_model h (log_constructor_call src true st))).

(** The ways a load can end: skipped, stopped before the constructor,
    stopped by the constructor, or completed. *)
Inductive load_case (e : env) (model_name : string) (st : state)
  : bool -> state -> Prop :=
| load_skipped :
    (* degraded mode, or the model is already resident *)
    (WhisperModel e = None \/
     (resident st = true /\ current_model_name st = model_name)) ->
    load_case e model_name st true st
| load_mkdir_failed :
    WhisperModel e <> None ->
    load_case e model_name st false st
| load_raised src :
    WhisperModel e <> None ->
    load_case e model_name st false (log_constructor_call src false st)
| load_built src h :
    WhisperModel e <> None ->
    load_case e model_name st true (loaded e model_name src h st).

(** [get_current_model] *)
Record model_info := {
  info_name : string;
  info_display_name : string;
  info_size : string;
  info_is_loaded : bool
}.

Definition _get_model_display_name (model_name : string) : string :=
  if String.eqb model_name "base" then "Base (~74 MB)"
  else if String.eqb model_name "large-v3-turbo" then "Large v3 Turbo (~1550 MB)"
  else model_name.

Definition _get_model_size (model_name : string) : string :=
  if String.eqb model_name "base" then "74 MB"
  else if String.eqb model_name "large-v3-turbo" then "1550 MB"
  else "Unknown".

Definition get_current_model (st : state) : model_info :=
  {| info_name := current_model_name st;
     info_display_name := _get_model_display_name (current_model_name st);
     info_size := _get_model_size (current_model_name st);
     info_is_loaded := resident st |}.

(** The dictionary [select_model] returns. *)
Record selection := {
  success : bool;
  message : string;
  selected : option model_info
}.

(** [select_model] *)
Definition select_model (e : env) (model_name : string) (st : state)
  : selection * state :=
  if negb (str_in model_name WHISPER_AVAILABLE_MODELS)
  then ({| success := false;
           message := "不支持的模型: " ++ model_name;
           selected := None |}, st)
  else
    match _load_model e model_name st with
    | (true, st') =>
        ({| success := true;
            message := "模型切换成功: " ++ model_name;
            selected := Some (get_current_model st') |}, st')
    | (false, st') =>
        ({| success := false;
            message := "模型加载失败: " ++ model_name;
            selected := None |}, st')
    end.

(** An environment in which faster-whisper is installed and every
    construction succeeds. *)
Definition always_builds (n : nat) (src : model_source) : option handle :=
  Some {| built_from := src; serial := n |}.

(** An environment in which faster-whisper is installed and every
    construction raises. *)
Definition never_builds (n : nat) (src : model_source) : option handle := None.

Definition sample_env (ctor : option (nat -> model_source -> option handle)) : env :=
  {| WhisperModel := ctor;
     local_model_present := fun _ => true;
     model_dir_mkdir_ok := true;
     config_write_ok := fun _ => true;
     now_isoformat := "2024-01-01T12:00:00";
     unicode_lower := fun s => s |}.

(** The service just after a start with no selection record on disk. *)
Definition fresh (e : env) : state := init e "vtt" NoFile.

(** The service with ["base"] loaded. *)
Definition base_loaded : state :=
  snd (_load_model (sample_env (Some always_builds)) "base"
         (fresh (sample_env (Some always_builds)))).

End Runtime.

(** ** Audio Normalizer and Transcription Engine
  ([whisper_service.py], 228-450) *)
Module Pipeline.
Import Py PyFloat PyFormat Timecode Subtitle Runtime.

(** A path is the list of its components ([PurePath.parts]); the
    conversions [str(path)] and [Path(string)] are left implicit, so a
    path string and the [Path] built from it are the same value and
    comparing two path strings is comparing their components.  The
    component [".."] is one pathlib keeps and the operating system
    resolves. *)
Definition path := list string.

(** What a path holds in the file system. *)
Inductive node : Type :=
| File (data : string)
| Dir.

Definition is_file (n : option node) : bool :=
  match n with
  | Some (File _) => true
  | _ => false
  end.

(** The file system maps a location, a path without [".."], to what
    it holds.  [os.path.exists] for such a path: *)
Definition exists_ (fs : gmap path node) (p : path) : bool :=
  match fs !! p with
  | Some _ => true
  | None => false
  end.

(** [Path.parent]: the path without its last component. *)
Definition parent (p : path) : path := removelast p.

(** [Path.parents]: the proper prefixes of the path, longest first.  (For
    an absolute path pathlib stops at the anchor and leaves the empty
    prefix out; the empty prefix never equals the Temp directory.) *)
Definition parents (p : path) : list path :=
  map (fun n => take n p) (rev (seq 0 (length p))).

Definition path_eqb (p q : path) : bool := bool_decide (p = q).

(** The location the operating system reaches through a path: it
    takes the components one by one, and a [".."] leaves the directory
    reached so far, which has to be one, for its parent; the root is its
    own parent.  [None] when a [".."] is applied to what is no
    directory.  Symbolic links are left out. *)
Fixpoint locate_from (fs : gmap path node) (reached : path) (p : path) : option path :=
  match p with
  | [] => Some reached
  | c :: rest =>
      if String.eqb c ".."
      then
        if path_eqb reached ["/"] then locate_from fs reached rest
        else
          match fs !! reached with
          | Some Dir => locate_from fs (parent reached) rest
          | _ => None
          end
      else locate_from fs (reached ++ [c])%list rest
  end.

Definition locate (fs : gmap path node) (p : path) : option path :=
  locate_from fs [] p.

(** [os.path.exists] for any path. *)
Definition os_path_exists (fs : gmap path node) (p : path) : bool :=
  match locate fs p with
  | Some target => exists_ fs target
  | None => false
  end.

(** [datetime.now()] *)
Record datetime := {
  year : Z; month : Z; day : Z;
  hour : Z; minute : Z; second : Z; microsecond : Z
}.

(** [strftime('%Y%m%d_%H%M%S')] *)
Definition strftime_seconds (t : datetime) : string :=
  format_d 4 (year t) ++ format_d 2 (month t) ++ format_d 2 (day t) ++ "_" ++
  format_d 2 (hour t) ++ format_d 2 (minute t) ++ format_d 2 (second t).

(** [strftime('%Y%m%d_%H%M%S_%f')] *)
Definition strftime_micros (t : datetime) : string :=
  strftime_seconds t ++ "_" ++ format_d 6 (microsecond t).

(** A clock reading a [datetime] object can hold (years of four digits). *)
Definition valid_datetime (t : datetime) : Prop :=
  1000 <= year t <= 9999 /\ 1 <= month t <= 12 /\ 1 <= day t <= 31 /\
  0 <= hour t <= 23 /\ 0 <= minute t <= 59 /\ 0 <= second t <= 59 /\
  0 <= microsecond t <= 999999.

(** Two clock readings within the same calendar second. *)
Definition same_second (t u : datetime) : Prop :=
  year t = year u /\ month t = month u /\ day t = day u /\
  hour t = hour u /\ minute t = minute u /\ second t = second u.

(** How a run of the external audio tool ends: it raises, possibly
    leaving a partial output file, or it completes, with or without an
    output file. *)
Inductive ffmpeg_result : Type :=
| RunRaises (partial_output : option string)
| RunCompletes (output : option string).

(** What the recognition returns for a media file. *)
Record raw_segment := { raw_start : float; raw_end : float; raw_text : string }.
Record transcription_info := { info_language : string; info_duration : float }.

(** The world outside the service during one call: the configured
    folders and the path of the selection record, the clock, what the
    external tool and the recognition do, whether the system lets a file
    be removed, whether the subtitle document can be opened for writing
    and, when writing or closing it then fails, how many bytes of the
    document have reached the file ([subtitle_write_cut]), the text
    [json.dump] writes for a dictionary, and the files and directories
    the [n]-th call of the constructor leaves below its download root,
    under their paths relative to it. *)
Record env := {
  runtime_env : Runtime.env;
  FFmpeg_installed : bool;
  project_root : path;
  SUBTITLES_FOLDER : path;
  WHISPER_MODEL_DIR : path;
  model_config_path : path;
  temp_mkdir_ok : bool;
  now_preprocess : datetime;
  now_save : datetime;
  ffmpeg_run : path -> path -> ffmpeg_result;
  transcribe : handle -> path -> option string ->
               outcome (list raw_segment * transcription_info);
  remove_ok : path -> bool;
  subtitle_write_ok : path -> bool;
  subtitle_write_cut : path -> option nat;
  json_dump : gmap string string -> string;
  downloaded : nat -> string -> list (path * node)
}.

(** The service object and the file system. *)
Record world := { service : Runtime.state; fs : gmap path node }.

Definition with_service (st : Runtime.state) (w : world) : world :=
  {| service := st; fs := fs w |}.
Definition with_fs (f : gmap path node) (w : world) : world :=
  {| service := service w; fs := f |}.

(** [project_root / "Temp"] *)
Definition temp_dir (e : env) : path := (project_root e ++ ["Temp"])%list.

(** The scratch file of a call. *)
Definition temp_output_name (e : env) : string :=
  "preprocessed_audio_" ++ strftime_micros (now_preprocess e) ++ ".mp3".

Definition temp_output (e : env) : path := (temp_dir e ++ [temp_output_name e])%list.

(** [mkdir(exist_ok=True)] on a directory that is there or can be made. *)
Definition mkdir (d : path) (fs : gmap path node) : gmap path node :=
  match fs !! d with
  | Some _ => fs
  | None => <[d := Dir]> fs
  end.

Definition write_opt (p : path) (data : option string) (fs : gmap path node)
  : gmap path node :=
  match data with
  | Some d => <[p := File d]> fs
  | None => fs
  end.

(** The body of the [try] block of [_preprocess_audio]: the Temp
    directory is made, the tool is run on the input with the scratch file
    as its output, and the scratch file is returned if it is there. *)
Definition _preprocess_audio_try (e : env) (input_path : path) (fs : gmap path node)
  : outcome path * gmap path node :=
  if negb (temp_mkdir_ok e) then (Raised "mkdir", fs)
  else
    let fs := mkdir (temp_dir e) fs in
    match ffmpeg_run e input_path (temp_output e) with
    | RunRaises partial => (Raised "ffmpeg", write_opt (temp_output e) partial fs)
    | RunCompletes output =>
        let fs := write_opt (temp_output e) output fs in
        if exists_ fs (temp_output e)
        then (Returned (temp_output e), fs)
        else (Returned input_path, fs)
    end.

(** [_preprocess_audio]: without FFmpeg the input path is returned at
    once; an exception in the [try] block is logged and the input path
    returned. *)
Definition _preprocess_audio (e : env) (input_path : path) (fs : gmap path node)
  : path * gmap path node :=
  if negb (FFmpeg_installed e) then (input_path, fs)
  else
    match _preprocess_audio_try e input_path fs with
    | (Returned p, fs') => (p, fs')
    | (Raised _, fs') => (input_path, fs')
    end.

(** [os.remove] at a location: removes a regular file, raises
    otherwise or when the operating system refuses. *)
Definition os_remove (e : env) (p : path) (fs : gmap path node)
  : outcome unit * gmap path node :=
  if (is_file (fs !! p) && remove_ok e p)%bool
  then (Returned tt, delete p fs)
  else (Raised "os.remove", fs).

(** [os.remove] for any path. *)
Definition os_remove_path (e : env) (p : path) (fs : gmap path node)
  : outcome unit * gmap path node :=
  match locate fs p with
  | Some target => os_remove e target fs
  | None => (Raised "os.remove", fs)
  end.

(** The body of the [try] block of [_cleanup_temp_file].  The two
    tests on [Path(file_path)] compare the components as they are
    written; [os.path.exists] and [os.remove] go through the operating
    system. *)
Definition _cleanup_temp_file_try (e : env) (file_path : path) (fs : gmap path node)
  : outcome unit * gmap path node :=
  if (path_eqb file_path [] || negb (os_path_exists fs file_path))%bool
  then (Returned tt, fs)
  else if (bool_decide (temp_dir e ∈ parents file_path)
           || path_eqb (parent file_path) (temp_dir e))%bool
       then os_remove_path e file_path fs
       else (Returned tt, fs).

(** [_cleanup_temp_file]: an exception is logged as a warning. *)
Definition _cleanup_temp_file (e : env) (file_path : path) (fs : gmap path node)
  : outcome unit * gmap path node :=
  match _cleanup_temp_file_try e file_path fs with
  | (Returned _, fs') => (Returned tt, fs')
  | (Raised _, fs') => (Returned tt, fs')
  end.


(** [Path(p).stem] *)
Definition path_stem (p : path) : string := Correlator.stem (List.last p "").

(** The document format in force: the configured one in lower case if
    allowed, Format A otherwise. *)
Definition output_format (e : env) (st : Runtime.state) : string :=
  let f := lower (unicode_lower (runtime_env e)) (SUBTITLE_OUTPUT_FORMAT st) in
  if str_in f SUBTITLE_AVAILABLE_FORMATS then f else "vtt".

Definition subtitle_filename (e : env) (st : Runtime.state) (now : datetime)
    (original_file_path : path) : string :=
  path_stem original_file_path ++ "_" ++ strftime_seconds now ++ "." ++ output_format e st.

Definition subtitle_path (e : env) (st : Runtime.state) (original_file_path : path) : path :=
  (SUBTITLES_FOLDER e ++ [subtitle_filename e st (now_save e) original_file_path])%list.

(** The body of the [try] block of [_save_subtitle_file].  Opening the
    document for writing creates it, or empties it; when the write or the
    close then raises, a part of the content is left in it. *)
Definition _save_subtitle_file_try (e : env) (original_file_path : path)
    (segments : list segment) (w : world) : outcome path * world :=
  let p := subtitle_path e (service w) original_file_path in
  let subtitle_content :=
    if String.eqb (output_format e (service w)) "vtt"
    then _generate_vtt_content segments
    else _generate_srt_content segments in
  if subtitle_write_ok e p
  then
    match subtitle_write_cut e p with
    | None => (Returned p, with_fs (<[p := File subtitle_content]> (fs w)) w)
    | Some n =>
        (Raised "write",
         with_fs (<[p := File (substring 0 n subtitle_content)]> (fs w)) w)
    end
  else (Raised "open", w).

(** [_save_subtitle_file]: on an exception the empty string is returned,
    for which the empty path stands. *)
Definition _save_subtitle_file (e : env) (original_file_path : path)
    (segments : list segment) (w : world) : path * world :=
  match _save_subtitle_file_try e original_file_path segments w with
  | (Returned p, w') => (p, w')
  | (Raised _, w') => ([], w')
  end.

(** The dictionary [extract_subtitle] returns. *)
Record transcript := {
  subtitle_text : string;
  segments : list segment;
  subtitle_file : path;
  language : string;
  duration : float;
  model_used : string
}.

Record response := {
  success : bool;
  message : string;
  payload : option transcript
}.

Definition failure (msg : string) : response :=
  {| success := false; message := msg; payload := None |}.

(** [_mock_extract_subtitle] *)
Definition mock_segments : list segment :=
  [ {| seg_start := 0%Q; seg_end := 3%Q; seg_text := "这是一个测试字幕片段。" |};
    {| seg_start := 3%Q; seg_end := 6%Q; seg_text := "这里是第二个字幕片段。" |};
    {| seg_start := 6%Q; seg_end := 9%Q; seg_text := "最后一个测试片段。" |} ].

Fixpoint join_with (sep : string) (l : list string) : string :=
  match l with
  | [] => ""
  | [x] => x
  | x :: l' => x ++ sep ++ join_with sep l'
  end.

Definition _mock_extract_subtitle (e : env) (file_path : path) (w : world)
  : response * world :=
  let full_text := join_with " " (map seg_text mock_segments) in
  let '(subtitle_file, w) := _save_subtitle_file e file_path mock_segments w in
  ({| success := true;
      message := "字幕提取成功（模拟模式）";
      payload := Some {| subtitle_text := full_text;
                         segments := mock_segments;
                         subtitle_file := subtitle_file;
                         language := "zh";
                         duration := 9%Q;
                         model_used := current_model_name (service w) |} |}, w).

(** The loop over the recognised segments. *)
Definition collect (raw : list raw_segment) : list segment * string :=
  fold_left
    (fun '(subtitle_segments, full_text) segment =>
       ((subtitle_segments ++ [ {| seg_start := raw_start segment;
                                   seg_end := raw_end segment;
                                   seg_text := strip (raw_text segment) |} ])%list,
        full_text ++ strip (raw_text segment) ++ " "))
    raw ([], "").

(** [Path.mkdir(parents=True, exist_ok=True)] on a directory that is
    there or can be made, with the ancestors that are missing. *)
Definition makedirs (d : path) (fs : gmap path node) : gmap path node :=
  fold_left (fun fs n => mkdir (take n d) fs) (seq 1 (length d)) fs.

(** The files and directories of a list, written below [root]. *)
Definition write_below (root : path) (entries : list (path * node))
    (fs : gmap path node) : gmap path node :=
  fold_left (fun fs '(rel, n) => <[(root ++ rel)%list := n]> fs) entries fs.

(** What [_save_config] (66-77) does on disk, [st] being the service
    when it is called: the selection record is rewritten with the dump of
    the dictionary, unless opening it raises. *)
Definition _save_config_disk (e : env) (st : Runtime.state) (fs : gmap path node)
  : gmap path node :=
  let config : gmap string string :=
    <["current_model" := current_model_name st]>
      (<["subtitle_output_format" := SUBTITLE_OUTPUT_FORMAT st]>
         (<["updated_at" := now_isoformat (runtime_env e)]> ∅)) in
  if config_write_ok (runtime_env e) (write_attempts st)
  then <[model_config_path e := File (json_dump e config)]> fs
  else fs.

(** What [_load_model] (79-126) does on disk, along the branches of
    [Runtime._load_model_try]: without a local model the model directory
    is made and the constructor downloads into it, whether it then
    returns or raises; once a model is built the selection record is
    saved. *)
Definition _load_model_disk (e : env) (model_name : string) (st : Runtime.state)
    (fs : gmap path node) : gmap path node :=
  match WhisperModel (runtime_env e) with
  | None => fs
  | Some construct =>
      if (resident st && String.eqb (current_model_name st) model_name)%bool
      then fs
      else
        let build (src : model_source) (fs : gmap path node) : gmap path node :=
          match construct (constructor_calls st) src with
          | None => fs
          | Some h =>
              let st := set_model h (log_constructor_call src true st) in
              let st := set_model_name model_name st in
              _save_config_disk e st fs
          end in
        if local_model_present (runtime_env e) model_name
        then build (LocalDirectory model_name) fs
        else if model_dir_mkdir_ok (runtime_env e)
             then
               let fs := makedirs (WHISPER_MODEL_DIR e) fs in
               let fs :=
                 write_below (WHISPER_MODEL_DIR e)
                   (downloaded e (constructor_calls st) model_name) fs in
               build (Download model_name) fs
             else fs
  end.


(** [_load_model] on the service object and the disk. *)
Definition _load_model_world (e : env) (model_name : string) (w : world)
  : bool * world :=
  (fst (_load_model (runtime_env e) model_name (service w)),
   {| service := snd (_load_model (runtime_env e) model_name (service w));
      fs := _load_model_disk e model_name (service w) (fs w) |}).

(** The model selection at the head of [extract_subtitle]: [None] when
    it is passed, the failure message otherwise. *)
Definition choose_model (e : env) (model_name : option string) (w : world)
  : option string * world :=
  let requested :=
    match model_name with
    | Some m => (negb (String.eqb m "") &&
                 negb (String.eqb m (current_model_name (service w))))%bool
    | None => false
    end in
  if requested
  then
    let m := default "" model_name in
    match _load_model_world e m w with
    | (true, w') => (None, w')
    | (false, w') => (Some ("模型加载失败: " ++ m), w')
    end
  else if negb (resident (service w))
  then
    match _load_model_world e (current_model_name (service w)) w with
    | (true, w') => (None, w')
    | (false, w') => (Some "默认模型加载失败", w')
    end
  else (None, w).

(** The [try] block of [extract_subtitle].  Besides the outcome it
    yields the value the local variable [preprocessed_file] has when the
    block is left, which is what the [finally] clause looks at. *)
Definition extract_subtitle_try (e : env) (file_path : path)
    (model_name : option string) (language : string) (w : world)
  : outcome response * option path * world :=
  if negb (exists_ (fs w) file_path)
  then (Returned (failure "文件不存在"), None, w)
  else
    match choose_model e model_name w with
    | (Some msg, w) => (Returned (failure msg), None, w)
    | (None, w) =>
        match WhisperModel (runtime_env e) with
        | None =>
            let '(r, w) := _mock_extract_subtitle e file_path w in
            (Returned r, None, w)
        | Some _ =>
            let '(preprocessed_file, fs') := _preprocess_audio e file_path (fs w) in
            let w := with_fs fs' w in
            match current_model (service w) with
            | None => (Raised "AttributeError", Some preprocessed_file, w)
            | Some model =>
                match transcribe e model preprocessed_file
                        (if String.eqb language "auto" then None else Some language) with
                | Raised what => (Raised what, Some preprocessed_file, w)
                | Returned (raw, info) =>
                    let '(subtitle_segments, full_text) := collect raw in
                    let '(subtitle_file, w) :=
                      _save_subtitle_file e file_path subtitle_segments w in
                    (Returned
                       {| success := true;
                          message := "字幕提取成功";
                          payload :=
                            Some {| subtitle_text := strip full_text;
                                    segments := subtitle_segments;
                                    subtitle_file := subtitle_file;
                                    language := info_language info;
                                    duration := info_duration info;
                                    model_used := current_model_name (service w) |} |},
                     Some preprocessed_file, w)
                end
            end
        end
    end.

(** The [finally] clause of [extract_subtitle]. *)
Definition extract_subtitle_finally (e : env) (file_path : path)
    (preprocessed_file : option path) (w : world) : world :=
  match preprocessed_file with
  | Some p =>
      if (negb (path_eqb p []) && negb (path_eqb p file_path))%bool
      then with_fs (snd (_cleanup_temp_file e p (fs w))) w
      else w
  | None => w
  end.

(** [extract_subtitle] *)
Definition extract_subtitle (e : env) (file_path : path)
    (model_name : option string) (language : string) (w : world)
  : response * world :=
  let '(result, preprocessed_file, w) :=
    extract_subtitle_try e file_path model_name language w in
  let r :=
    match result with
    | Returned r => r
    | Raised what => failure ("字幕提取失败: " ++ what)
    end in
  (r, extract_subtitle_finally e file_path preprocessed_file w).

(** A sample call: an upload in Temp, a clock reading, a recognition
    that returns one segment. *)
Definition sample_clock (us : Z) : datetime :=
  {| year := 2024; month := 5; day := 17;
     hour := 9; minute := 30; second := 15; microsecond := us |}.

Definition sample_source : path := ["/"; "app"; "Temp"; "talk_20240517_092900.mp4"].

Definition sample_env (ffmpeg : bool) (run : ffmpeg_result) (removable : bool)
    (save_us : Z) : env :=
  {| runtime_env := Runtime.sample_env (Some always_builds);
     FFmpeg_installed := ffmpeg;
     project_root := ["/"; "app"];
     SUBTITLES_FOLDER := ["/"; "app"; "Subtitles"];
     WHISPER_MODEL_DIR := ["/"; "app"; "Model"];
     model_config_path := ["/"; "app"; "backend"; "config"; "whisper_config.json"];
     temp_mkdir_ok := true;
     now_preprocess := sample_clock 250000;
     now_save := sample_clock save_us;
     ffmpeg_run := fun _ _ => run;
     transcribe := fun _ _ _ =>
       Returned ([ {| raw_start := 0%Q; raw_end := 3%Q; raw_text := " A " |} ],
                 {| info_language := "en"; info_duration := 3%Q |});
     remove_ok := fun _ => removable;
     subtitle_write_ok := fun _ => true;
     subtitle_write_cut := fun _ => None;
     json_dump := fun _ => "{}";
     downloaded := fun _ _ => [] |}.

(** An environment with another clock reading at the normalizer. *)
Definition at_preprocess (t : datetime) (e : env) : env :=
  {| runtime_env := runtime_env e;
     FFmpeg_installed := FFmpeg_installed e;
     project_root := project_root e;
     SUBTITLES_FOLDER := SUBTITLES_FOLDER e;
     WHISPER_MODEL_DIR := WHISPER_MODEL_DIR e;
     model_config_path := model_config_path e;
     temp_mkdir_ok := temp_mkdir_ok e;
     now_preprocess := t;
     now_save := now_save e;
     ffmpeg_run := ffmpeg_run e;
     transcribe := transcribe e;
     remove_ok := remove_ok e;
     subtitle_write_ok := subtitle_write_ok e;
     subtitle_write_cut := subtitle_write_cut e;
     json_dump := json_dump e;
     downloaded := downloaded e |}.

(** An environment without the recognition backend. *)
Definition degraded_env : env :=
  {| runtime_env := Runtime.sample_env None;
     FFmpeg_installed := true;
     project_root := ["/"; "app"];
     SUBTITLES_FOLDER := ["/"; "app"; "Subtitles"];
     WHISPER_MODEL_DIR := ["/"; "app"; "Model"];
     model_config_path := ["/"; "app"; "backend"; "config"; "whisper_config.json"];
     temp_mkdir_ok := true;
     now_preprocess := sample_clock 1;
     now_save := sample_clock 2;
     ffmpeg_run := fun _ _ => RunCompletes None;
     transcribe := fun _ _ _ => Raised "unused";
     remove_ok := fun _ => true;
     subtitle_write_ok := fun _ => true;
     subtitle_write_cut := fun _ => None;
     json_dump := fun _ => "{}";
     downloaded := fun _ _ => [] |}.

Definition sample_world : world :=
  {| service := Runtime.fresh (Runtime.sample_env (Some always_builds));
     fs := {[ sample_source := File "media" ]} |}.

End Pipeline.
(* ===================================================================== *)
(** * Part I, continued.  The rest of the cited files and their callers  *)
(* ===================================================================== *)

From Stdlib Require Import DecimalFacts DecimalPos DecimalN.

(** ** Instants beyond the day *)
Module Instants.
Import PyFloat Timecode.

(** The non-negative instants below 2^53 seconds.  For these every
    quotient [//] computes is an integer a float holds exactly, so that
    [floordiv] and [mod_] are what Python computes; the day is a tiny
    part of this range. *)
Definition plain_instant (s : Q) : Prop := (0 <= s /\ s < 9007199254740992)%Q.

(** The instant a time code denotes, in whole milliseconds, read with the
    parser of the round-trip property: [None] when the string is not a
    time code. *)
Definition vtt_ms (s : float) : option Z :=
  parseTimecode "." (_seconds_to_vtt_time s).

Definition srt_ms (s : float) : option Z :=
  parseTimecode "," (_seconds_to_srt_time s).

(** The whole milliseconds the four fields of a time code add up to. *)
Definition fields_ms (f : fields) : Z :=
  ((hours f * 60 + minutes f) * 60 + secs f) * 1000 + millisecs f.

(** The exponent of the binade in which [b64_round] rounds. *)
Definition binade (x : Q) : Z := Z.max (floor_log2 x) (-1022).

End Instants.

(** ** The transcript a recognition is turned into *)
Module Transcript.
Import Py Subtitle Pipeline.

(** The segment dictionary the loop of [extract_subtitle] appends for a
    recognised segment. *)
Definition stripped (r : raw_segment) : segment :=
  {| seg_start := raw_start r; seg_end := raw_end r; seg_text := strip (raw_text r) |}.

(** The text is not empty and does not start with white space. *)
Definition head_ok (s : string) : bool :=
  (negb (String.eqb s "") && (space_width s =? 0)%nat)%bool.

(** A text that is not empty and has no white space at either end. *)
Definition trimmed (s : string) : Prop := head_ok s = true /\ rstrip s = s.

(** A byte that continues a character of several bytes. *)
Definition continuation (c : ascii) : bool :=
  ((128 <=? nat_of_ascii c)%nat && (nat_of_ascii c <=? 191)%nat)%bool.

(** The text is empty or starts with the first byte of a character. *)
Definition aligned (s : string) : bool :=
  match s with
  | EmptyString => true
  | String c _ => negb (continuation c)
  end.

End Transcript.

(** ** The life of the service object *)
Module Service.
Import Py Runtime Pipeline.

(** The identifier a constructor argument stands for. *)
Definition source_name (src : model_source) : string :=
  match src with
  | LocalDirectory model_name => model_name
  | Download model_name => model_name
  end.

(** The states of the service object of one process: it is made by
    [__init__], and its attributes are assigned by [_load_model] only,
    which [select_model] and [extract_subtitle] call. *)
Inductive reachable (e : Pipeline.env) (initial_format : string) (file : config_file)
  : state -> Prop :=
| reach_init :
    reachable e initial_format file (init (runtime_env e) initial_format file)
| reach_load (model_name : string) (st : state) :
    reachable e initial_format file st ->
    reachable e initial_format file (snd (_load_model (runtime_env e) model_name st))
| reach_select (model_name : string) (st : state) :
    reachable e initial_format file st ->
    reachable e initial_format file (snd (select_model (runtime_env e) model_name st))
| reach_extract (file_path : path) (model_name : option string) (language : string)
    (w : world) :
    reachable e initial_format file (service w) ->
    reachable e initial_format file
      (service (snd (extract_subtitle e file_path model_name language w))).

(** The latest entry of the constructor log that built a model. *)
Definition last_built (st : state) : option model_source :=
  match filter (fun c => snd c = true) (rev (constructor_log st)) with
  | c :: _ => Some (fst c)
  | [] => None
  end.

(** The handle and the identifier agree: a resident handle is what the
    constructor returned at the latest call that built a model, and that
    call was made for the current identifier; without a handle no call
    has built a model; and without the backend no call was made. *)
Definition consistent (e : Runtime.env) (st : state) : Prop :=
  (forall h, current_model st = Some h ->
     exists construct before src after,
       WhisperModel e = Some construct /\
       constructor_log st = (before ++ (src, true) :: after)%list /\
       Forall (fun c => snd c = false) after /\
       construct (length before) src = Some h /\
       source_name src = current_model_name st) /\
  (current_model st = None -> models_built st = 0%nat) /\
  (WhisperModel e = None -> constructor_log st = []).

End Service.

(** ** Model Registry ([whisper_service.py], 128-189) *)
Module Registry.
Import Py Runtime.

(** [sub in s] for two strings. *)
Fixpoint contains (sub s : string) : bool :=
  (String.prefix sub s ||
   match s with
   | EmptyString => false
   | String _ s' => contains sub s'
   end)%bool.

(** [s.endswith(suffix)] *)
Definition endswith (s suffix : string) : bool :=
  let n := String.length s in
  let m := String.length suffix in
  ((m <=? n)%nat && String.eqb (substring (n - m) m s) suffix)%bool.

(** An entry of the directory [~/.cache/huggingface/hub]. *)
Record cache_item := { item_name : string; item_is_dir : bool }.

(** What the disk answers to [_is_model_downloaded]: whether the local
    directory of a model holds [config.json], and the listing of the
    download cache: absent, raising when it is read, or its items. *)
Record probes := {
  local_config_json : string -> bool;
  hub_cache : outcome (option (list cache_item))
}.

(** The body of the [try] block of [_is_model_downloaded]. *)
Definition _is_model_downloaded_try (e : env) (p : probes) (model_name : string)
  : outcome bool :=
  if local_model_present e model_name
  then Returned (forallb (fun required_file : string => local_config_json p model_name)
                         ["config.json"])
  else
    match hub_cache p with
    | Raised what => Raised what
    | Returned None => Returned false
    | Returned (Some items) =>
        Returned
          (existsb (fun item => item_is_dir item &&
                                contains model_name
                                  (lower (unicode_lower e) (item_name item)))
                   items)
    end.

(** [_is_model_downloaded]: an exception is logged and [False] returned. *)
Definition _is_model_downloaded (e : env) (p : probes) (model_name : string) : bool :=
  match _is_model_downloaded_try e p model_name with
  | Returned b => b
  | Raised _ => false
  end.

(** An entry of the list [get_available_models] returns. *)
Record descriptor := {
  name : string;
  display_name : string;
  size : string;
  language : string;
  is_current : bool;
  is_downloaded : bool
}.

(** [get_available_models] *)
Definition get_available_models (e : env) (p : probes) (st : state) : list descriptor :=
  map (fun model_name =>
         {| name := model_name;
            display_name := _get_model_display_name model_name;
            size := _get_model_size model_name;
            language := if negb (endswith model_name ".en")
                        then "multilingual" else "english";
            is_current := String.eqb model_name (current_model_name st);
            is_downloaded := _is_model_downloaded e p model_name |})
      WHISPER_AVAILABLE_MODELS.

End Registry.

(** ** File utilities ([file_utils.py]) *)
Module FileStore.
Import Py PyFloat PyFormat Subtitle Correlator Pipeline.

(** The static configuration ([config.py]). *)
Definition MAX_CONTENT_LENGTH : Z := 500 * 1024 * 1024.
Definition ALLOWED_EXTENSIONS : list string :=
  [".mp4"; ".avi"; ".mov"; ".mkv"; ".wmv"; ".flv"; ".webm";
   ".mp3"; ".wav"; ".flac"; ".aac"; ".ogg"; ".m4a"].

(** What the world outside answers to the file utilities: where the
    Temp folder is, the type [mimetypes.guess_type] guesses for a path,
    whether a file can be opened for writing and whether it can be
    removed, the size the system reports for a directory, the clock, the
    age in hours that [clean_temp_files] computes for a file from its
    modification time, unless [stat()] or [datetime.fromtimestamp]
    raises, and what [str.lower()] answers for text outside ASCII. *)
Record env := {
  TEMP_FOLDER : path;
  guess_type : path -> option string;
  open_ok : path -> bool;
  unlink_ok : path -> bool;
  dir_size : path -> Z;
  now : datetime;
  age_hours : path -> outcome Q;
  str_lower : string -> string
}.

(** [os.path.getsize] *)
Definition getsize (e : env) (fs : gmap path node) (p : path) : outcome Z :=
  match fs !! p with
  | Some (File data) => Returned (Z.of_nat (String.length data))
  | Some Dir => Returned (dir_size e p)
  | None => Raised "FileNotFoundError"
  end.

(** [s.rfind(c)] for a character [c]; [None] stands for [-1]. *)
Fixpoint rfind (c : ascii) (s : string) : option nat :=
  match s with
  | EmptyString => None
  | String x rest =>
      match rfind c rest with
      | Some i => Some (S i)
      | None => if Ascii.eqb x c then Some O else None
      end
  end.

(** [s[i:]] *)
Definition from (i : nat) (s : string) : string := substring i (String.length s - i) s.

(** [os.path.splitext] ([genericpath._splitext] with the separator
    ["/"]): the extension starts at the last dot of the last component,
    unless only dots precede it there. *)
Definition splitext (p : string) : string * string :=
  match rfind "." p with
  | None => (p, "")
  | Some dotIndex =>
      let filenameIndex :=
        match rfind "/" p with
        | Some sepIndex => S sepIndex
        | None => O
        end in
      if (filenameIndex <=? dotIndex)%nat
      then
        if forallb (Ascii.eqb ".")
             (list_ascii_of_string (substring filenameIndex (dotIndex - filenameIndex) p))
        then (p, "")
        else (substring 0 dotIndex p, from dotIndex p)
      else (p, "")
  end.

(** [PurePath.suffix]: the name from its last dot on, unless that dot
    leads or ends the name. *)
Definition suffix (name : string) : string :=
  match rfind_dot name with
  | Some i =>
      if ((0 <? i)%nat && (i <? String.length name - 1)%nat)%bool
      then from i name
      else ""
  | None => ""
  end.

(** [PurePath.name] *)
Definition name_of (p : path) : string := List.last p "".

(** [f"{x:.1f}"] for a float [x]: the nearest multiple of a tenth, ties
    to the even one. *)
Definition format_1f (x : float) : string :=
  let tenths := Z.abs (round_half_even (x * 10)%Q) in
  (if Qle_bool 0 x then "" else "-") ++
  str_int (tenths / 10) ++ "." ++ str_int (tenths mod 10).

Definition size_names : list string := ["B"; "KB"; "MB"; "GB"; "TB"].

(** The [while] loop of [_format_file_size]; the bound on [i] lets it
    run four times at most. *)
Fixpoint scale (rounds : nat) (size_bytes : float) (i : nat) : float * nat :=
  match rounds with
  | O => (size_bytes, i)
  | S rounds' =>
      if (Qle_bool 1024 size_bytes && (i <? length size_names - 1)%nat)%bool
      then scale rounds' (size_bytes / 1024)%Q (S i)
      else (size_bytes, i)
  end.

(** [_format_file_size], for the sizes of files (integers that convert
    to a float; the conversion rounds above 2^53).  Dividing a binary64
    value of this range by 1024 is exact. *)
Definition _format_file_size (size_bytes : Z) : string :=
  if (size_bytes =? 0)%Z then "0 B"
  else
    let '(size, i) := scale 4 (b64_round (inject_Z size_bytes)) 0 in
    format_1f size ++ " " ++ nth i size_names "".

Definition valid_mime_types : list string :=
  ["video/mp4"; "video/avi"; "video/mov"; "video/mkv"; "video/wmv";
   "video/flv"; "video/webm"; "video/m4v"; "video/3gp"; "video/quicktime";
   "video/x-msvideo"; "video/x-ms-wmv"; "video/x-flv";
   "audio/mp3"; "audio/wav"; "audio/flac"; "audio/aac"; "audio/ogg";
   "audio/m4a"; "audio/wma"; "audio/mpeg"; "audio/x-wav"; "audio/mp4"].

(** [_is_valid_mime_type]: [None] and the empty string pass. *)
Definition _is_valid_mime_type (mime_type : option string) : bool :=
  match mime_type with
  | None => true
  | Some t =>
      if String.eqb t "" then true
      else
        let is_video_audio := (String.prefix "video/" t || String.prefix "audio/" t)%bool in
        let is_in_list := str_in t valid_mime_types in
        (is_in_list || is_video_audio)%bool
  end.

(** [str(mime_type)] inside a message. *)
Definition show_mime (mime_type : option string) : string :=
  match mime_type with
  | Some t => t
  | None => "None"
  end.

Record file_info := {
  size : Z;
  size_formatted : string;
  extension : string;
  mime_type : option string;
  name : string
}.

(** The dictionary [validate_file] returns. *)
Record validation := {
  valid : bool;
  validation_message : string;
  validation_info : option file_info
}.

Definition invalid (msg : string) : validation :=
  {| valid := false; validation_message := msg; validation_info := None |}.

(** The body of the [try] block of [validate_file]. *)
Definition validate_file_try (e : env) (file_path : path) (fs : gmap path node)
  : outcome validation :=
  if negb (exists_ fs file_path) then Returned (invalid "文件不存在")
  else
    match getsize e fs file_path with
    | Raised what => Raised what
    | Returned file_size =>
        if (MAX_CONTENT_LENGTH <? file_size)%Z
        then Returned (invalid ("文件大小超过限制 (" ++
                                _format_file_size MAX_CONTENT_LENGTH ++ ")"))
        else
          let file_ext := lower (str_lower e) (suffix (name_of file_path)) in
          if negb (str_in file_ext ALLOWED_EXTENSIONS)
          then Returned (invalid ("不支持的文件格式: " ++ file_ext))
          else
            let mime_type := guess_type e file_path in
            if negb (_is_valid_mime_type mime_type)
            then Returned (invalid ("不支持的文件类型: " ++ show_mime mime_type))
            else
              Returned
                {| valid := true;
                   validation_message := "文件验证通过";
                   validation_info :=
                     Some {| size := file_size;
                             size_formatted := _format_file_size file_size;
                             extension := file_ext;
                             mime_type := mime_type;
                             name := name_of file_path |} |}
    end.

(** [validate_file]: an exception gives an invalid result. *)
Definition validate_file (e : env) (file_path : path) (fs : gmap path node) : validation :=
  match validate_file_try e file_path fs with
  | Returned v => v
  | Raised what => invalid ("文件验证失败: " ++ what)
  end.

Definition safe_chars : string :=
  "-_.() abcdefghijklmnopqrstuvwxyzABCDEFGHIJKLMNOPQRSTUVWXYZ0123456789".

(** [c in safe_chars] *)
Definition is_safe (c : ascii) : bool :=
  existsb (Ascii.eqb c) (list_ascii_of_string safe_chars).

(** Every character of the string is a safe one. *)
Definition all_safe (s : string) : bool := forallb is_safe (list_ascii_of_string s).

(** [''.join(c for c in s if keep(c))] *)
Fixpoint keep_chars (keep : ascii -> bool) (s : string) : string :=
  match s with
  | EmptyString => EmptyString
  | String c rest =>
      if keep c then String c (keep_chars keep rest) else keep_chars keep rest
  end.

(** [_generate_safe_filename] *)
Definition _generate_safe_filename (filename : string) : string :=
  let safe_filename := keep_chars is_safe filename in
  let safe_filename :=
    if String.eqb safe_filename "" then "uploaded_file" else safe_filename in
  if (100 <? String.length safe_filename)%nat
  then
    let '(name, ext) := splitext safe_filename in
    substring 0 95 name ++ ext
  else safe_filename.

(** The dictionary [save_uploaded_file] returns. *)
Record upload_result := {
  success : bool;
  message : string;
  file_path : option path;
  uploaded_info : option file_info
}.

(** The name under which an upload is stored. *)
Definition final_filename (filename timestamp : string) : string :=
  let '(name_part, ext_part) := splitext (_generate_safe_filename filename) in
  name_part ++ "_" ++ timestamp ++ ext_part.

(** The body of the [try] block of [save_uploaded_file].  The time stamp
    holds no path separator, so the stored file is a child of the Temp
    folder.  Opening the file raises on a directory or when the system
    refuses. *)
Definition save_uploaded_file_try (e : env) (file_data : string) (filename : string)
    (timestamp : option string) (fs : gmap path node)
  : outcome upload_result * gmap path node :=
  let timestamp :=
    match timestamp with
    | Some t => t
    | None => strftime_seconds (now e)
    end in
  let file_path := (TEMP_FOLDER e ++ [final_filename filename timestamp])%list in
  match fs !! file_path with
  | Some Dir => (Raised "IsADirectoryError", fs)
  | _ =>
      if negb (open_ok e file_path) then (Raised "open", fs)
      else
        let fs := <[file_path := File file_data]> fs in
        let validation_result := validate_file e file_path fs in
        if negb (valid validation_result)
        then (Returned {| success := false;
                          message := validation_message validation_result;
                          file_path := Some file_path;
                          uploaded_info := None |}, fs)
        else (Returned {| success := true;
                          message := "文件保存成功";
                          file_path := Some file_path;
                          uploaded_info := validation_info validation_result |}, fs)
  end.

(** [save_uploaded_file] *)
Definition save_uploaded_file (e : env) (file_data : string) (filename : string)
    (timestamp : option string) (fs : gmap path node)
  : upload_result * gmap path node :=
  match save_uploaded_file_try e file_data filename timestamp fs with
  | (Returned r, fs') => (r, fs')
  | (Raised what, fs') =>
      ({| success := false;
          message := "保存文件失败: " ++ what;
          file_path := None;
          uploaded_info := None |}, fs')
  end.

(** [os.remove] *)
Definition os_remove (e : env) (p : path) (fs : gmap path node)
  : outcome unit * gmap path node :=
  if (is_file (fs !! p) && unlink_ok e p)%bool
  then (Returned tt, delete p fs)
  else (Raised "os.remove", fs).








(** The entries at which the loop of [clean_temp_files] stops with an
    exception: [is_file()] raises, or the entry is a regular file whose
    age cannot be computed. *)
Definition stops (e : env) (fs : gmap path node) (entry : dir_entry) : bool :=
  let file_path := (TEMP_FOLDER e ++ [entry_name entry])%list in
  (entry_raises entry ||
   (is_file (fs !! file_path) &&
    match age_hours e file_path with
    | Returned _ => false
    | Raised _ => true
    end))%bool.

(** The entries the loop of [clean_temp_files] gets through: those
    before the first at which it stops. *)
Fixpoint reached (e : env) (fs : gmap path node) (listing : list dir_entry)
  : list dir_entry :=
  match listing with
  | [] => []
  | entry :: rest => if stops e fs entry then [] else entry :: reached e fs rest
  end.


(** [find_file_by_id] with paths as component lists: the exact-match
    loop, then the prefix loop; an exception gives [None]. *)
Definition resolve_try (listing : list dir_entry) (file_id : string)
  : outcome (option dir_entry) :=
  match first_match (exact_test file_id) listing with
  | Raised what => Raised what
  | Returned (Some en) => Returned (Some en)
  | Returned None => first_match (prefix_test file_id) listing
  end.

Definition resolve (listing : list dir_entry) (file_id : string) : option dir_entry :=
  match resolve_try listing file_id with
  | Returned found => found
  | Raised _ => None
  end.

Definition find_file_by_id (e : env) (listing : list dir_entry) (file_id : string)
  : option path :=
  match resolve listing file_id with
  | Some en => Some (TEMP_FOLDER e ++ [entry_name en])%list
  | None => None
  end.

(** An entry of a listing describes the file system: it names a child
    of the folder, a file or a directory, and [is_file()] tells which,
    without raising. *)
Definition listed (fs : gmap path node) (dir : path) (en : dir_entry) : bool :=
  match fs !! (dir ++ [entry_name en])%list with
  | Some n => negb (entry_raises en) && Bool.eqb (entry_is_file en) (is_file (Some n))
  | None => false
  end.

(** A listing of a folder, as [glob('*')] yields it: every entry
    describes a child of the folder, and no child is named twice. *)
Definition listing_of (fs : gmap path node) (dir : path) (listing : list dir_entry)
  : Prop :=
  forallb (listed fs dir) listing = true /\ NoDup (map entry_name listing).

(** The listing names every child of the folder. *)
Definition lists_all (fs : gmap path node) (dir : path) (listing : list dir_entry)
  : Prop :=
  forall (child : string) (n : node),
    fs !! (dir ++ [child])%list = Some n -> child ∈ map entry_name listing.

(** A sample Temp folder. *)
Definition sample_env : env :=
  {| TEMP_FOLDER := ["/"; "app"; "Temp"];
     guess_type := fun _ => Some "video/mp4";
     open_ok := fun _ => true;
     unlink_ok := fun _ => true;
     dir_size := fun _ => 4096;
     now := sample_clock 0;
     age_hours := fun _ => Returned 1%Q;
     str_lower := fun s => s |}.

End FileStore.

(** ** The routes of the application ([app.py], 73-236) *)
Module Api.
Import Py Correlator Runtime Pipeline FileStore.

(** A member of the JSON object of a request: absent, [null], or a
    value. *)
Inductive member (A : Type) : Type :=
| Absent
| Null
| Value (a : A).
Arguments Absent {A}.
Arguments Null {A}.
Arguments Value {A} a.

(** [data.get(key)] and [data.get(key, default)] *)
Definition get {A} (m : member A) : option A :=
  match m with
  | Value a => Some a
  | _ => None
  end.




(** What the routes see of the world outside: the environments of the
    file utilities and of the service, and [secure_filename]. *)
Record env := {
  files : FileStore.env;
  pipeline : Pipeline.env;
  secure_filename : string -> string
}.

(** The answer of a route: the status and the JSON object. *)
Record answer (A : Type) := {
  status : Z;
  ok : bool;
  msg : string;
  data : option A
}.
Arguments status {A} _.
Arguments ok {A} _.
Arguments msg {A} _.
Arguments data {A} _.

Definition refuse {A} (code : Z) (text : string) : answer A :=
  {| status := code; ok := false; msg := text; data := None |}.

Record upload_data := {
  file_id : string;
  filename : string;
  stored_path : option path;
  file_size : Z
}.

(** [upload_file].  The request carries a file part or not; a file part
    has a name and its bytes. *)
Definition upload_file (e : env) (part : option (string * string))
    (fs : gmap path node) : answer upload_data * gmap path node :=
  match part with
  | None => (refuse 400 "没有文件被上传", fs)
  | Some (raw_filename, file_data) =>
      if String.eqb raw_filename "" then (refuse 400 "没有选择文件", fs)
      else
        let filename := secure_filename e raw_filename in
        let timestamp := strftime_seconds (now (files e)) in
        let '(result, fs) :=
          save_uploaded_file (files e) file_data filename (Some timestamp) fs in
        if negb (FileStore.success result)
        then (refuse 400 (FileStore.message result), fs)
        else
          let file_id := fst (splitext filename) ++ "_" ++ timestamp in
          ({| status := 200; ok := true; msg := "文件上传成功";
              data := Some {| file_id := file_id;
                              filename := filename;
                              stored_path := file_path result;
                              file_size :=
                                match uploaded_info result with
                                | Some info => size info
                                | None => 0
                                end |} |}, fs)
  end.





(** A sample application: [secure_filename] leaves the sample names as
    they are. *)
Definition sample_env : env :=
  {| files := FileStore.sample_env;
     pipeline := Pipeline.sample_env true (RunCompletes None) true 0;
     secure_filename := fun s => s |}.

(** The answer to the upload of ["talk.mp4"] at the sample clock. *)
Definition sample_upload : upload_data :=
  {| file_id := "talk_20240517_093015";
     filename := "talk.mp4";
     stored_path := Some ["/"; "app"; "Temp"; "talk_20240517_093015.mp4"];
     file_size := 5 |}.

(** A name of 101 characters, and the answer to its upload. *)
Definition long_name : string := PyFormat.zeros 97 ++ ".mp4".

Definition long_upload : upload_data :=
  {| file_id := PyFormat.zeros 97 ++ "_20240517_093015";
     filename := long_name;
     stored_path :=
       Some ["/"; "app"; "Temp"; PyFormat.zeros 95 ++ "_20240517_093015.mp4"];
     file_size := 5 |}.

End Api.

(* ===================================================================== *)
(** * Part II.  Properties                                                *)
(* ===================================================================== *)

(** ** Floors of rationals *)
Section FloorFacts.
Local Open Scope Q_scope.

Lemma Qfloor_unique (q : Q) (z : Z) :
  inject_Z z <= q -> q < inject_Z (z + 1) -> Qfloor q = z.
Proof.
  intros Hl Hu.
  pose proof (Qfloor_le q) as H1. pose proof (Qlt_floor q) as H2.
  assert (inject_Z z < inject_Z (Qfloor q + 1)) as A by lra.
  assert (inject_Z (Qfloor q) < inject_Z (z + 1)) as B by lra.
  rewrite <- Zlt_Qlt in A, B. lia.
Qed.

Lemma Qfloor_bounds (q : Q) :
  inject_Z (Qfloor q) <= q /\ q < inject_Z (Qfloor q) + 1.
Proof.
  split; [apply Qfloor_le|].
  pose proof (Qlt_floor q) as H. rewrite inject_Z_plus in H. exact H.
Qed.

Lemma inject_Z_sub (a b : Z) : inject_Z (a - b) == inject_Z a - inject_Z b.
Proof.
  unfold Z.sub. rewrite inject_Z_plus, inject_Z_opp. reflexivity.
Qed.

Lemma Qfloor_sub_Z (q : Q) (k : Z) :
  Qfloor (q - inject_Z k) = (Qfloor q - k)%Z.
Proof.
  destruct (Qfloor_bounds q) as [H1 H2].
  apply Qfloor_unique; rewrite ?inject_Z_plus, !inject_Z_sub;
    change (inject_Z 1) with 1; lra.
Qed.

Lemma Qfloor_div_Z (q : Q) (d : Z) :
  (0 < d)%Z -> Qfloor (q / inject_Z d) = (Qfloor q / d)%Z.
Proof.
  intros Hd.
  destruct (Qfloor_bounds q) as [H1 H2].
  assert (0 < inject_Z d) as Hd' by (rewrite (Zlt_Qlt 0 d) in Hd; exact Hd).
  pose proof (Z.div_mod (Qfloor q) d ltac:(lia)) as E.
  pose proof (Z.mod_pos_bound (Qfloor q) d Hd) as B.
  set (k := (Qfloor q / d)%Z) in *.
  assert (inject_Z (Qfloor q) == inject_Z d * inject_Z k + inject_Z (Qfloor q mod d)) as E'.
  { rewrite <- inject_Z_mult, <- inject_Z_plus. rewrite <- E. reflexivity. }
  assert (0 <= inject_Z (Qfloor q mod d)) as B1
    by (rewrite <- (Zle_Qle 0); lia).
  assert (inject_Z (Qfloor q mod d) + 1 <= inject_Z d) as B2.
  { rewrite <- (inject_Z_plus _ 1), <- Zle_Qle. lia. }
  apply Qfloor_unique.
  - apply Qle_shift_div_l; [exact Hd'|]. nra.
  - apply Qlt_shift_div_r; [exact Hd'|]. rewrite inject_Z_plus. change (inject_Z 1) with 1. nra.
Qed.

Lemma Qfloor_nonneg (q : Q) : 0 <= q -> (0 <= Qfloor q)%Z.
Proof.
  intros H. pose proof (Qfloor_resp_le 0 q H) as H'. exact H'.
Qed.

End FloorFacts.

(** ** Rounding to binary64 *)
Section RoundingFacts.
Import PyFloat.
Local Open Scope Q_scope.

Lemma inject_Z_lt_succ (a b : Z) : inject_Z a < inject_Z b + 1 -> (a <= b)%Z.
Proof.
  intros H. change 1 with (inject_Z 1) in H.
  rewrite <- inject_Z_plus, <- Zlt_Qlt in H. lia.
Qed.

Lemma round_half_even_cases (q : Q) :
  round_half_even q = Qfloor q \/
  (round_half_even q = (Qfloor q + 1)%Z /\ (1 # 2) <= q - inject_Z (Qfloor q)).
Proof.
  unfold round_half_even.
  destruct (Qcompare_spec (q - inject_Z (Qfloor q)) (1 # 2)) as [E|L|G].
  - destruct (Z.even (Qfloor q)); [left; reflexivity|right; split; [reflexivity|lra]].
  - left; reflexivity.
  - right; split; [reflexivity|lra].
Qed.

Lemma round_half_even_ge (q : Q) (n : Z) :
  inject_Z n <= q -> (n <= round_half_even q)%Z.
Proof.
  intros H. destruct (Qfloor_bounds q) as [_ Hu].
  assert (n <= Qfloor q)%Z by (apply inject_Z_lt_succ; lra).
  destruct (round_half_even_cases q) as [-> | [-> _]]; lia.
Qed.

Lemma round_half_even_le (q : Q) (n : Z) :
  q <= inject_Z n -> (round_half_even q <= n)%Z.
Proof.
  intros H. destruct (Qfloor_bounds q) as [Hl Hu].
  destruct (round_half_even_cases q) as [-> | [-> Hh]].
  - rewrite Zle_Qle. lra.
  - assert (Qfloor q < n)%Z; [|lia]. rewrite Zlt_Qlt. lra.
Qed.

Lemma round_half_even_below_half (q : Q) (n : Z) :
  q < inject_Z n - (1 # 2) -> (round_half_even q <= n - 1)%Z.
Proof.
  intros H. destruct (Qfloor_bounds q) as [Hl Hu].
  destruct (round_half_even_cases q) as [-> | [-> Hh]].
  - assert (Qfloor q < n)%Z; [|lia]. rewrite Zlt_Qlt. lra.
  - assert (Qfloor q + 1 < n)%Z; [|lia].
    rewrite Zlt_Qlt, inject_Z_plus. change (inject_Z 1) with 1. lra.
Qed.

Lemma round_half_even_Z (n : Z) : round_half_even (inject_Z n) = n.
Proof.
  apply Z.le_antisymm;
    [apply round_half_even_le | apply round_half_even_ge]; lra.
Qed.

Lemma two_pow_pos (z : Z) : 0 < 2 ^ z.
Proof. apply Qpower_0_lt. reflexivity. Qed.

Lemma two_pow_Z (n : Z) : (0 <= n)%Z -> 2 ^ n == inject_Z (2 ^ n).
Proof. intros H. rewrite (Zpower_Qpower 2 n H). reflexivity. Qed.

Lemma Qdiv_le_cross (a b n d : Q) :
  0 < b -> 0 < d -> a * d <= n * b -> a / b <= n / d.
Proof.
  intros Hb Hd H.
  apply Qle_shift_div_l; [exact Hd|].
  assert (a / b * d == a * d / b) as -> by (field; lra).
  apply Qle_shift_div_r; [exact Hb|exact H].
Qed.

(** [floor_log2 x] is at most the binary logarithm of [x]. *)
Lemma floor_log2_le (x : Q) : 0 < x -> 2 ^ floor_log2 x <= x.
Proof.
  intros Hx. unfold floor_log2.
  set (n := Qnum x). set (d := Zpos (Qden x)).
  destruct (Qle_bool (2 ^ (Z.log2 n - Z.log2 d)) x) eqn:E.
  - apply Qle_bool_iff. exact E.
  - clear E.
    assert (0 < n)%Z as Hn.
    { unfold n. destruct x as [xn xd]. unfold Qlt in Hx. simpl in *. lia. }
    assert (0 < d)%Z as Hd by (unfold d; lia).
    destruct (Z.log2_spec n Hn) as [Hn1 _].
    destruct (Z.log2_spec d Hd) as [_ Hd2].
    pose proof (Z.log2_nonneg n) as Ln. pose proof (Z.log2_nonneg d) as Ld.
    replace (Z.log2 n - Z.log2 d - 1)%Z with (Z.log2 n - Z.succ (Z.log2 d))%Z by lia.
    rewrite Qpower_minus by discriminate.
    rewrite !two_pow_Z by lia.
    assert (x == inject_Z n / inject_Z d) as ->.
    { unfold n, d. destruct x as [xn xd]. simpl. apply Qmake_Qdiv. }
    assert (0 < inject_Z d) as Hd' by (rewrite <- (Zlt_Qlt 0); exact Hd).
    assert (0 < inject_Z n) as Hn' by (rewrite <- (Zlt_Qlt 0); exact Hn).
    assert (inject_Z (2 ^ Z.log2 n) <= inject_Z n) as A by (rewrite <- Zle_Qle; exact Hn1).
    assert (inject_Z d < inject_Z (2 ^ Z.succ (Z.log2 d))) as B
      by (rewrite <- Zlt_Qlt; exact Hd2).
    assert (0 < inject_Z (2 ^ Z.log2 n)) as A0
      by (rewrite <- (Zlt_Qlt 0); apply Z.pow_pos_nonneg; lia).
    apply Qdiv_le_cross; [lra|exact Hd'|nra].
Qed.

(** Below 1024 the unit in the last place is [2^-m] for some [m >= 43],
    so that every integer is a multiple of it. *)
Lemma ulp_small (x : Q) :
  0 < x -> x < 1024 ->
  exists m : Z, (43 <= m)%Z /\ ulp x == / inject_Z (2 ^ m).
Proof.
  intros Hx Hb.
  assert (floor_log2 x < 10)%Z as Hl.
  { apply (Qpower_lt_compat_l_inv 2); [|reflexivity].
    eapply Qle_lt_trans; [apply floor_log2_le; exact Hx|].
    eapply Qlt_le_trans; [exact Hb|]. discriminate. }
  unfold ulp. set (e := Z.max (floor_log2 x) (-1022)).
  exists (52 - e)%Z. split; [lia|].
  replace (e - 52)%Z with (- (52 - e))%Z by lia.
  rewrite Qpower_opp, two_pow_Z by lia. reflexivity.
Qed.

Lemma b64_round_pos (x : Q) :
  0 < x -> b64_round x = inject_Z (round_half_even (x / ulp x)) * ulp x.
Proof.
  intros Hx. unfold b64_round.
  destruct (Qcompare_spec x 0) as [E|L|G]; [lra|lra|reflexivity].
Qed.

Lemma b64_round_0 (x : Q) : x == 0 -> b64_round x = 0.
Proof.
  intros Hx. unfold b64_round.
  destruct (Qcompare_spec x 0) as [E|L|G]; [reflexivity|lra|lra].
Qed.

Lemma round_half_even_comp (q q' : Q) :
  q == q' -> round_half_even q = round_half_even q'.
Proof.
  intros E. unfold round_half_even.
  rewrite (Qfloor_comp _ _ E).
  assert (q - inject_Z (Qfloor q') == q' - inject_Z (Qfloor q')) as E'
    by (rewrite E; reflexivity).
  rewrite (Qcompare_comp _ _ E' (1 # 2) (1 # 2) (Qeq_refl _)). reflexivity.
Qed.

(** A positive value below 1024 is rounded on a grid [1 / 2^m] that
    contains the integers. *)
Lemma b64_round_grid (x : Q) :
  0 < x -> x < 1024 ->
  exists m : Z, (43 <= m)%Z /\
    b64_round x == inject_Z (round_half_even (x * inject_Z (2 ^ m))) / inject_Z (2 ^ m).
Proof.
  intros Hx Hb. rewrite (b64_round_pos x Hx).
  destruct (ulp_small x Hx Hb) as (m & Hm & Hu).
  exists m. split; [exact Hm|].
  assert (0 < 2 ^ m)%Z as Hp by (apply Z.pow_pos_nonneg; lia).
  assert (0 < inject_Z (2 ^ m)) as Hp' by (rewrite <- (Zlt_Qlt 0); exact Hp).
  assert (x / ulp x == x * inject_Z (2 ^ m)) as E by (rewrite Hu; field; lra).
  rewrite (round_half_even_comp _ _ E), Hu. reflexivity.
Qed.

(** Rounding does not cross an integer: integers below 1024 are binary64
    values. *)
Lemma b64_round_ge_Z (x : Q) (k : Z) :
  0 < x -> x < 1024 -> inject_Z k <= x -> inject_Z k <= b64_round x.
Proof.
  intros Hx Hb Hk.
  destruct (b64_round_grid x Hx Hb) as (m & Hm & ->).
  assert (0 < 2 ^ m)%Z as Hp by (apply Z.pow_pos_nonneg; lia).
  assert (0 < inject_Z (2 ^ m)) as Hp' by (rewrite <- (Zlt_Qlt 0); exact Hp).
  assert (k * 2 ^ m <= round_half_even (x * inject_Z (2 ^ m)))%Z as A.
  { apply round_half_even_ge. rewrite inject_Z_mult. nra. }
  rewrite Zle_Qle, inject_Z_mult in A.
  apply Qle_shift_div_l; [exact Hp'|exact A].
Qed.

Lemma b64_round_le_Z (x : Q) (k : Z) :
  0 < x -> x < 1024 -> x <= inject_Z k -> b64_round x <= inject_Z k.
Proof.
  intros Hx Hb Hk.
  destruct (b64_round_grid x Hx Hb) as (m & Hm & ->).
  assert (0 < 2 ^ m)%Z as Hp by (apply Z.pow_pos_nonneg; lia).
  assert (0 < inject_Z (2 ^ m)) as Hp' by (rewrite <- (Zlt_Qlt 0); exact Hp).
  assert (round_half_even (x * inject_Z (2 ^ m)) <= k * 2 ^ m)%Z as A.
  { apply round_half_even_le. rewrite inject_Z_mult. nra. }
  rewrite Zle_Qle, inject_Z_mult in A.
  apply Qle_shift_div_r; [exact Hp'|exact A].
Qed.

End RoundingFacts.

Section BinadeFacts.
Import PyFloat.
Local Open Scope Q_scope.

(** The largest binary64 value below 1 is [1 - 2^-53]; a product
    [x <= 1000 * (1 - 2^-53)] is never rounded up to 1000. *)
Lemma b64_round_lt_1000 (x : Q) :
  0 < x -> x <= 1000 * (1 - (1 # 9007199254740992)) -> b64_round x < 1000.
Proof.
  intros Hx Hb.
  destruct (b64_round_grid x Hx) as (m & Hm & ->); [lra|].
  assert (2 ^ 43 <= 2 ^ m)%Z as Hp by (apply Z.pow_le_mono_r; lia).
  assert (inject_Z (2 ^ 43) <= inject_Z (2 ^ m)) as Hp'
    by (rewrite <- Zle_Qle; exact Hp).
  change (inject_Z (2 ^ 43)) with (8796093022208 # 1) in Hp'.
  set (P := inject_Z (2 ^ m)) in *.
  assert (round_half_even (x * P) <= 1000 * 2 ^ m - 1)%Z as A.
  { apply round_half_even_below_half. rewrite inject_Z_mult. fold P.
    change (inject_Z 1000) with 1000.
    assert (x * P <= 1000 * (1 - (1 # 9007199254740992)) * P) by nra.
    lra. }
  rewrite Zle_Qle, inject_Z_sub, inject_Z_mult in A. fold P in A.
  change (inject_Z 1000) with 1000 in A. change (inject_Z 1) with 1 in A.
  apply Qlt_shift_div_r; lra.
Qed.

(** The fractional part of a non-negative binary64 value is at most
    [1 - 2^-53]. *)
Lemma binary64_frac_bound (s : Q) :
  binary64 s -> 0 <= s ->
  s - inject_Z (Qfloor s) <= 1 - (1 # 9007199254740992).
Proof.
  intros (m & e & Hs & Hm & He) Hs0.
  destruct (Z_le_gt_dec 0 e) as [Hge | Hlt].
  - (* an integer *)
    assert (s == inject_Z (m * 2 ^ e)) as E
      by (rewrite inject_Z_mult, <- two_pow_Z by lia; exact Hs).
    rewrite (Qfloor_comp _ _ E), Qfloor_Z, E. lra.
  - set (j := (- e)%Z).
    assert (0 < 2 ^ j)%Z as HD by (apply Z.pow_pos_nonneg; lia).
    assert (0 < inject_Z (2 ^ j)) as HD' by (rewrite <- (Zlt_Qlt 0); exact HD).
    assert (s == inject_Z m / inject_Z (2 ^ j)) as E.
    { rewrite Hs. replace e with (- j)%Z by lia.
      rewrite Qpower_opp, two_pow_Z by lia. reflexivity. }
    assert (0 <= m)%Z as Hm0.
    { destruct (Z_le_gt_dec 0 m) as [|Hneg]; [assumption|exfalso].
      assert (inject_Z m < inject_Z 0) as N by (rewrite <- Zlt_Qlt; lia).
      change (inject_Z 0) with 0 in N.
      assert (s < 0); [|lra]. rewrite E.
      apply Qlt_shift_div_r; [exact HD'|lra]. }
    rewrite (Qfloor_comp _ _ E), <- Zdiv_Qdiv, E.
    pose proof (Z.div_mod m (2 ^ j) ltac:(lia)) as DM.
    pose proof (Z.mod_pos_bound m (2 ^ j) HD) as [R0 R1].
    set (D := (2 ^ j)%Z) in *. set (r := (m mod D)%Z) in *. set (q := (m / D)%Z) in *.
    assert (inject_Z m == inject_Z D * inject_Z q + inject_Z r) as DM'
      by (rewrite <- inject_Z_mult, <- inject_Z_plus, <- DM; reflexivity).
    assert (inject_Z m / inject_Z D - inject_Z q == inject_Z r / inject_Z D) as ->
      by (rewrite DM'; field; lra).
    apply Qle_shift_div_r; [exact HD'|].
    assert (r * 9007199254740992 <= D * 9007199254740992 - D)%Z as K.
    { assert (r < 9007199254740992)%Z.
      { assert (r <= m)%Z by (unfold r; apply Z.mod_le; lia).
        change (2 ^ 53)%Z with 9007199254740992%Z in Hm. lia. }
      nia. }
    rewrite Zle_Qle, inject_Z_sub, !inject_Z_mult in K.
    change (inject_Z 9007199254740992) with (9007199254740992 # 1) in K.
    lra.
Qed.

End BinadeFacts.

(** ** The four time-code fields *)
Section FieldFacts.
Import PyFloat Timecode.
Local Open Scope Q_scope.

Lemma int_nonneg (x : Q) : 0 <= x -> int x = Qfloor x.
Proof.
  intros H. unfold int.
  destruct (Qle_bool 0 x) eqn:E; [reflexivity|].
  apply Qle_bool_iff in H. congruence.
Qed.

Lemma floordiv_floor (s : Q) (d : Z) :
  (0 < d)%Z -> floordiv s (inject_Z d) = inject_Z (Qfloor s / d).
Proof. intros Hd. unfold floordiv. rewrite Qfloor_div_Z by exact Hd. reflexivity. Qed.

(** [s % d] is [s] minus the multiple of [d] below it. *)
Lemma mod_floor (s : Q) (d : Z) :
  (0 < d)%Z -> mod_ s (inject_Z d) == s - inject_Z (d * (Qfloor s / d)).
Proof.
  intros Hd. unfold mod_. rewrite Qfloor_div_Z by exact Hd.
  rewrite inject_Z_mult. reflexivity.
Qed.

Lemma mod_range (s : Q) (d : Z) :
  (0 < d)%Z -> 0 <= mod_ s (inject_Z d) /\ mod_ s (inject_Z d) < inject_Z d.
Proof.
  intros Hd. rewrite (mod_floor s d Hd).
  destruct (Qfloor_bounds s) as [Hl Hu].
  pose proof (Z.div_mod (Qfloor s) d ltac:(lia)) as DM.
  pose proof (Z.mod_pos_bound (Qfloor s) d Hd) as [R0 R1].
  assert (inject_Z (Qfloor s) ==
          inject_Z (d * (Qfloor s / d)) + inject_Z (Qfloor s mod d)) as E
    by (rewrite <- inject_Z_plus, <- DM; reflexivity).
  assert (0 <= inject_Z (Qfloor s mod d)) as B0 by (rewrite <- (Zle_Qle 0); exact R0).
  assert (inject_Z (Qfloor s mod d) + 1 <= inject_Z d) as B1.
  { change 1 with (inject_Z 1). rewrite <- inject_Z_plus, <- Zle_Qle. lia. }
  split; lra.
Qed.

Lemma floor_mod (s : Q) (d : Z) :
  (0 < d)%Z -> Qfloor (mod_ s (inject_Z d)) = (Qfloor s mod d)%Z.
Proof.
  intros Hd. rewrite (Qfloor_comp _ _ (mod_floor s d Hd)), Qfloor_sub_Z.
  pose proof (Z.div_mod (Qfloor s) d ltac:(lia)). lia.
Qed.

(** The integer fields are the digits of [floor s] in base 60, and the
    millisecond field is the floor of the rounded product. *)
Lemma split_seconds_fields (s : Q) :
  0 <= s ->
  let F := Qfloor s in
  hours (split_seconds s) = (F / 3600)%Z /\
  minutes (split_seconds s) = ((F mod 3600) / 60)%Z /\
  secs (split_seconds s) = (F mod 60)%Z.
Proof.
  intros Hs F. unfold split_seconds; simpl.
  pose proof (Qfloor_nonneg s Hs) as HF. fold F in HF.
  repeat split.
  - change 3600 with (inject_Z 3600). rewrite floordiv_floor by lia.
    rewrite int_nonneg, Qfloor_Z; [reflexivity|].
    rewrite <- (Zle_Qle 0). apply Z.div_pos; lia.
  - change 3600 with (inject_Z 3600). change 60 with (inject_Z 60).
    rewrite floordiv_floor by lia. rewrite floor_mod by lia.
    rewrite int_nonneg, Qfloor_Z; [reflexivity|].
    rewrite <- (Zle_Qle 0). apply Z.div_pos; [|lia].
    apply Z.mod_pos_bound; lia.
  - change 60 with (inject_Z 60).
    rewrite int_nonneg by (apply mod_range; lia).
    apply floor_mod; lia.
Qed.

Lemma split_seconds_whole (s : Q) :
  in_day s ->
  let f := split_seconds s in
  (0 <= hours f < 24 /\ 0 <= minutes f < 60 /\ 0 <= secs f < 60 /\
   (hours f * 60 + minutes f) * 60 + secs f = Qfloor s)%Z.
Proof.
  intros [Hs Hd] f. subst f.
  destruct (split_seconds_fields s Hs) as (-> & -> & ->).
  pose proof (Qfloor_nonneg s Hs) as HF.
  assert (Qfloor s < 86400)%Z as HF'.
  { rewrite Zlt_Qlt. pose proof (Qfloor_le s). change (inject_Z 86400) with 86400.
    assert ((86399999 # 1000) < 86400) by reflexivity. lra. }
  set (F := Qfloor s) in *.
  pose proof (Z.div_mod F 3600 ltac:(lia)).
  pose proof (Z.mod_pos_bound F 3600 ltac:(lia)).
  pose proof (Z.div_mod (F mod 3600) 60 ltac:(lia)).
  pose proof (Z.mod_pos_bound (F mod 3600) 60 ltac:(lia)).
  pose proof (Z.div_mod F 60 ltac:(lia)).
  pose proof (Z.mod_pos_bound F 60 ltac:(lia)).
  assert (0 <= F / 3600 < 24)%Z by (split; [apply Z.div_pos; lia | apply Z.div_lt_upper_bound; lia]).
  assert (0 <= F mod 3600 / 60 < 60)%Z
    by (split; [apply Z.div_pos; lia | apply Z.div_lt_upper_bound; lia]).
  repeat split; try lia.
Qed.

Lemma ms_product_range (s : Q) : 0 <= ms_product s /\ ms_product s < 1000.
Proof.
  unfold ms_product. pose proof (mod_range s 1 ltac:(lia)) as [H0 H1].
  change (inject_Z 1) with 1 in *. split; lra.
Qed.

Lemma mod_1_frac (s : Q) : mod_ s 1 == s - inject_Z (Qfloor s).
Proof.
  change 1 with (inject_Z 1) at 1. rewrite (mod_floor s 1) by lia.
  rewrite Z.div_1_r, Z.mul_1_l. reflexivity.
Qed.

Lemma truncateToMs_decomp (s : Q) :
  truncateToMs s = (Qfloor s * 1000 + Qfloor (ms_product s))%Z.
Proof.
  unfold truncateToMs.
  assert (s * 1000 == ms_product s - inject_Z (- (Qfloor s * 1000))) as E.
  { unfold ms_product. rewrite mod_1_frac, inject_Z_opp, inject_Z_mult.
    change (inject_Z 1000) with 1000. ring. }
  rewrite (Qfloor_comp _ _ E), Qfloor_sub_Z. lia.
Qed.

Lemma mul_nonneg (x : Q) : 0 <= x -> x < 1024 -> 0 <= b64_round x.
Proof.
  intros H0 H1. destruct (Qlt_le_dec 0 x) as [Hp|Hz].
  - apply (b64_round_ge_Z x 0 Hp H1). exact H0.
  - rewrite b64_round_0 by lra. lra.
Qed.

(** The millisecond field against the floor of the exact product. *)
Lemma millisecs_bounds (s : Q) :
  binary64 s -> 0 <= s ->
  let ms := millisecs (split_seconds s) in
  let k := Qfloor (ms_product s) in
  (k <= ms <= k + 1 /\ 0 <= ms <= 999)%Z /\
  (mul (mod_ s 1) 1000 == ms_product s -> ms = k).
Proof.
  intros Hb Hs ms k.
  destruct (ms_product_range s) as [X0 X1].
  assert (ms = Qfloor (b64_round (ms_product s))) as Hms.
  { unfold ms, split_seconds; cbn [millisecs]. apply int_nonneg.
    apply mul_nonneg; [exact X0|]. fold (ms_product s). lra. }
  destruct (Qfloor_bounds (ms_product s)) as [K0 K1]. fold k in K0, K1.
  assert (0 <= k)%Z as Hk by (apply Qfloor_nonneg; exact X0).
  split; [|intros E; rewrite Hms; apply Qfloor_comp; exact E].
  destruct (Qlt_le_dec 0 (ms_product s)) as [Hp|Hz].
  - assert (inject_Z k <= b64_round (ms_product s)) as L
      by (apply b64_round_ge_Z; [exact Hp|lra|exact K0]).
    assert (b64_round (ms_product s) <= inject_Z (k + 1)) as U.
    { apply b64_round_le_Z; [exact Hp|lra|]. rewrite inject_Z_plus.
      change (inject_Z 1) with 1. lra. }
    assert (b64_round (ms_product s) < 1000) as U'.
    { apply b64_round_lt_1000; [exact Hp|].
      pose proof (binary64_frac_bound s Hb Hs) as Fr.
      unfold ms_product. rewrite mod_1_frac. lra. }
    assert (k <= ms)%Z as A by (rewrite Hms; rewrite <- (Qfloor_Z k); apply Qfloor_resp_le; exact L).
    assert (ms <= k + 1)%Z as B
      by (rewrite Hms; rewrite <- (Qfloor_Z (k + 1)); apply Qfloor_resp_le; exact U).
    assert (ms < 1000)%Z as C.
    { rewrite Hms. apply Z.lt_le_trans with (Qfloor (b64_round (ms_product s)) + 1 - 0)%Z; [lia|].
      assert (Qfloor (b64_round (ms_product s)) < 1000)%Z; [|lia].
      rewrite Zlt_Qlt. pose proof (Qfloor_le (b64_round (ms_product s))).
      change (inject_Z 1000) with 1000. lra. }
    lia.
  - assert (ms = 0)%Z as ->.
    { rewrite Hms, b64_round_0 by lra. reflexivity. }
    assert (k = 0)%Z as ->.
    { unfold k. apply Qfloor_unique; change (inject_Z 0) with 0;
        change (inject_Z (0 + 1)) with 1; lra. }
    lia.
Qed.

End FieldFacts.

(** ** Rendering and reading back a time code *)
Section FormatFacts.
Import PyFormat Timecode.

Lemma append_char (c : ascii) (x : string) : String c "" ++ x = String c x.
Proof. reflexivity. Qed.

Lemma append_String (c : ascii) (a x : string) :
  String c a ++ x = String c (a ++ x).
Proof. reflexivity. Qed.

Lemma lacks_app (c : ascii) (a b : string) :
  lacks c (a ++ b) = lacks c a && lacks c b.
Proof.
  induction a as [|x a IH]; [reflexivity|].
  rewrite append_String. simpl. rewrite IH. apply andb_assoc.
Qed.

Lemma split_on_lacks (c : ascii) (a : string) :
  lacks c a = true -> split_on c a = [a].
Proof.
  induction a as [|x a IH]; simpl; [reflexivity|].
  intros H. apply andb_prop in H as [Hx Ha].
  apply negb_true_iff in Hx. rewrite Hx, (IH Ha). reflexivity.
Qed.

Lemma split_on_app (c : ascii) (a b : string) :
  lacks c a = true -> split_on c (a ++ String c b) = a :: split_on c b.
Proof.
  induction a as [|x a IH].
  - intros _. change ("" ++ String c b) with (String c b). simpl.
    rewrite Ascii.eqb_refl. reflexivity.
  - intros H. rewrite append_String. simpl in *.
    apply andb_prop in H as [Hx Ha].
    apply negb_true_iff in Hx. rewrite Hx, (IH Ha). reflexivity.
Qed.

Lemma all_from_spec (P : Z -> bool) (n : nat) (z0 : Z) :
  all_from P z0 n = true ->
  forall z, z0 <= z < z0 + Z.of_nat n -> P z = true.
Proof.
  revert z0. induction n as [|n IH]; intros z0 H z Hz; [lia|].
  simpl in H. apply andb_prop in H as [H0 H1].
  destruct (Z.eq_dec z z0) as [->|Hne]; [exact H0|].
  apply (IH (z0 + 1) H1). lia.
Qed.

Lemma forall_below (P : Z -> bool) (n : nat) :
  all_from P 0 n = true ->
  forall z, 0 <= z < Z.of_nat n -> P z = true.
Proof. intros H z Hz. apply (all_from_spec P n 0 H). lia. Qed.

Lemma field_ok_2 (n : Z) : 0 <= n < 100 -> field_ok 2 n = true.
Proof. apply (forall_below (field_ok 2) 100). vm_compute. reflexivity. Qed.

Lemma field_ok_3 (n : Z) : 0 <= n < 1000 -> field_ok 3 n = true.
Proof. apply (forall_below (field_ok 3) 1000). vm_compute. reflexivity. Qed.

Lemma field_ok_elim (w : nat) (n : Z) :
  field_ok w n = true ->
  lacks ":" (format_d w n) = true /\ lacks "." (format_d w n) = true /\
  lacks "," (format_d w n) = true /\ parse_decimal (format_d w n) = Some n.
Proof.
  unfold field_ok. intros H.
  apply andb_prop in H as [H Hp]. apply andb_prop in H as [H H3].
  apply andb_prop in H as [H1 H2].
  repeat split; try assumption.
  destruct (parse_decimal (format_d w n)) as [m|]; [|discriminate].
  apply Z.eqb_eq in Hp. congruence.
Qed.

(** Reading back a rendered time code whose fields are in range. *)
Lemma parse_render (sep : ascii) (f : fields) :
  sep = "."%char \/ sep = ","%char ->
  0 <= hours f < 100 -> 0 <= minutes f < 60 -> 0 <= secs f < 60 ->
  0 <= millisecs f < 1000 ->
  parseTimecode sep (render (String sep "") f) =
  Some (((hours f * 60 + minutes f) * 60 + secs f) * 1000 + millisecs f).
Proof.
  intros Hsep Hh Hm Hs Hms.
  destruct (field_ok_elim 2 (hours f) (field_ok_2 (hours f) Hh)) as (h1 & _ & _ & h4).
  destruct (field_ok_elim 2 (minutes f) (field_ok_2 (minutes f) ltac:(lia))) as (m1 & _ & _ & m4).
  destruct (field_ok_elim 2 (secs f) (field_ok_2 (secs f) ltac:(lia))) as (s1 & s2 & s3 & s4).
  destruct (field_ok_elim 3 (millisecs f) (field_ok_3 (millisecs f) Hms)) as (x1 & x2 & x3 & x4).
  unfold parseTimecode, render.
  rewrite !append_char.
  rewrite (split_on_app ":" _ _ h1).
  rewrite (split_on_app ":" _ _ m1).
  assert (lacks ":" (format_d 2 (secs f) ++ String sep (format_d 3 (millisecs f))) = true) as L.
  { rewrite lacks_app, s1. simpl. rewrite x1.
    destruct Hsep as [-> | ->]; reflexivity. }
  rewrite (split_on_lacks ":" _ L).
  assert (lacks sep (format_d 2 (secs f)) = true /\
          lacks sep (format_d 3 (millisecs f)) = true) as [La Lb]
    by (destruct Hsep as [-> | ->]; split; assumption).
  rewrite (split_on_app sep _ _ La), (split_on_lacks sep _ Lb).
  rewrite h4, m4, s4, x4. reflexivity.
Qed.

End FormatFacts.

(** ** The round trip of a time code *)
Section TimecodeRoundTrip.
Import PyFloat PyFormat Timecode.

Lemma binary64_of_bits (m e : Z) :
  Z.abs m < 2 ^ 53 -> -1074 <= e <= 971 -> binary64 (of_bits m e).
Proof. intros Hm He. exists m, e. split; [reflexivity|split; assumption]. Qed.

(** [mul] agrees with the Standard Library's IEEE-754 multiplication on
    the two sample instants. *)
Example mul_matches_SFmul :
  (of_spec (SFmul 53 1024 (S754_finite false 5188146770730811 (-59))
                          (S754_finite false 1000 0))
     == mul float_0_009 1000)%Q /\
  (of_spec (SFmul 53 1024 (S754_finite false 5021513584518103 (-52))
                          (S754_finite false 1000 0))
     == mul float_1_115 1000)%Q.
Proof. split; vm_compute; reflexivity. Qed.

(** At the end of the day the product is exact and the fields are those
    of the truncation. *)
Example end_of_day :
  (of_spec (SFmul 53 1024 (S754_finite false 68650757259 (-36))
                          (S754_finite false 1000 0))
     == mul (mod_ float_86399_999 1) 1000)%Q /\
  (mul (mod_ float_86399_999 1) 1000 == ms_product float_86399_999)%Q /\
  _seconds_to_srt_time float_86399_999 = "23:59:59,998" /\
  truncateToMs float_86399_999 = 86399998.
Proof. split_and!; vm_compute; reflexivity. Qed.

Lemma roundtrip_fields (s : Q) :
  binary64 s -> in_day s ->
  let f := split_seconds s in
  let ms := ((hours f * 60 + minutes f) * 60 + secs f) * 1000 + millisecs f in
  parseTimecode "." (_seconds_to_vtt_time s) = Some ms /\
  parseTimecode "," (_seconds_to_srt_time s) = Some ms /\
  truncateToMs s <= ms <= truncateToMs s + 1 /\
  0 <= millisecs f <= 999 /\
  ((mul (mod_ s 1) 1000 == ms_product s)%Q -> ms = truncateToMs s) /\
  hours f = Qfloor s / 3600 /\
  minutes f = (Qfloor s mod 3600) / 60 /\
  secs f = Qfloor s mod 60 /\
  ms = Qfloor s * 1000 + millisecs f.
Proof.
  intros Hb Hd f ms.
  pose proof (split_seconds_fields s (proj1 Hd)) as HF. cbv zeta in HF.
  destruct HF as (Fh & Fm & Fs).
  pose proof (split_seconds_whole s Hd) as HW. cbv zeta in HW.
  destruct HW as (Hh & Hm & Hs & Hw).
  pose proof (millisecs_bounds s Hb (proj1 Hd)) as HM. cbv zeta in HM.
  destruct HM as [[Hk Hr] Hex].
  rewrite (truncateToMs_decomp s).
  unfold _seconds_to_vtt_time, _seconds_to_srt_time.
  rewrite !parse_render by (auto; lia).
  subst ms f. rewrite Hw.
  split_and!; try lia; try assumption; try reflexivity.
  intros E. rewrite (Hex E). reflexivity.
Qed.

(** C1, as amended.  For every binary64 instant [s] of the day, both
    converters produce a string that reads back, in whole milliseconds,
    as [s] truncated to milliseconds or one millisecond more; the
    millisecond field stays within 0..999; the result is exactly the
    truncation whenever the binary64 product [(s % 1) * 1000] is exact;
    and the hour, minute and second fields are exact: they are those of
    the whole seconds [floor s], to which the value read back adds the
    millisecond field. *)
Theorem C1_roundtrip_within_one_ms (s : Q) :
  binary64 s -> in_day s ->
  exists ms : Z,
    parseTimecode "." (_seconds_to_vtt_time s) = Some ms /\
    parseTimecode "," (_seconds_to_srt_time s) = Some ms /\
    truncateToMs s <= ms <= truncateToMs s + 1 /\
    0 <= millisecs (split_seconds s) <= 999 /\
    ((mul (mod_ s 1) 1000 == ms_product s)%Q -> ms = truncateToMs s) /\
    hours (split_seconds s) = Qfloor s / 3600 /\
    minutes (split_seconds s) = (Qfloor s mod 3600) / 60 /\
    secs (split_seconds s) = Qfloor s mod 60 /\
    ms = Qfloor s * 1000 + millisecs (split_seconds s).
Proof.
  intros Hb Hd. eexists. exact (roundtrip_fields s Hb Hd).
Qed.

Lemma in_day_0_009 : in_day float_0_009.
Proof. split; vm_compute; discriminate. Qed.

Lemma in_day_1_115 : in_day float_1_115.
Proof. split; vm_compute; discriminate. Qed.

Lemma C1_roundtrip_within_one_ms_witness :
  exists ms : Z,
    parseTimecode "." (_seconds_to_vtt_time float_1_115) = Some ms /\
    parseTimecode "," (_seconds_to_srt_time float_1_115) = Some ms /\
    truncateToMs float_1_115 <= ms <= truncateToMs float_1_115 + 1 /\
    0 <= millisecs (split_seconds float_1_115) <= 999 /\
    ((mul (mod_ float_1_115 1) 1000 == ms_product float_1_115)%Q ->
     ms = truncateToMs float_1_115) /\
    hours (split_seconds float_1_115) = Qfloor float_1_115 / 3600 /\
    minutes (split_seconds float_1_115) = (Qfloor float_1_115 mod 3600) / 60 /\
    secs (split_seconds float_1_115) = Qfloor float_1_115 mod 60 /\
    ms = Qfloor float_1_115 * 1000 + millisecs (split_seconds float_1_115).
Proof.
  apply (C1_roundtrip_within_one_ms float_1_115).
  - apply binary64_of_bits; lia.
  - split; vm_compute; discriminate.
Defined.

(** C1, counterexample.  The identity with the truncation fails however
    the truncation is computed.  At the binary64 value of 0.009 both
    converters print millisecond 009 although the instant holds only 8
    whole milliseconds; at the binary64 value of 1.115 they print
    01.114 although [floor(s * 1000)], evaluated in binary64 as a test
    would, is 1115. *)
Lemma C1_roundtrip_counterexample :
  (binary64 float_0_009 /\ in_day float_0_009 /\
   _seconds_to_vtt_time float_0_009 = "00:00:00.009" /\
   _seconds_to_srt_time float_0_009 = "00:00:00,009" /\
   parseTimecode "." (_seconds_to_vtt_time float_0_009) = Some 9 /\
   parseTimecode "," (_seconds_to_srt_time float_0_009) = Some 9 /\
   truncateToMs float_0_009 = 8) /\
  (binary64 float_1_115 /\ in_day float_1_115 /\
   _seconds_to_vtt_time float_1_115 = "00:00:01.114" /\
   _seconds_to_srt_time float_1_115 = "00:00:01,114" /\
   parseTimecode "." (_seconds_to_vtt_time float_1_115) = Some 1114 /\
   parseTimecode "," (_seconds_to_srt_time float_1_115) = Some 1114 /\
   truncateToMs_float float_1_115 = 1115).
Proof.
  split.
  - split; [apply binary64_of_bits; lia|]. split; [exact in_day_0_009|].
    repeat split; vm_compute; reflexivity.
  - split; [apply binary64_of_bits; lia|]. split; [exact in_day_1_115|].
    repeat split; vm_compute; reflexivity.
Qed.

End TimecodeRoundTrip.

(** ** Subtitle documents *)
Section SubtitleFacts.
Import PyFloat PyFormat Timecode Subtitle.

Lemma append_assoc (a b c : string) : (a ++ b) ++ c = a ++ (b ++ c).
Proof.
  induction a as [|x a IH]; [reflexivity|].
  rewrite !append_String, IH. reflexivity.
Qed.

Lemma append_empty_l (a : string) : "" ++ a = a.
Proof. reflexivity. Qed.

Lemma append_empty_r (a : string) : a ++ "" = a.
Proof.
  induction a as [|x a IH]; [reflexivity|].
  rewrite append_String, IH. reflexivity.
Qed.

Lemma join_cons (b : string) (bs : list string) : join (b :: bs) = b ++ join bs.
Proof. reflexivity. Qed.

(** The Format A loop, started from any accumulator. *)
Lemma vtt_loop (segments : list segment) (acc : string) :
  fold_left
    (fun vtt_content segment =>
       let start_time := _seconds_to_vtt_time (seg_start segment) in
       let end_time := _seconds_to_vtt_time (seg_end segment) in
       let vtt_content := vtt_content ++ (start_time ++ " --> " ++ end_time ++ nl) in
       vtt_content ++ (seg_text segment ++ nl ++ nl))
    segments acc
  = acc ++ join (map vtt_block segments).
Proof.
  revert acc. induction segments as [|s segments IH]; intros acc.
  - simpl. rewrite append_empty_r. reflexivity.
  - cbn [fold_left map]. rewrite IH, join_cons. unfold vtt_block.
    rewrite !append_assoc. reflexivity.
Qed.

Lemma srt_loop (segments : list segment) (start : Z) (acc : string) :
  fold_left
    (fun srt_content '(i, segment) =>
       let start_time := _seconds_to_srt_time (seg_start segment) in
       let end_time := _seconds_to_srt_time (seg_end segment) in
       let srt_content := srt_content ++ (str_int i ++ nl) in
       let srt_content := srt_content ++ (start_time ++ " --> " ++ end_time ++ nl) in
       srt_content ++ (seg_text segment ++ nl ++ nl))
    (enumerate start segments) acc
  = acc ++ join (srt_blocks start segments).
Proof.
  revert start acc. induction segments as [|s segments IH]; intros start acc.
  - simpl. rewrite append_empty_r. reflexivity.
  - unfold srt_blocks in *. cbn [enumerate fold_left map].
    rewrite IH, join_cons. unfold srt_block.
    rewrite !append_assoc. reflexivity.
Qed.

Lemma srt_blocks_length (start : Z) (segments : list segment) :
  length (srt_blocks start segments) = length segments.
Proof.
  unfold srt_blocks. revert start.
  induction segments as [|s segments IH]; intros start; simpl; [reflexivity|].
  rewrite IH. reflexivity.
Qed.

Lemma srt_blocks_lookup (start : Z) (segments : list segment) (n : nat) (s : segment) :
  segments !! n = Some s ->
  srt_blocks start segments !! n = Some (srt_block (start + Z.of_nat n) s).
Proof.
  unfold srt_blocks. revert start n.
  induction segments as [|s0 segments IH]; intros start n H; [discriminate|].
  destruct n as [|n]; simpl in *.
  - inversion H; subst. rewrite Z.add_0_r. reflexivity.
  - rewrite (IH (start + 1) n H). f_equal. f_equal. lia.
Qed.

Lemma digits_only_2 (n : Z) : 0 <= n < 100 -> digits_only 2 n = true.
Proof. apply (forall_below (digits_only 2) 100). vm_compute. reflexivity. Qed.

Lemma digits_only_3 (n : Z) : 0 <= n < 1000 -> digits_only 3 n = true.
Proof. apply (forall_below (digits_only 3) 1000). vm_compute. reflexivity. Qed.

Lemma digits_only_2_elim (n : Z) :
  digits_only 2 n = true ->
  exists a b, format_d 2 n = String a (String b "") /\
              is_digit a = true /\ is_digit b = true.
Proof.
  unfold digits_only. intros H. apply andb_prop in H as [L D].
  destruct (format_d 2 n) as [|a [|b [|c r]]]; try discriminate.
  exists a, b. simpl in D.
  apply andb_prop in D as [Da D]. apply andb_prop in D as [Db _]. auto.
Qed.

Lemma digits_only_3_elim (n : Z) :
  digits_only 3 n = true ->
  exists a b c, format_d 3 n = String a (String b (String c "")) /\
                is_digit a = true /\ is_digit b = true /\ is_digit c = true.
Proof.
  unfold digits_only. intros H. apply andb_prop in H as [L D].
  destruct (format_d 3 n) as [|a [|b [|c [|d r]]]]; try discriminate.
  exists a, b, c. simpl in D.
  apply andb_prop in D as [Da D]. apply andb_prop in D as [Db D].
  apply andb_prop in D as [Dc _]. auto.
Qed.

Lemma render_is_timecode (sep : ascii) (f : fields) :
  0 <= hours f < 100 -> 0 <= minutes f < 60 -> 0 <= secs f < 60 ->
  0 <= millisecs f < 1000 ->
  is_timecode sep (render (String sep "") f) = true.
Proof.
  intros Hh Hm Hs Hx. unfold render.
  destruct (digits_only_2_elim _ (digits_only_2 (hours f) Hh)) as (h1 & h2 & -> & A1 & A2).
  destruct (digits_only_2_elim _ (digits_only_2 (minutes f) ltac:(lia))) as (m1 & m2 & -> & B1 & B2).
  destruct (digits_only_2_elim _ (digits_only_2 (secs f) ltac:(lia))) as (s1 & s2 & -> & C1 & C2).
  destruct (digits_only_3_elim _ (digits_only_3 (millisecs f) Hx)) as (x1 & x2 & x3 & -> & D1 & D2 & D3).
  repeat (rewrite append_String || rewrite append_empty_l). cbn [is_timecode].
  rewrite A1, A2, B1, B2, C1, C2, D1, D2, D3, !Ascii.eqb_refl. reflexivity.
Qed.

Lemma timecodes_well_formed (s : Q) :
  below_100_hours s ->
  is_timecode "." (_seconds_to_vtt_time s) = true /\
  is_timecode "," (_seconds_to_srt_time s) = true.
Proof.
  intros (Hb & H0 & H1).
  pose proof (split_seconds_fields s H0) as HF. cbv zeta in HF.
  destruct HF as (Fh & Fm & Fs).
  pose proof (millisecs_bounds s Hb H0) as HM. cbv zeta in HM.
  destruct HM as [[_ Hr] _].
  pose proof (Qfloor_nonneg s H0) as F0.
  assert (Qfloor s < 360000)%Z as F1.
  { rewrite Zlt_Qlt. pose proof (Qfloor_le s).
    change (inject_Z 360000) with 360000%Q. lra. }
  set (F := Qfloor s) in *.
  pose proof (Z.mod_pos_bound F 3600 ltac:(lia)).
  pose proof (Z.mod_pos_bound F 60 ltac:(lia)).
  assert (0 <= F / 3600 < 100)%Z
    by (split; [apply Z.div_pos; lia | apply Z.div_lt_upper_bound; lia]).
  assert (0 <= F mod 3600 / 60 < 60)%Z
    by (split; [apply Z.div_pos; lia | apply Z.div_lt_upper_bound; lia]).
  split; apply render_is_timecode; rewrite ?Fh, ?Fm, ?Fs; lia.
Qed.

(** The index line of the [n]-th block, counted from 0, is the decimal
    numeral of [n + 1] as the Standard Library prints it. *)
Lemma str_int_index (n : nat) :
  str_int (Z.of_nat n + 1) = NilEmpty.string_of_uint (N.to_uint (N.of_nat (S n))).
Proof.
  unfold str_int, format_d, zfill, digits.
  replace (Z.of_nat n + 1)%Z with (Z.of_N (N.of_nat (S n))) by lia.
  destruct (Z.ltb_spec (Z.of_N (N.of_nat (S n))) 0) as [L|_]; [lia|].
  rewrite N2Z.id. reflexivity.
Qed.

(** C5, as amended.  The Format A document is the header line
    [WEBVTT], a blank line, and one block per segment, in order, each
    being the time-code range line, the text line and a blank line, with
    no index line.  The Format B document is one block per segment, the
    [n]-th (counting from 1) opening with the line of the decimal numeral
    of [n], followed by the range line with commas, the text line and a
    blank line.  For instants from 0 up to 100 hours the time codes have
    the shapes [HH:MM:SS.mmm] and [HH:MM:SS,mmm]. *)
Theorem C5_rendering_structure (segments : list segment) :
  (_generate_vtt_content segments = "WEBVTT" ++ nl ++ nl ++ join (map vtt_block segments) /\
   length (map vtt_block segments) = length segments /\
   forall (n : nat) (s : segment),
     segments !! n = Some s ->
     map vtt_block segments !! n =
     Some (_seconds_to_vtt_time (seg_start s) ++ " --> " ++
           _seconds_to_vtt_time (seg_end s) ++ nl ++
           seg_text s ++ nl ++ nl)) /\
  (_generate_srt_content segments = join (srt_blocks 1 segments) /\
   length (srt_blocks 1 segments) = length segments /\
   forall (n : nat) (s : segment),
     segments !! n = Some s ->
     srt_blocks 1 segments !! n =
     Some (NilEmpty.string_of_uint (N.to_uint (N.of_nat (S n))) ++ nl ++
           _seconds_to_srt_time (seg_start s) ++ " --> " ++
           _seconds_to_srt_time (seg_end s) ++ nl ++
           seg_text s ++ nl ++ nl)) /\
  (forall s : segment,
     s ∈ segments -> two_digit_hours s ->
     is_timecode "." (_seconds_to_vtt_time (seg_start s)) = true /\
     is_timecode "." (_seconds_to_vtt_time (seg_end s)) = true /\
     is_timecode "," (_seconds_to_srt_time (seg_start s)) = true /\
     is_timecode "," (_seconds_to_srt_time (seg_end s)) = true).
Proof.
  split; [|split].
  - split; [|split; [apply length_map|]].
    + unfold _generate_vtt_content. rewrite vtt_loop, !append_assoc. reflexivity.
    + intros n s H. rewrite list_lookup_fmap, H. reflexivity.
  - split; [|split].
    + unfold _generate_srt_content. rewrite srt_loop. reflexivity.
    + apply srt_blocks_length.
    + intros n s H. rewrite (srt_blocks_lookup 1 segments n s H).
      unfold srt_block. replace (1 + Z.of_nat n)%Z with (Z.of_nat n + 1)%Z by lia.
      rewrite str_int_index. reflexivity.
  - intros s _ [B1 B2].
    destruct (timecodes_well_formed _ B1) as [? ?].
    destruct (timecodes_well_formed _ B2) as [? ?]. auto.
Qed.

End SubtitleFacts.

(** ** File Correlator *)
Section CorrelatorFacts.
Import Py Correlator.

Lemma quiet_cons (x : dir_entry) (listing : list dir_entry) :
  quiet (x :: listing) <-> entry_raises x = false /\ quiet listing.
Proof.
  unfold quiet. split.
  - intros H. inversion H; subst. auto.
  - intros [H Q]. constructor; assumption.
Qed.

Lemma quiet_app (a b : list dir_entry) : quiet (a ++ b) <-> quiet a /\ quiet b.
Proof. unfold quiet. apply Forall_app. Qed.

Lemma first_match_None (test : dir_entry -> bool) (listing : list dir_entry) :
  first_match test listing = Returned None <->
  quiet listing /\ forall e, e ∈ listing -> test e = false.
Proof.
  induction listing as [|x l IH]; simpl.
  - split; [|reflexivity]. intros _. split; [constructor|]. intros e He. inversion He.
  - rewrite quiet_cons. destruct (entry_raises x) eqn:Rx.
    + split; [discriminate|]. intros [[? _] _]. discriminate.
    + destruct (test x) eqn:Tx.
      * split; [discriminate|]. intros [_ H].
        rewrite (H x) in Tx by (left; reflexivity). discriminate.
      * rewrite IH. split.
        -- intros [Q H]. split; [auto|].
           intros e He. apply elem_of_cons in He as [->|He]; auto.
        -- intros [[_ Q] H]. split; [exact Q|]. intros e He. apply H. right. exact He.
Qed.

(** The loop returns the earliest entry that passes the test, when no
    entry up to it makes [is_file()] raise. *)
Lemma first_match_Some (test : dir_entry -> bool) (listing : list dir_entry)
    (e : dir_entry) :
  first_match test listing = Returned (Some e) <->
  exists before after,
    listing = (before ++ e :: after)%list /\ test e = true /\
    entry_raises e = false /\ quiet before /\
    forall x, x ∈ before -> test x = false.
Proof.
  induction listing as [|x l IH]; simpl.
  - split; [discriminate|]. intros (b & a & H & _). destruct b; discriminate.
  - destruct (entry_raises x) eqn:Rx.
    + split; [discriminate|]. intros (b & a & H & Te & Re & Qb & Hb).
      destruct b as [|y b]; simpl in H; injection H as <- _.
      * congruence.
      * apply quiet_cons in Qb as [Ry _]. congruence.
    + destruct (test x) eqn:Tx.
      * split.
        -- intros [= <-]. exists [], l. split; [reflexivity|]. split; [exact Tx|].
           split; [exact Rx|]. split; [constructor|]. intros y Hy. inversion Hy.
        -- intros (b & a & H & Te & Re & Qb & Hb). destruct b as [|y b].
           ++ simpl in H. congruence.
           ++ simpl in H. injection H as <- _.
              rewrite (Hb x) in Tx by (left; reflexivity). discriminate.
      * rewrite IH. split.
        -- intros (b & a & -> & Te & Re & Qb & Hb). exists (x :: b), a.
           split; [reflexivity|]. split; [exact Te|]. split; [exact Re|].
           split; [apply quiet_cons; auto|].
           intros y Hy. apply elem_of_cons in Hy as [->|Hy]; auto.
        -- intros (b & a & H & Te & Re & Qb & Hb). destruct b as [|y b].
           ++ simpl in H. injection H as -> _. congruence.
           ++ simpl in H. injection H as <- ->. exists b, a.
              apply quiet_cons in Qb as [_ Qb].
              split; [reflexivity|]. split; [exact Te|]. split; [exact Re|].
              split; [exact Qb|]. intros z Hz. apply Hb. right. exact Hz.
Qed.

(** The loop ends with the exception of the earliest entry on which
    [is_file()] raises, when no entry before it passes the test. *)
Lemma first_match_Raised (test : dir_entry -> bool) (listing : list dir_entry) :
  (exists what, first_match test listing = Raised what) <->
  exists before e after,
    listing = (before ++ e :: after)%list /\ entry_raises e = true /\
    quiet before /\ forall x, x ∈ before -> test x = false.
Proof.
  induction listing as [|x l IH]; simpl.
  - split; [intros [what H]; discriminate|].
    intros (b & e & a & H & _). destruct b; discriminate.
  - destruct (entry_raises x) eqn:Rx.
    + split; [|eauto]. intros _. exists [], x, l.
      split; [reflexivity|]. split; [exact Rx|]. split; [constructor|].
      intros y Hy. inversion Hy.
    + destruct (test x) eqn:Tx.
      * split; [intros [what H]; discriminate|].
        intros (b & e & a & H & Re & Qb & Hb). destruct b as [|y b].
        -- simpl in H. injection H as -> _. congruence.
        -- simpl in H. injection H as <- _.
           rewrite (Hb x) in Tx by (left; reflexivity). discriminate.
      * rewrite IH. split.
        -- intros (b & e & a & -> & Re & Qb & Hb). exists (x :: b), e, a.
           split; [reflexivity|]. split; [exact Re|].
           split; [apply quiet_cons; auto|].
           intros y Hy. apply elem_of_cons in Hy as [->|Hy]; auto.
        -- intros (b & e & a & H & Re & Qb & Hb). destruct b as [|y b].
           ++ simpl in H. injection H as -> _. congruence.
           ++ simpl in H. injection H as <- ->. exists b, e, a.
              apply quiet_cons in Qb as [_ Qb].
              split; [reflexivity|]. split; [exact Re|]. split; [exact Qb|].
              intros z Hz. apply Hb. right. exact Hz.
Qed.

(** On a listing without raising entries the loop is the plain search
    for the earliest entry that passes the test. *)
Lemma first_match_quiet (test : dir_entry -> bool) (listing : list dir_entry) :
  quiet listing ->
  first_match test listing = Returned (List.find test listing).
Proof.
  induction listing as [|x l IH]; intros Q; [reflexivity|].
  apply quiet_cons in Q as [Rx Q]. simpl. rewrite Rx.
  destruct (test x); [reflexivity|]. apply IH, Q.
Qed.

Lemma exact_test_spec (file_id : string) (e : dir_entry) :
  exact_test file_id e = true <->
  entry_is_file e = true /\ stem (entry_name e) = file_id.
Proof.
  unfold exact_test. rewrite andb_true_iff, String.eqb_eq. reflexivity.
Qed.

Lemma prefix_test_spec (file_id : string) (e : dir_entry) :
  prefix_test file_id e = true <->
  entry_is_file e = true /\ String.prefix file_id (stem (entry_name e)) = true.
Proof. unfold prefix_test. apply andb_true_iff. Qed.

(** C6, as amended.  On a listing none of whose entries makes
    [is_file()] raise: whenever the listing holds a regular file whose
    stem equals the identifier, the path of the earliest such file is
    returned, whatever prefix-matching files precede or follow it; when
    there is none, the path of the earliest regular file whose stem
    starts with the identifier is returned; when there is none of those
    either, the result is [None].  The path returned is the folder, a
    slash and the name of the file.  An exact match is returned as well
    when only the entries up to it are free of exceptions.  When
    [is_file()] raises on an entry and no entry before it has a stem
    equal to the identifier, the result is [None], whatever follows. *)
Theorem C6_exact_match_priority (temp_folder : string)
    (listing : list dir_entry) (file_id : string) :
  (quiet listing ->
   ((exists e, e ∈ listing /\ entry_is_file e = true /\ stem (entry_name e) = file_id) ->
    exists before e after,
      listing = (before ++ e :: after)%list /\
      entry_is_file e = true /\ stem (entry_name e) = file_id /\
      (forall x, x ∈ before -> exact_test file_id x = false) /\
      find_file_by_id temp_folder listing file_id =
      Some (temp_folder ++ "/" ++ entry_name e)) /\
   ((forall e, e ∈ listing -> exact_test file_id e = false) ->
    (exists e, e ∈ listing /\ prefix_test file_id e = true) ->
    exists before e after,
      listing = (before ++ e :: after)%list /\
      entry_is_file e = true /\
      String.prefix file_id (stem (entry_name e)) = true /\
      (forall x, x ∈ before -> prefix_test file_id x = false) /\
      find_file_by_id temp_folder listing file_id =
      Some (temp_folder ++ "/" ++ entry_name e)) /\
   ((forall e, e ∈ listing -> exact_test file_id e = false) ->
    (forall e, e ∈ listing -> prefix_test file_id e = false) ->
    find_file_by_id temp_folder listing file_id = None)) /\
  (forall before e after,
     listing = (before ++ e :: after)%list ->
     quiet before -> entry_raises e = false ->
     entry_is_file e = true -> stem (entry_name e) = file_id ->
     (forall x, x ∈ before -> exact_test file_id x = false) ->
     find_file_by_id temp_folder listing file_id =
     Some (temp_folder ++ "/" ++ entry_name e)) /\
  (forall before e after,
     listing = (before ++ e :: after)%list ->
     entry_raises e = true -> quiet before ->
     (forall x, x ∈ before -> exact_test file_id x = false) ->
     find_file_by_id temp_folder listing file_id = None).
Proof.
  unfold find_file_by_id, find_file_by_id_try, entry_path. split; [|split].
  - intros Q. split; [|split].
    + intros (e0 & He0 & Hf & Hs).
      destruct (first_match (exact_test file_id) listing) as [[e|]|what] eqn:M.
      * apply first_match_Some in M as (b & a & -> & Te & _ & _ & Hb).
        apply exact_test_spec in Te as [Tf Ts].
        exists b, e, a. auto.
      * apply first_match_None in M as [_ M].
        assert (exact_test file_id e0 = true) as T by (apply exact_test_spec; auto).
        rewrite (M e0 He0) in T. discriminate.
      * rewrite (first_match_quiet _ _ Q) in M. discriminate.
    + intros Hno (e0 & He0 & Hp).
      rewrite (proj2 (first_match_None _ _) (conj Q Hno)).
      destruct (first_match (prefix_test file_id) listing) as [[e|]|what] eqn:M.
      * apply first_match_Some in M as (b & a & -> & Te & _ & _ & Hb).
        apply prefix_test_spec in Te as [Tf Tp].
        exists b, e, a. auto.
      * apply first_match_None in M as [_ M]. rewrite (M e0 He0) in Hp. discriminate.
      * rewrite (first_match_quiet _ _ Q) in M. discriminate.
    + intros Hno Hnp.
      rewrite (proj2 (first_match_None _ _) (conj Q Hno)).
      rewrite (proj2 (first_match_None _ _) (conj Q Hnp)). reflexivity.
  - intros b e a -> Qb Re Hf Hs Hb.
    rewrite (proj2 (first_match_Some (exact_test file_id) _ e)); [reflexivity|].
    exists b, a. split; [reflexivity|]. split; [apply exact_test_spec; auto|]. auto.
  - intros b e a -> Re Qb Hb.
    destruct (proj2 (first_match_Raised (exact_test file_id) (b ++ e :: a)))
      as [what ->]; [|reflexivity].
    exists b, e, a. auto.
Qed.

End CorrelatorFacts.

(** ** Model Runtime *)
Section RuntimeFacts.
Import Py Runtime.

Lemma save_config_keeps (e : env) (st : state) :
  current_model (_save_config e st) = current_model st /\
  current_model_name (_save_config e st) = current_model_name st /\
  SUBTITLE_OUTPUT_FORMAT (_save_config e st) = SUBTITLE_OUTPUT_FORMAT st /\
  constructor_log (_save_config e st) = constructor_log st /\
  write_attempts (_save_config e st) = S (write_attempts st).
Proof.
  unfold _save_config, _save_config_try. destruct (config_write_ok e (write_attempts st)); simpl; auto.
Qed.

(** What a successful write leaves on disk. *)
Lemma save_config_written (e : env) (st : state) :
  config_write_ok e (write_attempts st) = true ->
  exists config,
    model_config_file (_save_config e st) = JsonObject config /\
    config !! "current_model" = Some (current_model_name st) /\
    config !! "subtitle_output_format" = Some (SUBTITLE_OUTPUT_FORMAT st).
Proof.
  intros H. unfold _save_config, _save_config_try. rewrite H. eexists. split; [reflexivity|].
  split; [apply lookup_insert_eq|].
  rewrite lookup_insert_ne by discriminate. apply lookup_insert_eq.
Qed.

Lemma load_model_cases (e : env) (model_name : string) (st : state) :
  load_case e model_name st
    (fst (_load_model e model_name st)) (snd (_load_model e model_name st)).
Proof.
  unfold _load_model, _load_model_try.
  destruct (WhisperModel e) as [construct|] eqn:W; [|apply load_skipped; auto].
  destruct (resident st) eqn:R; simpl.
  - destruct (String.eqb_spec (current_model_name st) model_name) as [E|N]; simpl.
    + apply load_skipped. auto.
    + destruct (local_model_present e model_name).
      * destruct (construct _ _) as [h|]; simpl.
        -- apply (load_built e model_name st _ h). congruence.
        -- apply load_raised. congruence.
      * destruct (model_dir_mkdir_ok e); simpl; [|apply load_mkdir_failed; congruence].
        destruct (construct _ _) as [h|]; simpl.
        -- apply (load_built e model_name st _ h). congruence.
        -- apply load_raised. congruence.
  - destruct (local_model_present e model_name).
    + destruct (construct _ _) as [h|]; simpl.
      * apply (load_built e model_name st _ h). congruence.
      * apply load_raised. congruence.
    + destruct (model_dir_mkdir_ok e); simpl; [|apply load_mkdir_failed; congruence].
      destruct (construct _ _) as [h|]; simpl.
      * apply (load_built e model_name st _ h). congruence.
      * apply load_raised. congruence.
Qed.

Lemma loaded_fields (e : env) (model_name : string) (src : model_source) (h : handle)
    (st : state) :
  current_model (loaded e model_name src h st) = Some h /\
  current_model_name (loaded e model_name src h st) = model_name /\
  constructor_log (loaded e model_name src h st) = (constructor_log st ++ [(src, true)])%list /\
  write_attempts (loaded e model_name src h st) = S (write_attempts st).
Proof.
  unfold loaded.
  destruct (save_config_keeps e
    (set_model_name model_name (set_model h (log_constructor_call src true st))))
    as (-> & -> & _ & -> & ->).
  simpl. auto.
Qed.

(** The idempotent path: nothing happens when the model is resident. *)
Lemma load_model_resident (e : env) (model_name : string) (st : state) :
  resident st = true -> current_model_name st = model_name ->
  _load_model e model_name st = (true, st).
Proof.
  intros R N. unfold _load_model, _load_model_try.
  destruct (WhisperModel e); [|reflexivity].
  rewrite R, N, String.eqb_refl. reflexivity.
Qed.

Lemma load_model_degraded (e : env) (model_name : string) (st : state) :
  WhisperModel e = None -> _load_model e model_name st = (true, st).
Proof.
  intros W. unfold _load_model, _load_model_try. rewrite W. reflexivity.
Qed.

Lemma models_built_log (src : model_source) (b : bool) (st : state) :
  models_built (log_constructor_call src b st) =
  (models_built st + if b then 1 else 0)%nat.
Proof.
  unfold models_built, log_constructor_call. simpl.
  rewrite filter_app, length_app.
  destruct b; simpl; reflexivity.
Qed.

(** Probes across one load: at most one constructor call, at most one
    model built, and none of either when the load is skipped. *)
Lemma load_model_counts (e : env) (model_name : string) (st : state) :
  let st' := snd (_load_model e model_name st) in
  (constructor_calls st <= constructor_calls st' <= constructor_calls st + 1)%nat /\
  (models_built st <= models_built st' <= models_built st + 1)%nat /\
  (models_built st' - models_built st <= constructor_calls st' - constructor_calls st)%nat.
Proof.
  intros st'. subst st'.
  destruct (load_model_cases e model_name st) as [H|H|src H|src h H].
  - lia.
  - lia.
  - rewrite models_built_log. unfold constructor_calls, log_constructor_call; simpl.
    rewrite length_app; simpl. lia.
  - unfold models_built, constructor_calls.
    destruct (loaded_fields e model_name src h st) as (_ & _ & -> & _).
    rewrite filter_app, !length_app. simpl. lia.
Qed.

(** After a load that reports success with the backend installed, the
    model is resident under the requested name. *)
Lemma load_model_success (e : env) (model_name : string) (st : state) :
  WhisperModel e <> None ->
  fst (_load_model e model_name st) = true ->
  let st' := snd (_load_model e model_name st) in
  resident st' = true /\ current_model_name st' = model_name.
Proof.
  intros W H st'. subst st'. revert H.
  destruct (load_model_cases e model_name st) as [[H|[R N]]|H|src H|src h H];
    intros K; try discriminate.
  - contradiction.
  - auto.
  - destruct (loaded_fields e model_name src h st) as (Hm & Hn & _).
    unfold resident. rewrite Hm. auto.
Qed.

(** A successful switch to another model costs exactly one constructor
    call and builds exactly one model. *)
Lemma load_model_switch (e : env) (model_name : string) (st : state) :
  WhisperModel e <> None ->
  current_model_name st <> model_name ->
  fst (_load_model e model_name st) = true ->
  let st' := snd (_load_model e model_name st) in
  constructor_calls st' = S (constructor_calls st) /\
  models_built st' = S (models_built st) /\
  current_model_name st' = model_name /\ resident st' = true.
Proof.
  intros W N H st'. subst st'. revert H.
  destruct (load_model_cases e model_name st) as [[H|[R N']]|H|src H|src h H];
    intros K; try discriminate; try contradiction.
  destruct (loaded_fields e model_name src h st) as (Hm & Hn & Hl & _).
  unfold constructor_calls, models_built, resident. rewrite Hm, Hn, Hl.
  rewrite filter_app, !length_app. simpl. repeat split; lia.
Qed.

(** A load that fails changes nothing but the probe. *)
Lemma load_model_failure_keeps (e : env) (model_name : string) (st : state) :
  fst (_load_model e model_name st) = false ->
  let st' := snd (_load_model e model_name st) in
  current_model st' = current_model st /\
  current_model_name st' = current_model_name st /\
  SUBTITLE_OUTPUT_FORMAT st' = SUBTITLE_OUTPUT_FORMAT st /\
  model_config_file st' = model_config_file st.
Proof.
  intros H st'. subst st'. revert H.
  destruct (load_model_cases e model_name st) as [K|K|src K|src h K];
    intros F; try discriminate; simpl; auto.
Qed.

(** A construction that raised is attempted again by the next load of
    the same identifier. *)
Lemma load_model_retried (e : env) (model_name : string) (st : state) :
  fst (_load_model e model_name st) = false ->
  constructor_calls (snd (_load_model e model_name st)) = S (constructor_calls st) ->
  constructor_calls (snd (_load_model e model_name (snd (_load_model e model_name st)))) =
  (constructor_calls st + 2)%nat.
Proof.
  unfold _load_model, _load_model_try.
  destruct (WhisperModel e) as [construct|]; [|discriminate].
  destruct (resident st && String.eqb (current_model_name st) model_name)%bool eqn:Skip;
    [discriminate|].
  assert (forall src,
            (resident (log_constructor_call src false st) &&
             String.eqb (current_model_name (log_constructor_call src false st)) model_name)%bool
            = false) as Skip' by (intros src; exact Skip).
  assert (forall src b st0,
            constructor_calls (log_constructor_call src b st0) = S (constructor_calls st0))
    as Log.
  { intros src b st0. unfold constructor_calls, log_constructor_call. simpl.
    rewrite length_app. simpl. lia. }
  assert (forall st0, constructor_calls (_save_config e st0) = constructor_calls st0) as Sav.
  { intros st0. unfold constructor_calls.
    destruct (save_config_keeps e st0) as (_ & _ & _ & -> & _). reflexivity. }
  destruct (local_model_present e model_name).
  - destruct (construct (constructor_calls st) (LocalDirectory model_name)) as [h|];
      [discriminate|]. cbn [fst snd]. intros _ _. rewrite Skip'.
    destruct (construct _ _) as [h|]; cbn [snd].
    + rewrite Sav. unfold constructor_calls. simpl. rewrite !length_app. simpl. lia.
    + rewrite !Log. lia.
  - destruct (model_dir_mkdir_ok e).
    + destruct (construct (constructor_calls st) (Download model_name)) as [h|];
        [discriminate|]. cbn [fst snd]. intros _ _. rewrite Skip'.
      destruct (construct _ _) as [h|]; cbn [snd].
      * rewrite Sav. unfold constructor_calls. simpl. rewrite !length_app. simpl. lia.
      * rewrite !Log. lia.
    + cbn [fst snd]. intros _ H. lia.
Qed.

(** C2, as amended.  Two loads of the same identifier in a row build at
    most one model and call the constructor at most twice.  A load is a
    no-op returning success when the identifier is current and a handle
    is resident, and this is the state a load that reports success
    leaves, so the second call then neither calls the constructor nor
    changes anything: the constructor is called once at most.  A load
    that fails builds nothing and leaves the handle and the identifier
    as they were; if its construction raised, the second call constructs
    again, which makes two constructor calls.  Starting with ["base"]
    loaded, the loads of ["base"], ["large-v3-turbo"] and ["base"] again
    call the constructor at most twice, and exactly twice when both
    switches succeed.  A transcription call that asks for the resident
    model, or for none, does not load at all. *)
Theorem C2_load_idempotence (e : env) (st : state) :
  (forall model_name : string,
     let r1 := fst (_load_model e model_name st) in
     let st1 := snd (_load_model e model_name st) in
     let r2 := fst (_load_model e model_name st1) in
     let st2 := snd (_load_model e model_name st1) in
     (models_built st2 <= models_built st + 1)%nat /\
     (constructor_calls st2 <= constructor_calls st + 2)%nat /\
     (resident st = true -> current_model_name st = model_name ->
      r1 = true /\ st1 = st) /\
     (r1 = true ->
      r2 = true /\ st2 = st1 /\
      (constructor_calls st2 <= constructor_calls st + 1)%nat) /\
     (r1 = false ->
      models_built st1 = models_built st /\
      current_model st1 = current_model st /\
      current_model_name st1 = current_model_name st /\
      (constructor_calls st1 = S (constructor_calls st) ->
       constructor_calls st2 = (constructor_calls st + 2)%nat))) /\
  (resident st = true -> current_model_name st = "base" ->
   let st1 := snd (_load_model e "base" st) in
   let st2 := snd (_load_model e "large-v3-turbo" st1) in
   let st3 := snd (_load_model e "base" st2) in
   (constructor_calls st3 <= constructor_calls st + 2)%nat /\
   (WhisperModel e <> None ->
    fst (_load_model e "large-v3-turbo" st1) = true ->
    fst (_load_model e "base" st2) = true ->
    constructor_calls st3 = (constructor_calls st + 2)%nat /\
    models_built st3 = (models_built st + 2)%nat /\
    current_model_name st3 = "base")) /\
  (forall (call : Pipeline.env) (requested : option string) (w : Pipeline.world),
     Pipeline.service w = st ->
     resident st = true ->
     requested = None \/ requested = Some (current_model_name st) ->
     Pipeline.choose_model call requested w = (None, w)).
Proof.
  split; [|split].
  - intros model_name r1 st1 r2 st2. subst r1 st1 r2 st2.
    assert (fst (_load_model e model_name st) = true ->
            _load_model e model_name (snd (_load_model e model_name st)) =
            (true, snd (_load_model e model_name st))) as Again.
    { destruct (load_model_cases e model_name st) as [[H|[R N]]|H|src H|src h H];
        intros K; try discriminate.
      - apply load_model_degraded. exact H.
      - apply load_model_resident; assumption.
      - destruct (loaded_fields e model_name src h st) as (Hm & Hn & _).
        apply load_model_resident; [unfold resident; rewrite Hm; reflexivity|exact Hn]. }
    assert (fst (_load_model e model_name st) = false ->
            models_built (snd (_load_model e model_name st)) = models_built st) as Same.
    { destruct (load_model_cases e model_name st) as [H|H|src H|src h H];
        intros K; try discriminate; [reflexivity|].
      rewrite models_built_log. lia. }
    pose proof (load_model_counts e model_name st) as C1. cbv zeta in C1.
    pose proof (load_model_counts e model_name (snd (_load_model e model_name st))) as C2.
    cbv zeta in C2.
    split_and!.
    + destruct (fst (_load_model e model_name st)) eqn:R1.
      * rewrite (Again eq_refl). simpl. lia.
      * specialize (Same eq_refl). lia.
    + lia.
    + intros R N. rewrite (load_model_resident e model_name st R N). auto.
    + intros R1. rewrite (Again R1). simpl. repeat split; lia.
    + intros R1.
      pose proof (load_model_failure_keeps e model_name st R1) as K. cbv zeta in K.
      destruct K as (K1 & K2 & _).
      split_and!; auto.
      apply load_model_retried. exact R1.
  - intros R N st1 st2 st3. subst st1 st2 st3.
    rewrite (load_model_resident e "base" st R N). simpl.
    split.
    + pose proof (load_model_counts e "large-v3-turbo" st) as C1.
      pose proof (load_model_counts e "base" (snd (_load_model e "large-v3-turbo" st))) as C2.
      cbv zeta in C1, C2. lia.
    + intros W H1 H2.
      assert (current_model_name st <> "large-v3-turbo") as D1 by (rewrite N; discriminate).
      pose proof (load_model_switch e "large-v3-turbo" st W D1 H1) as S1. cbv zeta in S1.
      destruct S1 as (A1 & B1 & N1 & _).
      assert (current_model_name (snd (_load_model e "large-v3-turbo" st)) <> "base") as D2
        by (rewrite N1; discriminate).
      pose proof (load_model_switch e "base" _ W D2 H2) as S2. cbv zeta in S2.
      destruct S2 as (A2 & B2 & N2 & _).
      repeat split; [lia|lia|exact N2].
  - intros call requested w <- R [->| ->]; unfold Pipeline.choose_model.
    + rewrite R. reflexivity.
    + rewrite String.eqb_refl, andb_false_r, R. reflexivity.
Qed.

(** C3.  A load that fails leaves the handle, the current identifier
    and the selection record as they were, and a construction that
    raises is such a load; [select_model] then answers with
    [success = False] and a message, as it does, without touching the
    state, for an identifier outside the registry. *)
Theorem C3_load_failure_atomicity (e : env) (model_name : string) (st : state) :
  (fst (_load_model e model_name st) = false ->
   let st' := snd (_load_model e model_name st) in
   current_model st' = current_model st /\
   current_model_name st' = current_model_name st /\
   SUBTITLE_OUTPUT_FORMAT st' = SUBTITLE_OUTPUT_FORMAT st /\
   model_config_file st' = model_config_file st /\
   (str_in model_name WHISPER_AVAILABLE_MODELS = true ->
    select_model e model_name st =
    ({| success := false;
        message := "模型加载失败: " ++ model_name;
        selected := None |}, st'))) /\
  (forall construct,
     WhisperModel e = Some construct ->
     (resident st && String.eqb (current_model_name st) model_name)%bool = false ->
     (forall src, construct (constructor_calls st) src = None) ->
     fst (_load_model e model_name st) = false) /\
  (str_in model_name WHISPER_AVAILABLE_MODELS = false ->
   select_model e model_name st =
   ({| success := false;
       message := "不支持的模型: " ++ model_name;
       selected := None |}, st)).
Proof.
  split; [|split].
  - intros H st'. subst st'.
    destruct (load_model_failure_keeps e model_name st H) as (A & B & C & D).
    repeat split; try assumption.
    intros In. unfold select_model. rewrite In. simpl.
    destruct (_load_model e model_name st) as [r st'] eqn:L. simpl in *.
    subst r. reflexivity.
  - intros construct W NR Hc. unfold _load_model, _load_model_try.
    rewrite W, NR.
    destruct (local_model_present e model_name).
    + rewrite Hc. reflexivity.
    + destruct (model_dir_mkdir_ok e); [rewrite Hc|]; reflexivity.
  - intros Out. unfold select_model. rewrite Out. reflexivity.
Qed.

(** A start resumes with the identifier the selection record names. *)
Lemma init_resumes (e : env) (initial_format : string)
    (config : gmap string string) (model_name : string) :
  config !! "current_model" = Some model_name ->
  current_model_name (init e initial_format (JsonObject config)) = model_name.
Proof.
  intros Hc. unfold init, _load_config. cbn [model_config_file].
  cbv zeta. unfold get. rewrite Hc.
  match goal with |- context [if ?c then _ else _] => destruct c end; reflexivity.
Qed.

(** C8, as amended.  With the recognition backend installed, a load
    that reports success leaves the requested identifier current with a
    handle resident.  Either the model was resident already and nothing
    changed, or a model was built and the selection record rewritten; if
    that write goes through, the record names the identifier and a start
    from it resumes with the identifier. *)
Theorem C8_load_success_selects (e : env) (model_name : string) (st : state) :
  WhisperModel e <> None ->
  fst (_load_model e model_name st) = true ->
  let st' := snd (_load_model e model_name st) in
  current_model_name st' = model_name /\ resident st' = true /\
  (st' = st \/
   (constructor_calls st' = S (constructor_calls st) /\
    write_attempts st' = S (write_attempts st) /\
    (config_write_ok e (write_attempts st) = true ->
     (exists config,
        model_config_file st' = JsonObject config /\
        config !! "current_model" = Some model_name) /\
     forall (e' : env) (initial_format : string),
       current_model_name (init e' initial_format (model_config_file st')) = model_name))).
Proof.
  intros W H st'. subst st'.
  destruct (load_model_success e model_name st W H) as [R N].
  split; [exact N|]. split; [exact R|].
  revert H.
  destruct (load_model_cases e model_name st) as [K|K|src K|src h K];
    intros F; try discriminate; [left; reflexivity|right].
  destruct (loaded_fields e model_name src h st) as (_ & _ & Hl & Hw).
  split; [unfold constructor_calls; rewrite Hl, length_app; simpl; lia|].
  split; [exact Hw|].
  intros Wok. unfold loaded.
  destruct (save_config_written e
    (set_model_name model_name (set_model h (log_constructor_call src true st))) Wok)
    as (config & Hf & Hc & _).
  simpl in Hc. split; [exists config; auto|].
  intros e' fmt. rewrite Hf. apply init_resumes. exact Hc.
Qed.

End RuntimeFacts.

(** ** Scratch-file cleanup *)
Section CleanupFacts.
Import Py Runtime Pipeline.















End CleanupFacts.

(** ** Audio Normalizer and the transcription call *)
Section PipelineFacts.
Import Py Runtime Pipeline.

Lemma exists_insert (fs : gmap path node) (p q : path) (n : node) :
  exists_ fs q = true -> exists_ (<[p := n]> fs) q = true.
Proof.
  unfold exists_. destruct (decide (p = q)) as [->|N].
  - rewrite lookup_insert_eq. reflexivity.
  - rewrite lookup_insert_ne by exact N. auto.
Qed.

Lemma exists_mkdir (fs : gmap path node) (d q : path) :
  exists_ fs q = true -> exists_ (mkdir d fs) q = true.
Proof.
  unfold mkdir. destruct (fs !! d); [auto|apply exists_insert].
Qed.

Lemma exists_write_opt (fs : gmap path node) (p q : path) (data : option string) :
  exists_ fs q = true -> exists_ (write_opt p data fs) q = true.
Proof. destruct data; simpl; [apply exists_insert|auto]. Qed.

Lemma temp_output_not_temp_dir (e : env) : temp_dir e <> temp_output e.
Proof.
  unfold temp_output. intros E. apply (f_equal length) in E.
  rewrite length_app in E. simpl in E. lia.
Qed.

(** *** What a load does on disk *)

Lemma exists_makedirs (fs : gmap path node) (d q : path) :
  exists_ fs q = true -> exists_ (makedirs d fs) q = true.
Proof.
  unfold makedirs. generalize (seq 1 (length d)). intros l. revert fs.
  induction l as [|n l IH]; intros fs H; simpl; [exact H|].
  apply IH, exists_mkdir, H.
Qed.

Lemma exists_write_below (fs : gmap path node) (root : path)
    (entries : list (path * node)) (q : path) :
  exists_ fs q = true -> exists_ (write_below root entries fs) q = true.
Proof.
  unfold write_below. revert fs.
  induction entries as [|[rel n] l IH]; intros fs H; simpl; [exact H|].
  apply IH, exists_insert, H.
Qed.

Lemma exists_save_config_disk (e : env) (st : state) (fs : gmap path node) (q : path) :
  exists_ fs q = true -> exists_ (_save_config_disk e st fs) q = true.
Proof.
  unfold _save_config_disk. destruct (config_write_ok _ _); [apply exists_insert|auto].
Qed.

(** A load removes nothing. *)
Lemma load_model_disk_keeps (e : env) (m : string) (st : state)
    (fs : gmap path node) (q : path) :
  exists_ fs q = true -> exists_ (_load_model_disk e m st fs) q = true.
Proof.
  intros H. unfold _load_model_disk.
  destruct (WhisperModel (runtime_env e)) as [construct|]; [|exact H].
  destruct (resident st && String.eqb (current_model_name st) m)%bool; [exact H|].
  destruct (local_model_present (runtime_env e) m).
  - destruct (construct _ _); [apply exists_save_config_disk|]; exact H.
  - destruct (model_dir_mkdir_ok (runtime_env e)); [|exact H].
    destruct (construct _ _); [apply exists_save_config_disk|];
      apply exists_write_below, exists_makedirs, H.
Qed.







(** Without the backend, and for the resident model, a load does
    nothing on disk. *)
Lemma load_model_world_skipped (e : env) (m : string) (w : world) :
  WhisperModel (runtime_env e) = None \/
  (resident (service w) = true /\ current_model_name (service w) = m) ->
  _load_model_world e m w = (true, w).
Proof.
  intros H. unfold _load_model_world, _load_model_disk.
  assert (_load_model (runtime_env e) m (service w) = (true, service w)) as ->.
  { destruct H as [H|[R N]];
      [apply load_model_degraded; exact H|apply load_model_resident; assumption]. }
  destruct w as [st f]. cbn [fst snd service fs] in *.
  destruct H as [->|[-> ->]]; [reflexivity|].
  destruct (WhisperModel (runtime_env e)); [|reflexivity].
  rewrite String.eqb_refl. reflexivity.
Qed.

(** The selection at the head of a transcription call either loads
    nothing, or is one load, passed exactly when that load reports
    success. *)
Lemma choose_model_shape (e : env) (model_name : option string) (w : world) :
  choose_model e model_name w = (None, w) \/
  exists m,
    snd (choose_model e model_name w) = snd (_load_model_world e m w) /\
    (fst (choose_model e model_name w) = None <->
     fst (_load_model (runtime_env e) m (service w)) = true).
Proof.
  unfold choose_model.
  destruct (match model_name with
            | Some m => (negb (String.eqb m "") &&
                         negb (String.eqb m (current_model_name (service w))))%bool
            | None => false
            end).
  - right. exists (default "" model_name). unfold _load_model_world.
    destruct (fst (_load_model (runtime_env e) (default "" model_name) (service w)));
      cbn [fst snd]; split; try reflexivity; split; try discriminate; reflexivity.
  - destruct (resident (service w)); cbn [negb]; [left; reflexivity|].
    right. exists (current_model_name (service w)). unfold _load_model_world.
    destruct (fst (_load_model (runtime_env e) (current_model_name (service w)) (service w)));
      cbn [fst snd]; split; try reflexivity; split; try discriminate; reflexivity.
Qed.

Lemma choose_model_keeps (e : env) (model_name : option string) (w : world) (q : path) :
  exists_ (fs w) q = true -> exists_ (fs (snd (choose_model e model_name w))) q = true.
Proof.
  intros H. destruct (choose_model_shape e model_name w) as [->|(m & -> & _)];
    [exact H|]. apply load_model_disk_keeps, H.
Qed.


(** *** The normalizer *)

(** What [_preprocess_audio] returns, and that it deletes nothing. *)
Lemma preprocess_audio_result (e : env) (input_path : path) (fs : gmap path node) :
  let r := _preprocess_audio e input_path fs in
  (fst r = input_path \/
   (fst r = temp_output e /\ exists_ (snd r) (temp_output e) = true)) /\
  (forall q, exists_ fs q = true -> exists_ (snd r) q = true).
Proof.
  unfold _preprocess_audio, _preprocess_audio_try.
  destruct (FFmpeg_installed e); simpl; [|auto].
  destruct (temp_mkdir_ok e); simpl; [|auto].
  destruct (ffmpeg_run e input_path (temp_output e)) as [partial|output]; simpl.
  - split; [auto|]. intros q Hq. apply exists_write_opt, exists_mkdir, Hq.
  - destruct (exists_ (write_opt (temp_output e) output (mkdir (temp_dir e) fs))
                (temp_output e)) eqn:X; simpl.
    + split; [auto|]. intros q Hq. apply exists_write_opt, exists_mkdir, Hq.
    + split; [auto|]. intros q Hq. apply exists_write_opt, exists_mkdir, Hq.
Qed.



(** *** The subtitle document *)

Lemma save_subtitle_file_keeps (e : env) (original : path)
    (segs : list Subtitle.segment) (w : world) :
  let r := _save_subtitle_file e original segs w in
  service (snd r) = service w /\
  (forall q, exists_ (fs w) q = true -> exists_ (fs (snd r)) q = true) /\
  (forall q, is_file (fs w !! q) = true -> is_file (fs (snd r) !! q) = true) /\
  (forall q, q <> subtitle_path e (service w) original -> fs (snd r) !! q = fs w !! q).
Proof.
  unfold _save_subtitle_file, _save_subtitle_file_try.
  assert (forall data,
            (forall q, exists_ (fs w) q = true ->
               exists_ (<[subtitle_path e (service w) original := File data]> (fs w)) q = true) /\
            (forall q, is_file (fs w !! q) = true ->
               is_file (<[subtitle_path e (service w) original := File data]> (fs w) !! q)
               = true) /\
            (forall q, q <> subtitle_path e (service w) original ->
               <[subtitle_path e (service w) original := File data]> (fs w) !! q = fs w !! q))
    as K.
  { intros data. split_and!.
    - intros q. apply exists_insert.
    - intros q Hq. destruct (decide (subtitle_path e (service w) original = q)) as [->|N].
      + rewrite lookup_insert_eq. reflexivity.
      + rewrite lookup_insert_ne by exact N. exact Hq.
    - intros q N. apply lookup_insert_ne. congruence. }
  destruct (subtitle_write_ok e _); simpl; [|auto].
  destruct (subtitle_write_cut e _) as [n|]; simpl; (split; [reflexivity|apply K]).
Qed.

(** *** The [try] block *)

(** The [try] block deletes nothing, and the variable
    [preprocessed_file] is unset or holds what the normalizer returned
    for the file system the model selection left. *)
Lemma extract_subtitle_try_shape (e : env) (file_path : path)
    (model_name : option string) (language : string) (w : world) :
  let r := extract_subtitle_try e file_path model_name language w in
  let w0 := snd (choose_model e model_name w) in
  service (snd r) = service w0 \/ exists_ (fs w) file_path = false.
Proof.
  unfold extract_subtitle_try.
  destruct (exists_ (fs w) file_path); cbn [negb]; [left|right; reflexivity].
  destruct (choose_model e model_name w) as [[msg|] w0]; cbn [snd fst]; [reflexivity|].
  destruct (WhisperModel (runtime_env e)) as [ctor|].
  - destruct (_preprocess_audio e file_path (fs w0)) as [p fs'].
    destruct (current_model (service (with_fs fs' w0))) as [model|]; [|reflexivity].
    destruct (transcribe e model p _) as [[raw info]|what]; [|reflexivity].
    destruct (collect raw) as [segs text].
    pose proof (save_subtitle_file_keeps e file_path segs (with_fs fs' w0)) as (K & _).
    destruct (_save_subtitle_file e file_path segs _) as [sf w2].
    exact K.
  - unfold _mock_extract_subtitle.
    pose proof (save_subtitle_file_keeps e file_path mock_segments w0) as (K & _).
    destruct (_save_subtitle_file e file_path mock_segments w0) as [sf w2].
    exact K.
Qed.


Lemma extract_subtitle_unfold (e : env) (file_path : path)
    (model_name : option string) (language : string) (w : world) :
  let r := extract_subtitle_try e file_path model_name language w in
  snd (extract_subtitle e file_path model_name language w) =
  extract_subtitle_finally e file_path (snd (fst r)) (snd r).
Proof.
  unfold extract_subtitle.
  destruct (extract_subtitle_try e file_path model_name language w) as [[res pf] w1].
  reflexivity.
Qed.

(** *** The [finally] clause *)

Lemma finally_service (e : env) (file_path : path) (pf : option path) (w1 : world) :
  service (extract_subtitle_finally e file_path pf w1) = service w1.
Proof.
  unfold extract_subtitle_finally. destruct pf as [p|]; [|reflexivity].
  destruct (negb (path_eqb p []) && negb (path_eqb p file_path))%bool; reflexivity.
Qed.

Lemma finally_skipped (e : env) (file_path : path) (pf : option path) (w1 : world) :
  pf = None \/ pf = Some file_path ->
  extract_subtitle_finally e file_path pf w1 = w1.
Proof.
  unfold extract_subtitle_finally, path_eqb. intros [->| ->]; [reflexivity|].
  rewrite (bool_decide_eq_true_2 (file_path = file_path) eq_refl), andb_false_r.
  reflexivity.
Qed.



(** C4.  [_preprocess_audio] returns its input path, raising nothing,
    when FFmpeg is not installed, when the Temp directory cannot be made,
    when the run of the tool raises, and when the run completes without
    an output file; in the first two cases it leaves the file system as
    it was.  The transcription call then goes on with the original file:
    it hands the input path to the recognition, answers with the
    transcript of what that recognition returns, removes no file, and
    fails only when the recognition itself raises, with its message. *)
Theorem C4_normalizer_degrades (e : env) (input_path : path) (w : world) :
  (FFmpeg_installed e = false ->
   _preprocess_audio e input_path (fs w) = (input_path, fs w)) /\
  (temp_mkdir_ok e = false ->
   _preprocess_audio e input_path (fs w) = (input_path, fs w)) /\
  (forall partial,
     ffmpeg_run e input_path (temp_output e) = RunRaises partial ->
     fst (_preprocess_audio e input_path (fs w)) = input_path) /\
  (ffmpeg_run e input_path (temp_output e) = RunCompletes None ->
   exists_ (fs w) (temp_output e) = false ->
   fst (_preprocess_audio e input_path (fs w)) = input_path) /\
  (forall model_name language w0 model,
     exists_ (fs w) input_path = true ->
     WhisperModel (runtime_env e) <> None ->
     choose_model e model_name w = (None, w0) ->
     current_model (service w0) = Some model ->
     fst (_preprocess_audio e input_path (fs w0)) = input_path ->
     let r := extract_subtitle e input_path model_name language w in
     let w1 := with_fs (snd (_preprocess_audio e input_path (fs w0))) w0 in
     let heard :=
       transcribe e model input_path
         (if String.eqb language "auto" then None else Some language) in
     (forall raw info,
        heard = Returned (raw, info) ->
        fst r =
        {| success := true;
           message := "字幕提取成功";
           payload :=
             Some {| subtitle_text := strip (snd (collect raw));
                     segments := fst (collect raw);
                     subtitle_file :=
                       fst (_save_subtitle_file e input_path (fst (collect raw)) w1);
                     language := info_language info;
                     duration := info_duration info;
                     model_used := current_model_name (service w0) |} |} /\
        snd r = snd (_save_subtitle_file e input_path (fst (collect raw)) w1)) /\
     (forall what,
        heard = Raised what ->
        fst r = failure ("字幕提取失败: " ++ what) /\ snd r = w1) /\
     exists_ (fs (snd r)) input_path = true).
Proof.
  split_and!.
  - intros F. unfold _preprocess_audio, _preprocess_audio_try. rewrite F. reflexivity.
  - intros M. unfold _preprocess_audio, _preprocess_audio_try. rewrite M.
    destruct (FFmpeg_installed e); reflexivity.
  - intros partial R. unfold _preprocess_audio, _preprocess_audio_try. rewrite R.
    destruct (FFmpeg_installed e); [|reflexivity].
    destruct (temp_mkdir_ok e); reflexivity.
  - intros R X. unfold _preprocess_audio, _preprocess_audio_try. rewrite R.
    destruct (FFmpeg_installed e); [|reflexivity].
    destruct (temp_mkdir_ok e); [|reflexivity]. simpl.
    assert (exists_ (mkdir (temp_dir e) (fs w)) (temp_output e) = false) as ->; [|reflexivity].
    unfold mkdir, exists_ in *. destruct (fs w !! temp_dir e); [exact X|].
    rewrite lookup_insert_ne by apply temp_output_not_temp_dir. exact X.
  - intros model_name language w0 model Hex HW Hch Hm Hp r w1 heard.
    pose proof (choose_model_keeps e model_name w input_path Hex) as Hex0.
    rewrite Hch in Hex0. cbn [snd] in Hex0.
    pose proof (preprocess_audio_result e input_path (fs w0)) as [_ Keep].
    cbv zeta in Keep. specialize (Keep input_path Hex0).
    assert (extract_subtitle e input_path model_name language w =
            match heard with
            | Returned (raw, info) =>
                ({| success := true;
                    message := "字幕提取成功";
                    payload :=
                      Some {| subtitle_text := strip (snd (collect raw));
                              segments := fst (collect raw);
                              subtitle_file :=
                                fst (_save_subtitle_file e input_path (fst (collect raw)) w1);
                              language := info_language info;
                              duration := info_duration info;
                              model_used := current_model_name (service w0) |} |},
                 snd (_save_subtitle_file e input_path (fst (collect raw)) w1))
            | Raised what => (failure ("字幕提取失败: " ++ what), w1)
            end) as E.
    { subst r w1 heard. unfold extract_subtitle, extract_subtitle_try.
      rewrite Hex, Hch. cbn [negb].
      destruct (WhisperModel (runtime_env e)) as [ctor|]; [|contradiction].
      destruct (_preprocess_audio e input_path (fs w0)) as [p fs'] eqn:P.
      cbn [fst snd] in *. subst p. cbn [service with_fs]. rewrite Hm.
      destruct (transcribe e model input_path _) as [[raw info]|what].
      - destruct (collect raw) as [segs text]. cbn [fst snd].
        pose proof (save_subtitle_file_keeps e input_path segs (with_fs fs' w0)) as (K & _).
        destruct (_save_subtitle_file e input_path segs (with_fs fs' w0)) as [sf w2].
        cbn [fst snd] in *. rewrite K. cbn [service with_fs].
        rewrite finally_skipped by (right; reflexivity). reflexivity.
      - cbn [fst snd]. rewrite finally_skipped by (right; reflexivity). reflexivity. }
    fold r in E. split_and!.
    + intros raw info H. rewrite H in E. rewrite E. split; reflexivity.
    + intros what H. rewrite H in E. rewrite E. split; reflexivity.
    + rewrite E. destruct heard as [[raw info]|what]; cbn [snd].
      * pose proof (save_subtitle_file_keeps e input_path (fst (collect raw)) w1)
          as (_ & K1 & _).
        apply K1. exact Keep.
      * exact Keep.
Qed.

(** A failed load ends the transcription call with a failure
    dictionary; the service keeps its handle and identifier, and on disk
    only the model directory can have changed. *)
Lemma extract_subtitle_load_failure (e : env) (file_path : path)
    (m language : string) (w : world) :
  exists_ (fs w) file_path = true ->
  m <> "" -> m <> current_model_name (service w) ->
  fst (_load_model (runtime_env e) m (service w)) = false ->
  let r := extract_subtitle e file_path (Some m) language w in
  fst r = failure ("模型加载失败: " ++ m) /\
  snd r = snd (_load_model_world e m w) /\
  current_model (service (snd r)) = current_model (service w) /\
  current_model_name (service (snd r)) = current_model_name (service w).
Proof.
  intros Hex Hm Hc Hl r. subst r.
  unfold extract_subtitle, extract_subtitle_try, choose_model.
  rewrite Hex. cbn [negb].
  apply String.eqb_neq in Hm, Hc. rewrite Hm, Hc. cbn [negb andb].
  change (default "" (Some m)) with m.
  pose proof (load_model_failure_keeps (runtime_env e) m (service w) Hl) as K.
  cbv zeta in K. destruct K as (A & B & _ & _).
  unfold _load_model_world. rewrite Hl. cbn [fst snd extract_subtitle_finally service].
  auto.
Qed.


End PipelineFacts.

(** ** Subtitle document file names *)
Section FilenameFacts.
Import Py PyFormat Timecode Subtitle Runtime Pipeline.

Lemma field_ok_4 (n : Z) : 0 <= n < 10000 -> field_ok 4 n = true.
Proof. apply (forall_below (field_ok 4) (100 * 100)). vm_compute. reflexivity. Qed.

Lemma digits_only_4 (n : Z) : 0 <= n < 10000 -> digits_only 4 n = true.
Proof. apply (forall_below (digits_only 4) (100 * 100)). vm_compute. reflexivity. Qed.

Lemma digits_only_length (w : nat) (n : Z) :
  digits_only w n = true -> String.length (format_d w n) = w.
Proof.
  unfold digits_only. intros H. apply andb_prop in H as [L _].
  apply Nat.eqb_eq in L. exact L.
Qed.

Lemma field_ok_inj (w : nat) (n m : Z) :
  field_ok w n = true -> field_ok w m = true ->
  format_d w n = format_d w m -> n = m.
Proof.
  intros Hn Hm E.
  destruct (field_ok_elim w n Hn) as (_ & _ & _ & Pn).
  destruct (field_ok_elim w m Hm) as (_ & _ & _ & Pm).
  rewrite E in Pn. congruence.
Qed.

Lemma append_inj_length (a a' b b' : string) :
  String.length a = String.length a' -> a ++ b = a' ++ b' -> a = a' /\ b = b'.
Proof.
  revert a'. induction a as [|x a IH]; intros [|x' a'] L E; try discriminate.
  - auto.
  - rewrite !append_String in E. injection E as -> E.
    injection L as L. destruct (IH a' L E) as [-> ->]. auto.
Qed.

Lemma append_cancel_l (a b b' : string) : a ++ b = a ++ b' -> b = b'.
Proof. intros E. apply (append_inj_length a a b b' eq_refl E). Qed.

Lemma length_append (a b : string) :
  String.length (a ++ b) = (String.length a + String.length b)%nat.
Proof.
  induction a as [|x a IH]; [reflexivity|].
  rewrite append_String. simpl. rewrite IH. reflexivity.
Qed.

Lemma valid_datetime_fields (t : datetime) :
  valid_datetime t ->
  (field_ok 4 (year t) = true /\ digits_only 4 (year t) = true) /\
  (field_ok 2 (month t) = true /\ digits_only 2 (month t) = true) /\
  (field_ok 2 (day t) = true /\ digits_only 2 (day t) = true) /\
  (field_ok 2 (hour t) = true /\ digits_only 2 (hour t) = true) /\
  (field_ok 2 (minute t) = true /\ digits_only 2 (minute t) = true) /\
  (field_ok 2 (second t) = true /\ digits_only 2 (second t) = true).
Proof.
  intros (Y & M & D & h & m & s & _).
  split_and!;
    first [apply field_ok_4 | apply digits_only_4 | apply field_ok_2 | apply digits_only_2];
    lia.
Qed.

Lemma strftime_seconds_length (t : datetime) :
  valid_datetime t -> String.length (strftime_seconds t) = 15%nat.
Proof.
  intros V.
  destruct (valid_datetime_fields t V)
    as ((_ & Y) & (_ & M) & (_ & D) & (_ & h) & (_ & m) & (_ & s)).
  unfold strftime_seconds. rewrite !length_append.
  rewrite (digits_only_length _ _ Y), (digits_only_length _ _ M),
    (digits_only_length _ _ D), (digits_only_length _ _ h),
    (digits_only_length _ _ m), (digits_only_length _ _ s).
  reflexivity.
Qed.

(** The time stamp of a file name determines the clock reading up to
    the second, and no further. *)
Lemma strftime_seconds_inj (t u : datetime) :
  valid_datetime t -> valid_datetime u ->
  (strftime_seconds t = strftime_seconds u <-> same_second t u).
Proof.
  intros Vt Vu. split.
  - intros E.
    destruct (valid_datetime_fields t Vt)
      as ((Y1 & Y2) & (M1 & M2) & (D1 & D2) & (h1 & h2) & (m1 & m2) & (s1 & s2)).
    destruct (valid_datetime_fields u Vu)
      as ((Y1' & Y2') & (M1' & M2') & (D1' & D2') & (h1' & h2') & (m1' & m2') & (s1' & s2')).
    unfold strftime_seconds in E.
    apply append_inj_length in E as [EY E];
      [|rewrite !digits_only_length by assumption; reflexivity].
    apply append_inj_length in E as [EM E];
      [|rewrite !digits_only_length by assumption; reflexivity].
    apply append_inj_length in E as [ED E];
      [|rewrite !digits_only_length by assumption; reflexivity].
    rewrite !append_char in E. injection E as E.
    apply append_inj_length in E as [Eh E];
      [|rewrite !digits_only_length by assumption; reflexivity].
    apply append_inj_length in E as [Em Es];
      [|rewrite !digits_only_length by assumption; reflexivity].
    unfold same_second.
    split_and!; eapply field_ok_inj; eassumption.
  - unfold strftime_seconds. intros (-> & -> & -> & -> & -> & ->). reflexivity.
Qed.

Lemma subtitle_filename_eq (e : env) (st : Runtime.state) (t u : datetime)
    (original : path) :
  valid_datetime t -> valid_datetime u ->
  (subtitle_filename e st t original = subtitle_filename e st u original <->
   same_second t u).
Proof.
  intros Vt Vu. rewrite <- (strftime_seconds_inj t u Vt Vu).
  unfold subtitle_filename. split.
  - intros E. apply append_cancel_l in E. rewrite !append_char in E.
    injection E as E.
    apply append_inj_length in E as [E _]; [exact E|].
    rewrite !strftime_seconds_length by assumption. reflexivity.
  - intros ->. reflexivity.
Qed.

(** C9, as amended.  The file name of a subtitle document is the stem
    of the source, an underscore, the save-time clock reading formatted
    to the second, a period and the format tag.  For one source and one
    format, two documents get the same name exactly when their clock
    readings fall within the same calendar second; so documents saved in
    different seconds never collide, and documents saved within one
    second do. *)
Theorem C9_subtitle_filename_by_second (e1 e2 : env) (w1 w2 : world) (original : path) :
  valid_datetime (now_save e1) -> valid_datetime (now_save e2) ->
  SUBTITLES_FOLDER e1 = SUBTITLES_FOLDER e2 ->
  output_format e1 (service w1) = output_format e2 (service w2) ->
  subtitle_filename e1 (service w1) (now_save e1) original =
    path_stem original ++ "_" ++ strftime_seconds (now_save e1) ++ "." ++
    output_format e1 (service w1) /\
  (subtitle_path e1 (service w1) original = subtitle_path e2 (service w2) original
   <-> same_second (now_save e1) (now_save e2)).
Proof.
  intros V1 V2 Hf Ho. split; [reflexivity|].
  rewrite <- (subtitle_filename_eq e1 (service w1) _ _ original V1 V2).
  unfold subtitle_path. rewrite Hf.
  assert (subtitle_filename e2 (service w2) (now_save e2) original =
          subtitle_filename e1 (service w1) (now_save e2) original) as ->
    by (unfold subtitle_filename; rewrite Ho; reflexivity).
  split.
  - intros E. apply app_inv_head in E. congruence.
  - intros ->. reflexivity.
Qed.

End FilenameFacts.

(** ** The statements at concrete inputs *)
Section Instances.
Import Py PyFloat PyFormat Timecode Subtitle Correlator Runtime Pipeline.

(** The end-to-end scenario of the specification. *)
Example three_segments_srt :
  _generate_srt_content
    [ {| seg_start := 0%Q; seg_end := 3%Q; seg_text := "A" |};
      {| seg_start := 3%Q; seg_end := 6%Q; seg_text := "B" |};
      {| seg_start := 6%Q; seg_end := 9%Q; seg_text := "C" |} ]
  = "1" ++ nl ++ "00:00:00,000 --> 00:00:03,000" ++ nl ++ "A" ++ nl ++ nl ++
    "2" ++ nl ++ "00:00:03,000 --> 00:00:06,000" ++ nl ++ "B" ++ nl ++ nl ++
    "3" ++ nl ++ "00:00:06,000 --> 00:00:09,000" ++ nl ++ "C" ++ nl ++ nl.
Proof. vm_compute. reflexivity. Qed.

Lemma C2_load_idempotence_witness :
  let e := Runtime.sample_env (Some always_builds) in
  let st1 := snd (_load_model e "base" base_loaded) in
  let st2 := snd (_load_model e "large-v3-turbo" st1) in
  let st3 := snd (_load_model e "base" st2) in
  constructor_calls st3 = (constructor_calls base_loaded + 2)%nat /\
  models_built st3 = (models_built base_loaded + 2)%nat /\
  current_model_name st3 = "base".
Proof.
  intros e st1 st2 st3.
  destruct (C2_load_idempotence e base_loaded) as (_ & H & _).
  apply H.
  - reflexivity.
  - reflexivity.
  - discriminate.
  - reflexivity.
  - reflexivity.
Defined.

(** C2, counterexample.  With a constructor that raises, two loads of
    ["base"] in a row on a service without a handle both fail, and each
    calls the constructor: two constructions for two loads of one
    identifier.  And from ["base"] loaded, the loads of ["base"],
    ["large-v3-turbo"] and ["base"] make one constructor call, not two,
    when the switch fails. *)
Lemma C2_retried_load_counterexample :
  let e := Runtime.sample_env (Some never_builds) in
  let st := fresh e in
  let st1 := snd (_load_model e "base" st) in
  let st2 := snd (_load_model e "base" st1) in
  let t1 := snd (_load_model e "base" base_loaded) in
  let t2 := snd (_load_model e "large-v3-turbo" t1) in
  let t3 := snd (_load_model e "base" t2) in
  (fst (_load_model e "base" st) = false /\
   fst (_load_model e "base" st1) = false /\
   constructor_calls st = 0%nat /\
   constructor_calls st2 = 2%nat /\
   models_built st2 = 0%nat) /\
  (resident base_loaded = true /\ current_model_name base_loaded = "base" /\
   constructor_calls t3 = (constructor_calls base_loaded + 1)%nat /\
   current_model_name t3 = "base").
Proof. intros e st st1 st2 t1 t2 t3. split; split_and!; reflexivity. Qed.

Lemma C3_load_failure_atomicity_witness :
  let e := Runtime.sample_env (Some never_builds) in
  let st' := snd (_load_model e "large-v3-turbo" base_loaded) in
  current_model st' = current_model base_loaded /\
  current_model_name st' = current_model_name base_loaded /\
  SUBTITLE_OUTPUT_FORMAT st' = SUBTITLE_OUTPUT_FORMAT base_loaded /\
  model_config_file st' = model_config_file base_loaded /\
  (str_in "large-v3-turbo" WHISPER_AVAILABLE_MODELS = true ->
   select_model e "large-v3-turbo" base_loaded =
   ({| Runtime.success := false;
       Runtime.message := "模型加载失败: " ++ "large-v3-turbo";
       selected := None |}, st')).
Proof.
  intros e st'.
  destruct (C3_load_failure_atomicity e "large-v3-turbo" base_loaded) as [H _].
  apply H. reflexivity.
Defined.

Lemma C4_normalizer_degrades_witness :
  let e := Pipeline.sample_env false (RunRaises None) true 0 in
  let w0 := snd (choose_model e (Some "base") sample_world) in
  let w1 := with_fs (snd (_preprocess_audio e sample_source (fs w0))) w0 in
  let raw := [ {| raw_start := 0%Q; raw_end := 3%Q; raw_text := " A " |} ] in
  _preprocess_audio e sample_source (fs sample_world) = (sample_source, fs sample_world) /\
  fst (extract_subtitle e sample_source (Some "base") "auto" sample_world) =
  {| success := true;
     message := "字幕提取成功";
     payload :=
       Some {| subtitle_text := strip (snd (collect raw));
               segments := fst (collect raw);
               subtitle_file :=
                 fst (_save_subtitle_file e sample_source (fst (collect raw)) w1);
               language := "en";
               duration := 3%Q;
               model_used := current_model_name (service w0) |} |}.
Proof.
  intros e w0 w1 raw.
  destruct (C4_normalizer_degrades e sample_source sample_world)
    as (H1 & _ & _ & _ & H5).
  split.
  - apply H1. reflexivity.
  - refine (proj1 (proj1 (H5 (Some "base") "auto" w0
                            {| built_from := LocalDirectory "base"; serial := 0 |}
                            _ _ _ _ _)
                     raw {| info_language := "en"; info_duration := 3%Q |} _)).
    + reflexivity.
    + discriminate.
    + reflexivity.
    + reflexivity.
    + reflexivity.
    + reflexivity.
Defined.

(** The transcript of the witness: the recognition has been given the
    original file, and its one segment comes back stripped. *)
Example degraded_transcript :
  let e := Pipeline.sample_env false (RunRaises None) true 0 in
  payload (fst (extract_subtitle e sample_source (Some "base") "auto" sample_world)) =
  Some {| subtitle_text := "A";
          segments := [ {| Subtitle.seg_start := 0%Q; Subtitle.seg_end := 3%Q;
                           Subtitle.seg_text := "A" |} ];
          subtitle_file :=
            ["/"; "app"; "Subtitles"; "talk_20240517_092900_20240517_093015.vtt"];
          language := "en";
          duration := 3%Q;
          model_used := "base" |}.
Proof. vm_compute. reflexivity. Qed.

Lemma binary64_Z (n : Z) : Z.abs n < 2 ^ 53 -> binary64 (inject_Z n).
Proof.
  intros H. exists n, 0. split; [|lia].
  change (2 ^ 0)%Q with 1%Q. rewrite Qmult_1_r. reflexivity.
Qed.

Lemma C5_rendering_structure_witness :
  let segments :=
    [ {| seg_start := 0%Q; seg_end := float_1_115; seg_text := "A" |};
      {| seg_start := 3%Q; seg_end := 6%Q; seg_text := "B" |};
      {| seg_start := 6%Q; seg_end := 359999%Q; seg_text := "C" |} ] in
  srt_blocks 1 segments !! 2%nat =
    Some ("3" ++ nl ++ "00:00:06,000 --> 99:59:59,000" ++ nl ++ "C" ++ nl ++ nl) /\
  map vtt_block segments !! 0%nat =
    Some ("00:00:00.000 --> 00:00:01.114" ++ nl ++ "A" ++ nl ++ nl) /\
  Forall (fun s =>
            is_timecode "." (_seconds_to_vtt_time (seg_start s)) = true /\
            is_timecode "." (_seconds_to_vtt_time (seg_end s)) = true /\
            is_timecode "," (_seconds_to_srt_time (seg_start s)) = true /\
            is_timecode "," (_seconds_to_srt_time (seg_end s)) = true)
         segments.
Proof.
  intros segments.
  destruct (C5_rendering_structure segments) as ((_ & _ & Hv) & (_ & _ & Hb) & Ht).
  split; [|split].
  - rewrite (Hb 2%nat {| seg_start := 6%Q; seg_end := 359999%Q; seg_text := "C" |} eq_refl).
    vm_compute. reflexivity.
  - rewrite (Hv 0%nat {| seg_start := 0%Q; seg_end := float_1_115; seg_text := "A" |} eq_refl).
    vm_compute. reflexivity.
  - assert (forall n : Z, 0 <= n < 360000 -> below_100_hours (inject_Z n)) as Whole.
    { intros n Hn. split; [apply binary64_Z; lia|].
      split; [rewrite <- (Zle_Qle 0); lia|].
      change 360000%Q with (inject_Z 360000). rewrite <- Zlt_Qlt. lia. }
    assert (below_100_hours float_1_115) as Frac.
    { split; [apply binary64_of_bits; lia|]. split; vm_compute; [discriminate|reflexivity]. }
    apply Forall_forall. intros s Hs. apply (Ht s Hs).
    repeat (apply elem_of_cons in Hs as [->|Hs]); [| | |inversion Hs]; split; cbn.
    + exact (Whole 0 ltac:(lia)).
    + exact Frac.
    + exact (Whole 3 ltac:(lia)).
    + exact (Whole 6 ltac:(lia)).
    + exact (Whole 6 ltac:(lia)).
    + exact (Whole 359999 ltac:(lia)).
Defined.

(** C5, counterexample.  A segment that begins 100 hours into the
    recording: the hour field takes three digits, so the range lines of
    both documents are no [HH:MM:SS.mmm --> HH:MM:SS.mmm] lines. *)
Lemma C5_hundred_hours_counterexample :
  let s := {| seg_start := 360000%Q; seg_end := 360001%Q; seg_text := "A" |} in
  binary64 (seg_start s) /\ binary64 (seg_end s) /\
  _generate_vtt_content [s] =
    "WEBVTT" ++ nl ++ nl ++ "100:00:00.000 --> 100:00:01.000" ++ nl ++ "A" ++ nl ++ nl /\
  _generate_srt_content [s] =
    "1" ++ nl ++ "100:00:00,000 --> 100:00:01,000" ++ nl ++ "A" ++ nl ++ nl /\
  is_timecode "." (_seconds_to_vtt_time (seg_start s)) = false /\
  is_timecode "," (_seconds_to_srt_time (seg_start s)) = false /\
  String.length (_seconds_to_vtt_time (seg_start s)) = 13%nat.
Proof.
  intros s. split; [apply (binary64_Z 360000); lia|].
  split; [apply (binary64_Z 360001); lia|].
  split_and!; vm_compute; reflexivity.
Qed.

Lemma C6_exact_match_priority_witness :
  let listing :=
    [ {| entry_name := "talk_20240517_092900_cut.mp4"; entry_is_file := true;
         entry_raises := false |};
      {| entry_name := "talk_20240517_092900.mp4"; entry_is_file := true;
         entry_raises := false |} ] in
  exists before e after,
    listing = (before ++ e :: after)%list /\
    entry_is_file e = true /\ stem (entry_name e) = "talk_20240517_092900" /\
    (forall x, x ∈ before -> exact_test "talk_20240517_092900" x = false) /\
    find_file_by_id "/app/Temp" listing "talk_20240517_092900" =
    Some ("/app/Temp" ++ "/" ++ entry_name e).
Proof.
  intros listing.
  destruct (C6_exact_match_priority "/app/Temp" listing "talk_20240517_092900") as [H _].
  apply H.
  - repeat constructor.
  - exists {| entry_name := "talk_20240517_092900.mp4"; entry_is_file := true;
              entry_raises := false |}.
    split; [right; left|]. split; reflexivity.
Defined.

(** Exact match before prefix match, on the listing of the witness. *)
Example exact_match_wins :
  find_file_by_id "/app/Temp"
    [ {| entry_name := "talk_20240517_092900_cut.mp4"; entry_is_file := true;
         entry_raises := false |};
      {| entry_name := "talk_20240517_092900.mp4"; entry_is_file := true;
         entry_raises := false |} ]
    "talk_20240517_092900"
  = Some "/app/Temp/talk_20240517_092900.mp4".
Proof. reflexivity. Qed.

(** C6, counterexample.  The Temp folder holds the file of the
    identifier, and before it an entry on which [is_file()] raises: the
    exception is caught and the answer is [None], although a file whose
    stem equals the identifier exists. *)
Lemma C6_raising_entry_counterexample :
  let broken :=
    {| entry_name := "link"; entry_is_file := false; entry_raises := true |} in
  let wanted :=
    {| entry_name := "talk_20240517_092900.mp4"; entry_is_file := true;
       entry_raises := false |} in
  wanted ∈ [broken; wanted] /\
  entry_is_file wanted = true /\ stem (entry_name wanted) = "talk_20240517_092900" /\
  find_file_by_id "/app/Temp" [broken; wanted] "talk_20240517_092900" = None /\
  find_file_by_id "/app/Temp" [wanted; broken] "talk_20240517_092900" =
  Some "/app/Temp/talk_20240517_092900.mp4".
Proof.
  intros broken wanted. split; [right; left|]. split_and!; reflexivity.
Qed.




Lemma C8_load_success_selects_witness :
  let e := Runtime.sample_env (Some always_builds) in
  let st := fresh e in
  let st' := snd (_load_model e "large-v3-turbo" st) in
  current_model_name st' = "large-v3-turbo" /\ resident st' = true /\
  (st' = st \/
   (constructor_calls st' = S (constructor_calls st) /\
    write_attempts st' = S (write_attempts st) /\
    (config_write_ok e (write_attempts st) = true ->
     (exists config,
        model_config_file st' = JsonObject config /\
        config !! "current_model" = Some "large-v3-turbo") /\
     forall (e' : Runtime.env) (initial_format : string),
       current_model_name (init e' initial_format (model_config_file st')) =
       "large-v3-turbo"))).
Proof.
  intros e st st'.
  apply (C8_load_success_selects e "large-v3-turbo" st).
  - discriminate.
  - reflexivity.
Defined.

(** C8, counterexample.  Without the recognition backend the load of
    ["large-v3-turbo"] reports success, and [select_model] with it, yet
    the current identifier is still ["base"], nothing is written, and a
    start from the selection record resumes with ["base"]. *)
Lemma C8_degraded_mode_counterexample :
  let e := Runtime.sample_env None in
  let st := fresh e in
  _load_model e "large-v3-turbo" st = (true, st) /\
  Runtime.success (fst (select_model e "large-v3-turbo" st)) = true /\
  current_model_name (snd (_load_model e "large-v3-turbo" st)) = "base" /\
  current_model_name
    (init e "vtt" (model_config_file (snd (_load_model e "large-v3-turbo" st)))) = "base".
Proof. intros e st. split_and!; reflexivity. Qed.

Lemma C9_subtitle_filename_by_second_witness :
  let e1 := Pipeline.sample_env true (RunRaises None) true 100000 in
  let e2 := Pipeline.sample_env true (RunRaises None) true 900000 in
  subtitle_filename e1 (service sample_world) (now_save e1) sample_source =
    path_stem sample_source ++ "_" ++ strftime_seconds (now_save e1) ++ "." ++
    output_format e1 (service sample_world) /\
  (subtitle_path e1 (service sample_world) sample_source =
     subtitle_path e2 (service sample_world) sample_source
   <-> same_second (now_save e1) (now_save e2)).
Proof.
  intros e1 e2.
  apply (C9_subtitle_filename_by_second e1 e2 sample_world sample_world sample_source).
  - unfold valid_datetime. simpl. lia.
  - unfold valid_datetime. simpl. lia.
  - reflexivity.
  - reflexivity.
Defined.

(** C9, counterexample.  Two saves for the same source at clock
    readings 0.8 s apart within one second: both documents get the same
    path, and the second replaces the first. *)
Lemma C9_same_second_counterexample :
  let e1 := Pipeline.sample_env true (RunRaises None) true 100000 in
  let e2 := Pipeline.sample_env true (RunRaises None) true 900000 in
  let first := [ {| seg_start := 0%Q; seg_end := 3%Q; seg_text := "A" |} ] in
  let second := [ {| seg_start := 0%Q; seg_end := 3%Q; seg_text := "B" |} ] in
  let r1 := _save_subtitle_file e1 sample_source first sample_world in
  let r2 := _save_subtitle_file e2 sample_source second (snd r1) in
  now_save e1 <> now_save e2 /\
  fst r1 = ["/"; "app"; "Subtitles"; "talk_20240517_092900_20240517_093015.vtt"] /\
  fst r2 = fst r1 /\
  fs (snd r1) !! fst r1 = Some (File (_generate_vtt_content first)) /\
  fs (snd r2) !! fst r1 = Some (File (_generate_vtt_content second)) /\
  _generate_vtt_content first <> _generate_vtt_content second.
Proof.
  intros e1 e2 first second r1 r2.
  split_and!; try (vm_compute; reflexivity); vm_compute; discriminate.
Qed.



End Instances.

(** ** Decimal rendering of any natural number *)
Section DecimalFacts.
Import PyFloat PyFormat Timecode Subtitle Instants.

Lemma digits_lack (c : ascii) (d : Decimal.uint) :
  is_digit c = false -> lacks c (NilEmpty.string_of_uint d) = true.
Proof.
  intros Hc.
  induction d as [|d IH|d IH|d IH|d IH|d IH|d IH|d IH|d IH|d IH|d IH];
    cbn [NilEmpty.string_of_uint lacks]; [reflexivity|..];
    rewrite IH, andb_true_r; apply negb_true_iff;
    match goal with
    | |- Ascii.eqb ?x c = false =>
        destruct (Ascii.eqb_spec x c) as [E|E]; [rewrite <- E in Hc; discriminate|reflexivity]
    end.
Qed.

Lemma zeros_lack (c : ascii) (k : nat) : is_digit c = false -> lacks c (zeros k) = true.
Proof.
  intros Hc. induction k as [|k IH]; [reflexivity|].
  cbn [zeros lacks]. rewrite IH, andb_true_r. apply negb_true_iff.
  destruct (Ascii.eqb_spec "0" c) as [E|E]; [rewrite <- E in Hc; discriminate|reflexivity].
Qed.

(** A rendered non-negative integer holds digits only. *)
Lemma format_d_lacks (c : ascii) (w : nat) (n : Z) :
  is_digit c = false -> 0 <= n -> lacks c (format_d w n) = true.
Proof.
  intros Hc Hn. unfold format_d.
  destruct (Z.ltb_spec n 0) as [L|_]; [lia|].
  unfold zfill, digits. rewrite lacks_app, zeros_lack, digits_lack by exact Hc.
  reflexivity.
Qed.

Lemma uint_of_zeros (k : nat) (s : string) :
  NilEmpty.uint_of_string (zeros k ++ s) =
  option_map (Nat.iter k Decimal.D0) (NilEmpty.uint_of_string s).
Proof.
  induction k as [|k IH].
  - rewrite append_empty_l. destruct (NilEmpty.uint_of_string s); reflexivity.
  - cbn [zeros]. rewrite append_String. cbn [NilEmpty.uint_of_string].
    rewrite IH. destruct (NilEmpty.uint_of_string s); reflexivity.
Qed.

Lemma of_uint_leading_zeros (k : nat) (d : Decimal.uint) :
  Z.of_uint (Nat.iter k Decimal.D0 d) = Z.of_uint d.
Proof. induction k as [|k IH]; [reflexivity|]. simpl. exact IH. Qed.

Lemma digits_nonempty (n : N) : NilEmpty.string_of_uint (N.to_uint n) <> "".
Proof.
  intros E.
  pose proof (NilEmpty.usu (N.to_uint n)) as U. rewrite E in U.
  cbn in U. injection U as U.
  pose proof (DecimalN.Unsigned.of_to n) as O. rewrite <- U in O.
  cbn in O. subst n. discriminate.
Qed.

(** A rendered non-negative integer reads back as itself, whatever the
    padding. *)
Lemma parse_format_d (w : nat) (n : Z) :
  0 <= n -> parse_decimal (format_d w n) = Some n.
Proof.
  intros Hn. unfold format_d.
  destruct (Z.ltb_spec n 0) as [L|_]; [lia|].
  unfold zfill, digits. unfold parse_decimal.
  assert (NilEmpty.uint_of_string
            (zeros (w - String.length (NilEmpty.string_of_uint (N.to_uint (Z.to_N n)))) ++
             NilEmpty.string_of_uint (N.to_uint (Z.to_N n))) =
          Some (Nat.iter (w - String.length (NilEmpty.string_of_uint (N.to_uint (Z.to_N n))))
                  Decimal.D0 (N.to_uint (Z.to_N n)))) as U
    by (rewrite uint_of_zeros, NilEmpty.usu; reflexivity).
  destruct (zeros _ ++ _) as [|c r] eqn:S.
  - exfalso. apply (digits_nonempty (Z.to_N n)).
    destruct (zeros _) in S; [exact S|discriminate].
  - rewrite U. cbn [option_map]. f_equal.
    rewrite of_uint_leading_zeros. unfold Z.of_uint.
    change (Pos.of_uint (N.to_uint (Z.to_N n))) with (N.of_uint (N.to_uint (Z.to_N n))).
    rewrite DecimalN.Unsigned.of_to. lia.
Qed.

Lemma format_d_inj (w : nat) (n m : Z) :
  0 <= n -> 0 <= m -> format_d w n = format_d w m -> n = m.
Proof.
  intros Hn Hm E.
  pose proof (parse_format_d w n Hn) as Pn.
  rewrite E, (parse_format_d w m Hm) in Pn. congruence.
Qed.

(** Reading back a rendered time code whose fields are non-negative,
    however many digits they take. *)
Lemma parse_render_any (sep : ascii) (f : fields) :
  sep = "."%char \/ sep = ","%char ->
  0 <= hours f -> 0 <= minutes f -> 0 <= secs f -> 0 <= millisecs f ->
  parseTimecode sep (render (String sep "") f) =
  Some (((hours f * 60 + minutes f) * 60 + secs f) * 1000 + millisecs f).
Proof.
  intros Hsep Hh Hm Hs Hx.
  assert (is_digit ":" = false) as Dc by reflexivity.
  assert (is_digit sep = false) as Ds by (destruct Hsep as [-> | ->]; reflexivity).
  unfold parseTimecode, render. rewrite !append_char.
  rewrite (split_on_app ":") by (apply format_d_lacks; assumption).
  rewrite (split_on_app ":") by (apply format_d_lacks; assumption).
  rewrite (split_on_lacks ":").
  2:{ rewrite lacks_app. cbn [lacks]. rewrite !format_d_lacks by assumption.
      destruct Hsep as [-> | ->]; reflexivity. }
  rewrite (split_on_app sep) by (apply format_d_lacks; assumption).
  rewrite (split_on_lacks sep) by (apply format_d_lacks; assumption).
  rewrite !parse_format_d by assumption. reflexivity.
Qed.

End DecimalFacts.

(** ** Time codes of arbitrary instants, and their order *)
Section InstantFacts.
Import PyFloat PyFormat Timecode Subtitle Instants.
Local Open Scope Q_scope.

Lemma round_half_even_mono (q q' : Q) :
  q <= q' -> (round_half_even q <= round_half_even q')%Z.
Proof.
  intros H.
  pose proof (Qfloor_resp_le q q' H) as HF.
  destruct (Qfloor_bounds q) as [L U]. destruct (Qfloor_bounds q') as [L' U'].
  destruct (Z.eq_dec (Qfloor q) (Qfloor q')) as [E|N].
  - unfold round_half_even. rewrite <- E.
    destruct (Qcompare_spec (q - inject_Z (Qfloor q)) (1 # 2)) as [C|C|C];
      destruct (Qcompare_spec (q' - inject_Z (Qfloor q)) (1 # 2)) as [C'|C'|C'];
      try lra; try (destruct (Z.even (Qfloor q))); lia.
  - assert (Qfloor q + 1 <= Qfloor q')%Z by lia.
    destruct (round_half_even_cases q) as [-> | [-> _]];
      destruct (round_half_even_cases q') as [-> | [-> _]]; lia.
Qed.

(** [floor_log2 x] is the binary logarithm of [x] rounded down. *)
Lemma floor_log2_lt (x : Q) : 0 < x -> x < 2 ^ (floor_log2 x + 1).
Proof.
  intros Hx. unfold floor_log2.
  set (n := Qnum x). set (d := Zpos (Qden x)).
  destruct (Qle_bool (2 ^ (Z.log2 n - Z.log2 d)) x) eqn:E.
  - clear E.
    assert (0 < n)%Z as Hn.
    { unfold n. destruct x as [xn xd]. unfold Qlt in Hx. simpl in *. lia. }
    assert (0 < d)%Z as Hd by (unfold d; lia).
    destruct (Z.log2_spec n Hn) as [_ Hn2].
    destruct (Z.log2_spec d Hd) as [Hd1 _].
    pose proof (Z.log2_nonneg n) as Ln. pose proof (Z.log2_nonneg d) as Ld.
    replace (Z.log2 n - Z.log2 d + 1)%Z with (Z.succ (Z.log2 n) - Z.log2 d)%Z by lia.
    rewrite Qpower_minus by discriminate.
    rewrite !two_pow_Z by lia.
    assert (x == inject_Z n / inject_Z d) as ->.
    { unfold n, d. destruct x as [xn xd]. simpl. apply Qmake_Qdiv. }
    assert (0 < inject_Z d) as Hd' by (rewrite <- (Zlt_Qlt 0); exact Hd).
    assert (inject_Z n < inject_Z (2 ^ Z.succ (Z.log2 n))) as A
      by (rewrite <- Zlt_Qlt; exact Hn2).
    assert (inject_Z (2 ^ Z.log2 d) <= inject_Z d) as B
      by (rewrite <- Zle_Qle; exact Hd1).
    assert (0 < inject_Z (2 ^ Z.log2 d)) as B0
      by (rewrite <- (Zlt_Qlt 0); apply Z.pow_pos_nonneg; lia).
    assert (0 < inject_Z n) as Hn' by (rewrite <- (Zlt_Qlt 0); exact Hn).
    apply Qlt_shift_div_r; [exact Hd'|].
    assert (inject_Z (2 ^ Z.succ (Z.log2 n)) / inject_Z (2 ^ Z.log2 d) * inject_Z d ==
            inject_Z (2 ^ Z.succ (Z.log2 n)) * (inject_Z d / inject_Z (2 ^ Z.log2 d))) as ->
      by (field; lra).
    assert (1 <= inject_Z d / inject_Z (2 ^ Z.log2 d)) as K
      by (apply Qle_shift_div_l; [exact B0|lra]).
    nra.
  - replace (Z.log2 n - Z.log2 d - 1 + 1)%Z with (Z.log2 n - Z.log2 d)%Z by lia.
    apply Qnot_le_lt. intros C. apply Qle_bool_iff in C. congruence.
Qed.

Lemma ulp_binade (x : Q) : ulp x = 2 ^ (binade x - 52).
Proof. reflexivity. Qed.

Lemma binade_mono (x y : Q) : 0 < x -> x <= y -> (binade x <= binade y)%Z.
Proof.
  intros Hx Hxy. unfold binade.
  assert (floor_log2 x < floor_log2 y + 1)%Z; [|lia].
  apply (Qpower_lt_compat_l_inv 2); [|reflexivity].
  eapply Qle_lt_trans; [apply floor_log2_le; exact Hx|].
  eapply Qle_lt_trans; [exact Hxy|]. apply floor_log2_lt. lra.
Qed.

Lemma two_pow_split (a b : Z) : 2 ^ a == 2 ^ (a - b) * 2 ^ b.
Proof.
  rewrite <- Qpower_plus by discriminate. replace (a - b + b)%Z with a by lia. reflexivity.
Qed.

(** A power of two at least the unit in the last place is on the grid. *)
Lemma b64_round_le_pow (x : Q) (k : Z) :
  0 < x -> (binade x - 52 <= k)%Z -> x <= 2 ^ k -> b64_round x <= 2 ^ k.
Proof.
  intros Hx Hk Hb. rewrite (b64_round_pos x Hx), ulp_binade.
  set (u := 2 ^ (binade x - 52)).
  assert (0 < u) as Hu by apply two_pow_pos.
  assert (2 ^ k == inject_Z (2 ^ (k - (binade x - 52))) * u) as E.
  { rewrite <- two_pow_Z by lia. apply two_pow_split. }
  assert (round_half_even (x / u) <= 2 ^ (k - (binade x - 52)))%Z as A.
  { apply round_half_even_le. apply Qle_shift_div_r; [exact Hu|]. rewrite <- E. exact Hb. }
  rewrite Zle_Qle in A. rewrite E. nra.
Qed.

Lemma b64_round_ge_pow (x : Q) (k : Z) :
  0 < x -> (binade x - 52 <= k)%Z -> 2 ^ k <= x -> 2 ^ k <= b64_round x.
Proof.
  intros Hx Hk Hb. rewrite (b64_round_pos x Hx), ulp_binade.
  set (u := 2 ^ (binade x - 52)).
  assert (0 < u) as Hu by apply two_pow_pos.
  assert (2 ^ k == inject_Z (2 ^ (k - (binade x - 52))) * u) as E.
  { rewrite <- two_pow_Z by lia. apply two_pow_split. }
  assert (2 ^ (k - (binade x - 52)) <= round_half_even (x / u))%Z as A.
  { apply round_half_even_ge. apply Qle_shift_div_l; [exact Hu|]. rewrite <- E. exact Hb. }
  rewrite Zle_Qle in A. rewrite E. nra.
Qed.

(** Rounding to binary64 preserves the order. *)
Lemma b64_round_mono (x y : Q) : 0 < x -> x <= y -> b64_round x <= b64_round y.
Proof.
  intros Hx Hxy.
  assert (0 < y) as Hy by lra.
  pose proof (binade_mono x y Hx Hxy) as HE.
  destruct (Z.eq_dec (binade x) (binade y)) as [E|N].
  - rewrite (b64_round_pos x Hx), (b64_round_pos y Hy), !ulp_binade, <- E.
    set (u := 2 ^ (binade x - 52)).
    assert (0 < u) as Hu by apply two_pow_pos.
    assert (round_half_even (x / u) <= round_half_even (y / u))%Z as A.
    { apply round_half_even_mono.
      apply Qle_shift_div_l; [exact Hu|].
      assert (x / u * u == x) as -> by (field; lra). exact Hxy. }
    rewrite Zle_Qle in A. nra.
  - assert (binade x + 1 <= binade y)%Z as Lt by lia.
    apply Qle_trans with (2 ^ (binade x + 1)).
    + apply b64_round_le_pow; [exact Hx|lia|].
      apply Qlt_le_weak. eapply Qlt_le_trans; [apply floor_log2_lt; exact Hx|].
      apply Qpower_le_compat_l; [unfold binade; lia|discriminate].
    + apply Qle_trans with (2 ^ binade y).
      * apply Qpower_le_compat_l; [exact Lt|discriminate].
      * assert (binade y = floor_log2 y) as Ey by (unfold binade in *; lia).
        apply b64_round_ge_pow; [exact Hy|lia|].
        rewrite Ey. apply floor_log2_le. exact Hy.
Qed.

Lemma b64_round_nonneg_mono (x y : Q) : 0 <= x -> x <= y -> b64_round x <= b64_round y.
Proof.
  intros Hx Hxy. destruct (Qlt_le_dec 0 x) as [P|Z0].
  - apply b64_round_mono; assumption.
  - rewrite (b64_round_0 x) by lra.
    destruct (Qlt_le_dec 0 y) as [Py|Zy].
    + rewrite (b64_round_pos y Py).
      assert (0 <= round_half_even (y / ulp y))%Z as A.
      { apply round_half_even_ge. apply Qle_shift_div_l; [apply two_pow_pos|].
        change (inject_Z 0) with 0. rewrite Qmult_0_l. apply Qlt_le_weak. exact Py. }
      rewrite Zle_Qle in A. pose proof (two_pow_pos (binade y - 52)) as U.
      rewrite ulp_binade. change (inject_Z 0) with 0 in A.
      apply Qmult_le_0_compat; [exact A|apply Qlt_le_weak; exact U].
    + rewrite (b64_round_0 y) by lra. lra.
Qed.

(** The fields of any non-negative instant: minutes and seconds stay
    below sixty, the hour field is unbounded. *)
Lemma split_seconds_any (s : Q) :
  binary64 s -> 0 <= s ->
  let f := split_seconds s in
  (0 <= hours f /\ 0 <= minutes f < 60 /\ 0 <= secs f < 60 /\
   0 <= millisecs f <= 999 /\
   hours f = Qfloor s / 3600 /\
   (hours f * 60 + minutes f) * 60 + secs f = Qfloor s /\
   millisecs f = Qfloor (b64_round (ms_product s)))%Z.
Proof.
  intros Hb Hs f. subst f.
  pose proof (split_seconds_fields s Hs) as HF. cbv zeta in HF.
  destruct HF as (-> & -> & ->).
  pose proof (millisecs_bounds s Hb Hs) as HM. cbv zeta in HM.
  destruct HM as [[_ Hr] _].
  assert (0 <= Qfloor s)%Z as F0 by (apply Qfloor_nonneg; exact Hs).
  pose proof (Z.div_pos (Qfloor s) 3600 F0 ltac:(lia)).
  pose proof (Z.mod_pos_bound (Qfloor s) 3600 ltac:(lia)).
  pose proof (Z.mod_pos_bound (Qfloor s) 60 ltac:(lia)).
  pose proof (Z.div_pos (Qfloor s mod 3600) 60 ltac:(lia) ltac:(lia)).
  pose proof (Z.div_lt_upper_bound (Qfloor s mod 3600) 60 60 ltac:(lia) ltac:(lia)).
  pose proof (Z.div_mod (Qfloor s) 3600 ltac:(lia)).
  pose proof (Z.div_mod (Qfloor s mod 3600) 60 ltac:(lia)).
  assert ((Qfloor s mod 3600) mod 60 = Qfloor s mod 60)%Z.
  { apply Z.mod_mod_divide. exists 60%Z. reflexivity. }
  split_and!; try lia.
  unfold split_seconds; cbn [millisecs]. apply int_nonneg.
  destruct (ms_product_range s) as [X0 X1].
  apply mul_nonneg; [exact X0|]. fold (ms_product s). lra.
Qed.

Lemma rendered_any (s : Q) :
  binary64 s -> 0 <= s ->
  vtt_ms s = Some (fields_ms (split_seconds s)) /\
  srt_ms s = Some (fields_ms (split_seconds s)).
Proof.
  intros Hb Hs.
  pose proof (split_seconds_any s Hb Hs) as H. cbv zeta in H.
  destruct H as (Hh & Hm & Hc & Hx & _).
  unfold vtt_ms, srt_ms, _seconds_to_vtt_time, _seconds_to_srt_time, fields_ms.
  split; apply parse_render_any; auto; lia.
Qed.

Lemma fields_ms_mono (s t : Q) :
  binary64 s -> binary64 t -> 0 <= s -> s <= t ->
  (fields_ms (split_seconds s) <= fields_ms (split_seconds t))%Z.
Proof.
  intros Bs Bt Hs Hst.
  assert (0 <= t) as Ht by lra.
  pose proof (split_seconds_any s Bs Hs) as A. cbv zeta in A.
  destruct A as (_ & _ & _ & As & _ & Aw & Am).
  pose proof (split_seconds_any t Bt Ht) as B. cbv zeta in B.
  destruct B as (_ & _ & _ & Bs' & _ & Bw & Bm).
  unfold fields_ms. rewrite Aw, Bw.
  pose proof (Qfloor_resp_le s t Hst) as HF.
  destruct (Z.eq_dec (Qfloor s) (Qfloor t)) as [E|N]; [|lia].
  assert (millisecs (split_seconds s) <= millisecs (split_seconds t))%Z; [|lia].
  rewrite Am, Bm. apply Qfloor_resp_le.
  destruct (ms_product_range s) as [X0 _].
  apply b64_round_nonneg_mono; [exact X0|].
  unfold ms_product. rewrite !mod_1_frac, E. lra.
Qed.

(** X1.  The round trip of the time codes is not confined to the day.
    For every non-negative binary64 instant below 2^53 seconds both
    converters produce a string that reads back, in whole milliseconds,
    as the instant truncated to milliseconds or one millisecond more.  The hour field is
    the whole hours of the instant and is never wrapped at 24 (it grows
    beyond two digits), the minute and second fields stay below sixty and
    the millisecond field within 0..999. *)
Theorem X1_roundtrip_any_instant (s : Q) :
  binary64 s -> plain_instant s ->
  exists ms : Z,
    vtt_ms s = Some ms /\ srt_ms s = Some ms /\
    (truncateToMs s <= ms <= truncateToMs s + 1)%Z /\
    hours (split_seconds s) = (Qfloor s / 3600)%Z /\
    (0 <= minutes (split_seconds s) < 60)%Z /\
    (0 <= secs (split_seconds s) < 60)%Z /\
    (0 <= millisecs (split_seconds s) <= 999)%Z.
Proof.
  intros Hb [Hs _].
  destruct (rendered_any s Hb Hs) as [V S].
  pose proof (split_seconds_any s Hb Hs) as H. cbv zeta in H.
  destruct H as (Hh & Hm & Hc & Hx & Hq & Hw & _).
  pose proof (millisecs_bounds s Hb Hs) as HM. cbv zeta in HM.
  destruct HM as [[Hk _] _].
  exists (fields_ms (split_seconds s)).
  rewrite truncateToMs_decomp. unfold fields_ms at 3 4. rewrite Hw.
  split_and!; try assumption; lia.
Qed.

Lemma X1_roundtrip_any_instant_witness :
  exists ms : Z,
    vtt_ms (of_bits 720001 (-1)) = Some ms /\
    srt_ms (of_bits 720001 (-1)) = Some ms /\
    (truncateToMs (of_bits 720001 (-1)) <= ms
       <= truncateToMs (of_bits 720001 (-1)) + 1)%Z /\
    hours (split_seconds (of_bits 720001 (-1)))
      = (Qfloor (of_bits 720001 (-1)) / 3600)%Z /\
    (0 <= minutes (split_seconds (of_bits 720001 (-1))) < 60)%Z /\
    (0 <= secs (split_seconds (of_bits 720001 (-1))) < 60)%Z /\
    (0 <= millisecs (split_seconds (of_bits 720001 (-1))) <= 999)%Z.
Proof.
  apply (X1_roundtrip_any_instant (of_bits 720001 (-1))).
  - apply binary64_of_bits; lia.
  - split; [vm_compute; discriminate|vm_compute; reflexivity].
Defined.

(** X2.  The time codes keep the order of the instants: if one
    non-negative binary64 instant below 2^53 seconds is not later than
    another, its time code, in either format, does not denote a later
    millisecond.  (So a
    segment never renders with its start after its end, and a sorted
    transcript renders sorted.) *)
Theorem X2_timecodes_keep_order (s t : Q) :
  binary64 s -> binary64 t -> plain_instant s -> plain_instant t -> s <= t ->
  exists a b : Z,
    vtt_ms s = Some a /\ vtt_ms t = Some b /\
    srt_ms s = Some a /\ srt_ms t = Some b /\ (a <= b)%Z.
Proof.
  intros Bs Bt [Hs _] [Ht _] Hst.
  destruct (rendered_any s Bs Hs) as [Vs Ss].
  destruct (rendered_any t Bt Ht) as [Vt St].
  exists (fields_ms (split_seconds s)), (fields_ms (split_seconds t)).
  split_and!; try assumption.
  apply fields_ms_mono; assumption.
Qed.

Lemma X2_timecodes_keep_order_witness :
  exists a b : Z,
    vtt_ms float_0_009 = Some a /\ vtt_ms float_1_115 = Some b /\
    srt_ms float_0_009 = Some a /\ srt_ms float_1_115 = Some b /\ (a <= b)%Z.
Proof.
  apply (X2_timecodes_keep_order float_0_009 float_1_115).
  - apply binary64_of_bits; lia.
  - apply binary64_of_bits; lia.
  - split; [vm_compute; discriminate|vm_compute; reflexivity].
  - split; [vm_compute; discriminate|vm_compute; reflexivity].
  - vm_compute. discriminate.
Defined.

End InstantFacts.

(** ** Scratch file names *)
Section ScratchNameFacts.
Import Py PyFormat Timecode Subtitle Runtime Pipeline.

Lemma append_cancel_r (a b c : string) : a ++ c = b ++ c -> a = b.
Proof.
  intros E.
  assert (String.length a = String.length b) as L.
  { pose proof (f_equal String.length E) as H. rewrite !length_append in H. lia. }
  apply (append_inj_length a b c c L E).
Qed.

Lemma datetime_eq (t u : datetime) :
  same_second t u -> microsecond t = microsecond u -> t = u.
Proof.
  destruct t, u. unfold same_second. simpl.
  intros (-> & -> & -> & -> & -> & ->) ->. reflexivity.
Qed.

Lemma strftime_micros_inj (t u : datetime) :
  valid_datetime t -> valid_datetime u ->
  strftime_micros t = strftime_micros u -> t = u.
Proof.
  intros Vt Vu E. unfold strftime_micros in E.
  apply append_inj_length in E as [E1 E2];
    [|rewrite !strftime_seconds_length by assumption; reflexivity].
  apply (strftime_seconds_inj t u Vt Vu) in E1.
  rewrite !append_char in E2. injection E2 as E2.
  apply datetime_eq; [exact E1|].
  destruct Vt as (_ & _ & _ & _ & _ & _ & Mt).
  destruct Vu as (_ & _ & _ & _ & _ & _ & Mu).
  apply (format_d_inj 6); [lia|lia|exact E2].
Qed.

(** X3.  The scratch file of a call is named after the clock reading to
    the microsecond: two calls get the same scratch file name exactly
    when their clock readings coincide in every field, microseconds
    included.  (Unlike the subtitle documents, two calls within the same
    second do not share a scratch file.) *)
Theorem X3_scratch_name_by_microsecond (e1 e2 : env) :
  valid_datetime (now_preprocess e1) -> valid_datetime (now_preprocess e2) ->
  (temp_output_name e1 = temp_output_name e2 <->
   now_preprocess e1 = now_preprocess e2).
Proof.
  intros V1 V2. unfold temp_output_name. split.
  - intros E. apply append_cancel_l in E. apply append_cancel_r in E.
    apply strftime_micros_inj; assumption.
  - intros ->. reflexivity.
Qed.

Lemma X3_scratch_name_by_microsecond_witness :
  let e1 := sample_env true (RunCompletes None) true 0 in
  let e2 := at_preprocess (sample_clock 250001) e1 in
  now_preprocess e1 <> now_preprocess e2 /\
  same_second (now_preprocess e1) (now_preprocess e2) /\
  temp_output_name e1 = "preprocessed_audio_20240517_093015_250000.mp3" /\
  temp_output_name e2 = "preprocessed_audio_20240517_093015_250001.mp3" /\
  temp_output_name e1 <> temp_output_name e2.
Proof.
  intros e1 e2.
  assert (now_preprocess e1 <> now_preprocess e2) as D by discriminate.
  split; [exact D|]. split; [repeat split|]. split; [reflexivity|].
  split; [reflexivity|].
  intros E. apply D.
  apply (proj1 (X3_scratch_name_by_microsecond e1 e2
                  ltac:(unfold valid_datetime; simpl; lia)
                  ltac:(unfold valid_datetime; simpl; lia))).
  exact E.
Defined.

End ScratchNameFacts.

(** ** Documents of longer transcripts, and the collected text *)
Section TranscriptFacts.
Import Py PyFloat PyFormat Timecode Subtitle Runtime Pipeline Transcript.

Lemma join_app (a b : list string) : join (a ++ b)%list = join a ++ join b.
Proof.
  induction a as [|x a IH]; [reflexivity|].
  cbn [app]. rewrite !join_cons, IH, append_assoc. reflexivity.
Qed.

Lemma enumerate_app {A} (start : Z) (a b : list A) :
  enumerate start (a ++ b)%list =
  (enumerate start a ++ enumerate (start + Z.of_nat (length a)) b)%list.
Proof.
  revert start. induction a as [|x a IH]; intros start.
  - simpl. rewrite Z.add_0_r. reflexivity.
  - cbn [app enumerate length]. rewrite IH. cbn [app]. do 3 f_equal. lia.
Qed.

Lemma srt_blocks_app (start : Z) (a b : list segment) :
  srt_blocks start (a ++ b)%list =
  (srt_blocks start a ++ srt_blocks (start + Z.of_nat (length a)) b)%list.
Proof. unfold srt_blocks. rewrite enumerate_app, map_app. reflexivity. Qed.

(** X4.  Documents grow by appending: the document of a transcript
    followed by further segments is the document of the transcript
    followed by the blocks of the further segments; in Format B their
    index lines continue the count, the first being the number of
    earlier segments plus one.  No earlier block is changed. *)
Theorem X4_documents_extend (a b : list segment) :
  _generate_vtt_content (a ++ b)%list =
    _generate_vtt_content a ++ join (map vtt_block b) /\
  _generate_srt_content (a ++ b)%list =
    _generate_srt_content a ++ join (srt_blocks (1 + Z.of_nat (length a)) b).
Proof.
  split.
  - unfold _generate_vtt_content. rewrite !vtt_loop, map_app, join_app.
    rewrite !append_assoc. reflexivity.
  - unfold _generate_srt_content. rewrite !srt_loop, srt_blocks_app, join_app.
    reflexivity.
Qed.

Lemma collect_loop (raw : list raw_segment) (acc : list segment) (text : string) :
  fold_left
    (fun '(subtitle_segments, full_text) segment =>
       ((subtitle_segments ++ [ {| seg_start := raw_start segment;
                                   seg_end := raw_end segment;
                                   seg_text := strip (raw_text segment) |} ])%list,
        full_text ++ strip (raw_text segment) ++ " "))
    raw (acc, text)
  = ((acc ++ map stripped raw)%list,
     text ++ join (map (fun r => strip (raw_text r) ++ " ") raw)).
Proof.
  revert acc text. induction raw as [|r raw IH]; intros acc text.
  - simpl. rewrite List.app_nil_r, append_empty_r. reflexivity.
  - cbn [fold_left map]. rewrite IH, join_cons, <- List.app_assoc, !append_assoc.
    reflexivity.
Qed.


(** *** White space at the ends *)

Lemma is_space_start (c : ascii) : is_space c = true -> continuation c = false.
Proof.
  unfold is_space, continuation.
  rewrite !orb_true_iff, !andb_true_iff, !Nat.eqb_eq, !Nat.leb_le.
  intros H. apply andb_false_iff. rewrite !Nat.leb_gt. lia.
Qed.

Lemma is_space2_cont (c d : ascii) : is_space2 c d = true -> continuation d = true.
Proof.
  unfold is_space2, continuation.
  rewrite !andb_true_iff, !orb_true_iff, !Nat.eqb_eq, !Nat.leb_le. lia.
Qed.

Lemma is_space3_cont (c d f : ascii) :
  is_space3 c d f = true -> continuation d = true /\ continuation f = true.
Proof.
  unfold is_space3, continuation. cbv zeta.
  rewrite !orb_true_iff, !andb_true_iff, !orb_true_iff, !andb_true_iff,
    !Nat.eqb_eq, !Nat.leb_le. lia.
Qed.

Lemma is_space2_start (c d : ascii) : is_space2 c d = true -> continuation c = false.
Proof.
  unfold is_space2, continuation.
  rewrite !andb_true_iff, !Nat.eqb_eq. intros [H _].
  apply andb_false_iff. rewrite !Nat.leb_gt. lia.
Qed.

Lemma is_space3_start (c d f : ascii) : is_space3 c d f = true -> continuation c = false.
Proof.
  unfold is_space3, continuation. cbv zeta.
  rewrite !orb_true_iff, !andb_true_iff, !orb_true_iff, !andb_true_iff,
    !Nat.eqb_eq, !Nat.leb_le.
  intros H. apply andb_false_iff. rewrite !Nat.leb_gt. lia.
Qed.

Lemma space_width_le (s : string) : (space_width s <= String.length s)%nat.
Proof.
  destruct s as [|c [|d [|f s]]]; simpl; try lia.
  - destruct (is_space c); lia.
  - destruct (is_space c); [lia|]. destruct (is_space2 c d); lia.
  - destruct (is_space c); [lia|]. destruct (is_space2 c d); [lia|].
    destruct (is_space3 c d f); lia.
Qed.

(** White space at the head of a text is white space at the head of
    every text that extends it. *)
Lemma space_width_app (a b : string) (k : nat) :
  space_width a = S k -> space_width (a ++ b) = S k.
Proof.
  destruct a as [|c [|d [|f a]]]; rewrite ?append_String, ?append_empty_l.
  - discriminate.
  - simpl. destruct (is_space c); [auto|discriminate].
  - simpl. destruct (is_space c); [auto|].
    destruct (is_space2 c d); [auto|discriminate].
  - simpl. auto.
Qed.

(** A white-space character at the head of [x ++ b] does not reach into
    [b] when [b] starts with the first byte of a character. *)
Lemma space_width_no_straddle (x b : string) (j : nat) :
  x <> "" -> aligned b = true ->
  space_width (x ++ b) = S j -> space_width x = S j.
Proof.
  intros Hx Hb.
  destruct x as [|c [|d [|f x]]]; rewrite ?append_String, ?append_empty_l.
  - contradiction.
  - simpl. destruct (is_space c); [auto|].
    destruct b as [|d [|f b]]; [discriminate| |].
    + destruct (is_space2 c d) eqn:E2; [|discriminate].
      apply is_space2_cont in E2. simpl in Hb. rewrite E2 in Hb. discriminate.
    + destruct (is_space2 c d) eqn:E2.
      * apply is_space2_cont in E2. simpl in Hb. rewrite E2 in Hb. discriminate.
      * destruct (is_space3 c d f) eqn:E3; [|discriminate].
        apply is_space3_cont in E3 as [E3 _]. simpl in Hb. rewrite E3 in Hb.
        discriminate.
  - simpl. destruct (is_space c); [auto|].
    destruct (is_space2 c d); [auto|].
    destruct b as [|f b]; [discriminate|].
    destruct (is_space3 c d f) eqn:E3; [|discriminate].
    apply is_space3_cont in E3 as [_ E3]. simpl in Hb. rewrite E3 in Hb. discriminate.
  - simpl. auto.
Qed.

Lemma space_width_aligned (s : string) (k : nat) :
  space_width s = S k -> aligned s = true.
Proof.
  destruct s as [|c [|d [|f s]]]; simpl; [discriminate| | |].
  - destruct (is_space c) eqn:E; [|discriminate].
    intros _. rewrite (is_space_start c E). reflexivity.
  - destruct (is_space c) eqn:E; [intros _; rewrite (is_space_start c E); reflexivity|].
    destruct (is_space2 c d) eqn:E2; [|discriminate].
    intros _. rewrite (is_space2_start c d E2). reflexivity.
  - destruct (is_space c) eqn:E; [intros _; rewrite (is_space_start c E); reflexivity|].
    destruct (is_space2 c d) eqn:E2;
      [intros _; rewrite (is_space2_start c d E2); reflexivity|].
    destruct (is_space3 c d f) eqn:E3; [|discriminate].
    intros _. rewrite (is_space3_start c d f E3). reflexivity.
Qed.

Lemma drop_spaces_0 (c : ascii) (s : string) :
  drop_spaces 0 (String c s) =
  match space_width (String c s) with
  | O => String c s
  | S more => drop_spaces more s
  end.
Proof. reflexivity. Qed.

Lemma drop_spaces_S (k : nat) (c : ascii) (s : string) :
  drop_spaces (S k) (String c s) = drop_spaces k s.
Proof. reflexivity. Qed.

Lemma blank_true (s : string) : blank s = true <-> lstrip s = "".
Proof. unfold blank. apply String.eqb_eq. Qed.

Lemma blank_aligned (s : string) : blank s = true -> aligned s = true.
Proof.
  rewrite blank_true. destruct s as [|c s]; [reflexivity|].
  unfold lstrip. rewrite drop_spaces_0.
  destruct (space_width (String c s)) eqn:E; [discriminate|].
  intros _. exact (space_width_aligned _ _ E).
Qed.

(** White space followed by a text: the white space goes. *)
Lemma drop_spaces_app_blank (a b : string) (k : nat) :
  (k <= String.length a)%nat -> drop_spaces k a = "" ->
  drop_spaces k (a ++ b) = drop_spaces 0 b.
Proof.
  revert k. induction a as [|c a IH]; intros k Hk H.
  - simpl in Hk. replace k with O by lia. reflexivity.
  - rewrite append_String. destruct k as [|k].
    + rewrite drop_spaces_0 in H.
      destruct (space_width (String c a)) as [|m] eqn:E; [discriminate|].
      pose proof (space_width_le (String c a)) as Le. rewrite E in Le. simpl in Le.
      rewrite drop_spaces_0.
      pose proof (space_width_app (String c a) b m E) as E'.
      rewrite append_String in E'. rewrite E'.
      apply IH; [lia|exact H].
    + rewrite drop_spaces_S in *. simpl in Hk. apply IH; [lia|exact H].
Qed.

(** A text followed by a text that starts with a character: when the
    whole is white space, so are both parts. *)
Lemma drop_spaces_app_aligned (x b : string) (k : nat) :
  (k <= String.length x)%nat -> aligned b = true ->
  drop_spaces k (x ++ b) = "" ->
  drop_spaces k x = "" /\ drop_spaces 0 b = "".
Proof.
  intros Hk Hb. revert k Hk. induction x as [|c x IH]; intros k Hk H.
  - simpl in Hk. replace k with O in * by lia. rewrite append_empty_l in H. auto.
  - rewrite append_String in H. destruct k as [|k].
    + rewrite drop_spaces_0 in H.
      destruct (space_width (String c (x ++ b))) as [|m] eqn:E; [discriminate|].
      rewrite <- append_String in E.
      apply space_width_no_straddle in E; [|discriminate|exact Hb].
      pose proof (space_width_le (String c x)) as Le. rewrite E in Le. simpl in Le.
      rewrite drop_spaces_0, E. apply IH; [lia|exact H].
    + rewrite drop_spaces_S in *. simpl in Hk. apply IH; [lia|exact H].
Qed.

Lemma blank_app (a b : string) :
  aligned b = true -> blank (a ++ b) = (blank a && blank b)%bool.
Proof.
  intros Hb. apply eq_true_iff_eq. rewrite andb_true_iff, !blank_true. unfold lstrip.
  split.
  - intros H. apply (drop_spaces_app_aligned a b 0); [lia|exact Hb|exact H].
  - intros [Ha Hbb]. rewrite drop_spaces_app_blank; [exact Hbb|lia|exact Ha].
Qed.

Lemma head_ok_spec (s : string) : head_ok s = true <-> s <> "" /\ space_width s = 0%nat.
Proof.
  unfold head_ok. rewrite andb_true_iff, negb_true_iff, String.eqb_neq, Nat.eqb_eq.
  reflexivity.
Qed.

Lemma lstrip_head (s : string) : head_ok s = true -> lstrip s = s.
Proof.
  rewrite head_ok_spec. intros [Hn Hw]. destruct s as [|c s]; [contradiction|].
  unfold lstrip. rewrite drop_spaces_0, Hw. reflexivity.
Qed.

Lemma drop_spaces_cases (s : string) (k : nat) :
  drop_spaces k s = "" \/ head_ok (drop_spaces k s) = true.
Proof.
  revert k. induction s as [|c s IH]; intros k; [left; destruct k; reflexivity|].
  destruct k as [|k]; [|rewrite drop_spaces_S; apply IH].
  rewrite drop_spaces_0. destruct (space_width (String c s)) eqn:E; [|apply IH].
  right. apply head_ok_spec. split; [discriminate|exact E].
Qed.

Lemma lstrip_cases (s : string) : lstrip s = "" \/ head_ok (lstrip s) = true.
Proof. apply drop_spaces_cases. Qed.

Lemma head_ok_not_blank (s : string) : head_ok s = true -> blank s = false.
Proof.
  intros H. unfold blank. rewrite (lstrip_head s H). apply String.eqb_neq.
  apply head_ok_spec in H. tauto.
Qed.

Lemma rstrip_unfold (c : ascii) (s : string) :
  rstrip (String c s) = if blank (String c s) then "" else String c (rstrip s).
Proof. reflexivity. Qed.

(** What [rstrip] cuts off is white space. *)
Lemma rstrip_tail (s : string) : exists t, s = rstrip s ++ t /\ blank t = true.
Proof.
  induction s as [|c s (t & E & B)]; [exists ""; split; reflexivity|].
  rewrite rstrip_unfold. destruct (blank (String c s)) eqn:Bs.
  - exists (String c s). split; [reflexivity|exact Bs].
  - exists t. rewrite append_String, <- E. auto.
Qed.

Lemma rstrip_blank (s : string) : blank s = true -> rstrip s = "".
Proof. destruct s as [|c s]; [reflexivity|]. rewrite rstrip_unfold. intros ->. reflexivity. Qed.

Lemma rstrip_app_blank (a b : string) : blank b = true -> rstrip (a ++ b) = rstrip a.
Proof.
  intros Hb. induction a as [|c a IH]; [apply rstrip_blank; exact Hb|].
  rewrite append_String, !rstrip_unfold, <- append_String.
  rewrite (blank_app (String c a) b (blank_aligned b Hb)), Hb, andb_true_r, IH.
  reflexivity.
Qed.

Lemma rstrip_app_keep (a b : string) :
  aligned b = true -> blank b = false -> rstrip (a ++ b) = a ++ rstrip b.
Proof.
  intros Ha Hb. induction a as [|c a IH]; [reflexivity|].
  rewrite !append_String, rstrip_unfold, <- append_String.
  rewrite (blank_app (String c a) b Ha), Hb, andb_false_r, IH. reflexivity.
Qed.

Lemma rstrip_idem (s : string) : rstrip (rstrip s) = rstrip s.
Proof.
  induction s as [|c s IH]; [reflexivity|].
  rewrite rstrip_unfold. destruct (blank (String c s)) eqn:Bs; [reflexivity|].
  rewrite rstrip_unfold, IH.
  destruct (blank (String c (rstrip s))) eqn:Br; [|reflexivity].
  destruct (rstrip_tail s) as (t & E & Bt).
  assert (blank (String c s) = true) as K; [|congruence].
  rewrite E at 1. rewrite <- append_String.
  rewrite (blank_app _ t (blank_aligned t Bt)), Br, Bt. reflexivity.
Qed.

Lemma rstrip_head (s : string) : head_ok s = true -> head_ok (rstrip s) = true.
Proof.
  intros H. pose proof (head_ok_not_blank s H) as Nb.
  apply head_ok_spec in H as [Hn Hw]. apply head_ok_spec.
  destruct s as [|c s]; [contradiction|].
  rewrite rstrip_unfold, Nb. split; [discriminate|].
  destruct (rstrip_tail s) as (t & E & _).
  destruct (space_width (String c (rstrip s))) as [|k] eqn:W; [reflexivity|].
  apply (space_width_app _ t) in W. rewrite append_String, <- E in W. congruence.
Qed.

Lemma strip_cases (s : string) : strip s = "" \/ trimmed (strip s).
Proof.
  unfold strip, trimmed. destruct (lstrip_cases s) as [E|H].
  - left. rewrite E. reflexivity.
  - right. split; [apply rstrip_head; exact H|apply rstrip_idem].
Qed.

Lemma trimmed_nonempty (s : string) : trimmed s -> s <> "".
Proof. intros [H _]. apply head_ok_spec in H. tauto. Qed.

(** A text that starts without white space still does when a text that
    starts with a character is appended. *)
Lemma head_ok_app (a b : string) :
  aligned b = true -> head_ok a = true -> head_ok (a ++ b) = true.
Proof.
  intros Hb H. apply head_ok_spec in H as [Hn Hw]. apply head_ok_spec. split.
  - destruct a; [contradiction|]. rewrite append_String. discriminate.
  - destruct (space_width (a ++ b)) as [|j] eqn:E; [reflexivity|].
    apply space_width_no_straddle in E; [congruence|exact Hn|exact Hb].
Qed.

Lemma spaced_not_blank (s : string) : head_ok s = true -> blank (String " " s) = false.
Proof.
  intros H. pose proof (lstrip_head s H) as L. unfold lstrip in L.
  unfold blank, lstrip. rewrite drop_spaces_0.
  change (space_width (String " " s)) with 1%nat. cbv iota. rewrite L.
  apply String.eqb_neq. apply head_ok_spec in H. tauto.
Qed.

Lemma join_with_trimmed (l : list string) :
  l <> [] -> Forall trimmed l -> trimmed (join_with " " l).
Proof.
  induction l as [|x l IH]; [congruence|]. intros _ H.
  apply Forall_cons in H as [Hx Hl].
  destruct l as [|y l]; [exact Hx|].
  specialize (IH ltac:(discriminate) Hl).
  change (join_with " " (x :: y :: l)) with (x ++ " " ++ join_with " " (y :: l)).
  destruct IH as [Ih Ir].
  rewrite append_char. split.
  - apply head_ok_app; [reflexivity|apply Hx].
  - rewrite rstrip_app_keep; [|reflexivity|apply spaced_not_blank; exact Ih].
    rewrite rstrip_unfold, (spaced_not_blank _ Ih), Ir. reflexivity.
Qed.

Lemma join_spaced (l : list string) :
  l <> [] -> join (map (fun t => t ++ " ") l) = join_with " " l ++ " ".
Proof.
  induction l as [|x l IH]; [congruence|]. intros _.
  destruct l as [|y l].
  - simpl. rewrite append_empty_r. reflexivity.
  - cbn [map]. rewrite join_cons. cbn [map] in IH. rewrite IH by discriminate.
    change (join_with " " (x :: y :: l)) with (x ++ " " ++ join_with " " (y :: l)).
    rewrite !append_assoc. reflexivity.
Qed.

Lemma strip_spaced (l : list string) :
  Forall trimmed l -> strip (join (map (fun t => t ++ " ") l)) = join_with " " l.
Proof.
  intros H. destruct l as [|x l]; [reflexivity|].
  rewrite join_spaced by discriminate.
  destruct (join_with_trimmed (x :: l) ltac:(discriminate) H) as [Jh Jr].
  unfold strip. rewrite lstrip_head by (apply head_ok_app; [reflexivity|exact Jh]).
  rewrite rstrip_app_blank by reflexivity. exact Jr.
Qed.

(** X5.  The loop over the recognised segments keeps their number, their
    order and their instants, and strips the white space around each
    text.  When no text is blank, the text of the transcript is the
    stripped texts joined by single spaces, with nothing before the
    first or after the last. *)
Theorem X5_collected_transcript (raw : list raw_segment) :
  fst (collect raw) = map stripped raw /\
  length (fst (collect raw)) = length raw /\
  (forall (n : nat) (r : raw_segment),
     raw !! n = Some r ->
     exists s, fst (collect raw) !! n = Some s /\
               seg_start s = raw_start r /\ seg_end s = raw_end r /\
               seg_text s = strip (raw_text r)) /\
  ((forall r, r ∈ raw -> strip (raw_text r) <> "") ->
   strip (snd (collect raw)) = join_with " " (map (fun r => strip (raw_text r)) raw)).
Proof.
  unfold collect. rewrite collect_loop. cbn [fst snd app].
  split; [reflexivity|]. split; [apply length_map|]. split.
  - intros n r H. exists (stripped r). rewrite list_lookup_fmap, H. auto.
  - intros H. rewrite append_empty_l.
    rewrite <- (strip_spaced (map (fun r => strip (raw_text r)) raw)).
    + rewrite map_map. reflexivity.
    + apply Forall_forall. intros t Ht.
      apply list_elem_of_In in Ht. apply in_map_iff in Ht as (r & <- & Hr).
      destruct (strip_cases (raw_text r)) as [E|T]; [|exact T].
      exfalso. apply (H r); [apply list_elem_of_In; exact Hr|exact E].
Qed.

Lemma X5_collected_transcript_witness :
  fst (collect [ {| raw_start := 0%Q; raw_end := 3%Q; raw_text := " A " |};
                 {| raw_start := 3%Q; raw_end := 5%Q; raw_text := "　B　" |} ]) =
    map stripped [ {| raw_start := 0%Q; raw_end := 3%Q; raw_text := " A " |};
                   {| raw_start := 3%Q; raw_end := 5%Q; raw_text := "　B　" |} ] /\
  strip (snd (collect [ {| raw_start := 0%Q; raw_end := 3%Q; raw_text := " A " |};
                        {| raw_start := 3%Q; raw_end := 5%Q; raw_text := "　B　" |} ])) =
    "A B".
Proof.
  destruct (X5_collected_transcript
              [ {| raw_start := 0%Q; raw_end := 3%Q; raw_text := " A " |};
                {| raw_start := 3%Q; raw_end := 5%Q; raw_text := "　B　" |} ])
    as (H1 & _ & _ & H4).
  split; [exact H1|]. rewrite H4; [reflexivity|].
  intros r Hr.
  apply elem_of_cons in Hr as [->|Hr]; [discriminate|].
  apply elem_of_cons in Hr as [->|Hr]; [discriminate|].
  inversion Hr.
Defined.

End TranscriptFacts.

(** ** The service object over its life *)
Section ServiceFacts.
Import Py Runtime Pipeline Service.

Lemma consistent_init (e : Runtime.env) (initial_format : string) (file : config_file) :
  consistent e (init e initial_format file).
Proof.
  assert (current_model (init e initial_format file) = None /\
          constructor_log (init e initial_format file) = []) as [Hm Hl].
  { unfold init, _load_config. cbn [model_config_file]. destruct file as [| |config].
    - match goal with |- context [_save_config e ?s] =>
        destruct (save_config_keeps e s) as (-> & _ & _ & -> & _) end.
      auto.
    - auto.
    - cbv zeta.
      match goal with |- context [if ?c then _ else _] => destruct c end; auto. }
  unfold consistent, models_built. rewrite Hm, Hl.
  split_and!; [discriminate|reflexivity|reflexivity].
Qed.

Lemma consistent_failed_call (e : Runtime.env) (src : model_source) (st : state) :
  WhisperModel e <> None ->
  consistent e st -> consistent e (log_constructor_call src false st).
Proof.
  intros W (Hh & Hn & Hw). split_and!.
  - cbn [log_constructor_call current_model constructor_log current_model_name].
    intros h Hc. destruct (Hh h Hc) as (c & before & s0 & after & Ec & El & Ef & Eb & En).
    exists c, before, s0, (after ++ [(src, false)])%list.
    split; [exact Ec|]. split; [rewrite El, <- List.app_assoc; reflexivity|].
    split; [|split; assumption].
    apply Forall_app. split; [exact Ef|]. apply Forall_singleton. reflexivity.
  - intros Hc. rewrite models_built_log. cbn [log_constructor_call current_model] in Hc.
    rewrite (Hn Hc). reflexivity.
  - intros K. contradiction.
Qed.

Lemma consistent_load (e : Runtime.env) (model_name : string) (st : state) :
  consistent e st -> consistent e (snd (_load_model e model_name st)).
Proof.
  intros C. unfold _load_model, _load_model_try.
  destruct (WhisperModel e) as [construct|] eqn:W; [|exact C].
  destruct (resident st && String.eqb (current_model_name st) model_name)%bool; [exact C|].
  assert (forall src,
    consistent e
      (snd (let '(r, st') :=
              match construct (constructor_calls st) src with
              | Some h =>
                  (Returned true,
                   _save_config e
                     (set_model_name model_name
                        (set_model h (log_constructor_call src true st))))
              | None => (Raised "WhisperModel", log_constructor_call src false st)
              end in
            match r with
            | Returned b => (b, st')
            | Raised _ => (false, st')
            end)) \/ source_name src <> model_name) as Build.
  { intros src. destruct (decide (source_name src = model_name)) as [Es|]; [left|right; auto].
    destruct (construct (constructor_calls st) src) as [h|] eqn:K; cbn [snd].
    - fold (loaded e model_name src h st).
      destruct (loaded_fields e model_name src h st) as (Lm & Ln & Ll & _).
      split_and!.
      + intros h' Hc. rewrite Lm in Hc. injection Hc as <-.
        exists construct, (constructor_log st), src, [].
        split_and!; auto.
        rewrite Ln. exact Es.
      + rewrite Lm. discriminate.
      + rewrite W. discriminate.
    - apply consistent_failed_call; [rewrite W; discriminate|exact C]. }
  destruct (local_model_present e model_name).
  - destruct (Build (LocalDirectory model_name)) as [H|H]; [|contradiction H; reflexivity].
    destruct (construct (constructor_calls st) (LocalDirectory model_name)); exact H.
  - destruct (model_dir_mkdir_ok e); [|exact C].
    destruct (Build (Download model_name)) as [H|H]; [|contradiction H; reflexivity].
    destruct (construct (constructor_calls st) (Download model_name)); exact H.
Qed.

Lemma select_model_state (e : Runtime.env) (model_name : string) (st : state) :
  snd (select_model e model_name st) = st \/
  snd (select_model e model_name st) = snd (_load_model e model_name st).
Proof.
  unfold select_model.
  destruct (negb (str_in model_name WHISPER_AVAILABLE_MODELS)); [left; reflexivity|].
  destruct (_load_model e model_name st) as [[|] st']; right; reflexivity.
Qed.

Lemma choose_model_state (e : Pipeline.env) (model_name : option string) (w : world) :
  service (snd (choose_model e model_name w)) = service w \/
  exists m, service (snd (choose_model e model_name w)) =
            snd (_load_model (runtime_env e) m (service w)).
Proof.
  destruct (choose_model_shape e model_name w) as [->|(m & -> & _)];
    [left; reflexivity|right; exists m; reflexivity].
Qed.

(** The only thing a transcription call does to the service object is
    the model selection at its head. *)
Lemma extract_subtitle_service (e : Pipeline.env) (file_path : path)
    (model_name : option string) (language : string) (w : world) :
  service (snd (extract_subtitle e file_path model_name language w)) = service w \/
  service (snd (extract_subtitle e file_path model_name language w)) =
    service (snd (choose_model e model_name w)).
Proof.
  rewrite extract_subtitle_unfold. cbv zeta. rewrite finally_service.
  pose proof (extract_subtitle_try_shape e file_path model_name language w) as S.
  cbv zeta in S. destruct S as [S|S]; [right; exact S|left].
  unfold extract_subtitle_try. rewrite S. reflexivity.
Qed.

Lemma reachable_consistent (e : Pipeline.env) (initial_format : string)
    (file : config_file) (st : state) :
  reachable e initial_format file st -> consistent (runtime_env e) st.
Proof.
  induction 1 as [|m st _ IH|m st _ IH|fp m lang w _ IH].
  - apply consistent_init.
  - apply consistent_load. exact IH.
  - destruct (select_model_state (runtime_env e) m st) as [-> | ->];
      [exact IH|apply consistent_load; exact IH].
  - destruct (extract_subtitle_service e fp m lang w) as [-> | ->]; [exact IH|].
    destruct (choose_model_state e m w) as [-> | [m' ->]];
      [exact IH|apply consistent_load; exact IH].
Qed.

Lemma last_built_split (st : state) (before after : list (model_source * bool))
    (src : model_source) :
  constructor_log st = (before ++ (src, true) :: after)%list ->
  Forall (fun c => snd c = false) after ->
  last_built st = Some src /\ (0 < models_built st)%nat.
Proof.
  intros El Ef. unfold last_built, models_built. rewrite El. split.
  - rewrite rev_app_distr. cbn [rev]. rewrite <- List.app_assoc, filter_app.
    assert (filter (fun c : model_source * bool => snd c = true) (rev after) = []) as ->.
    { clear El. induction Ef as [|c after Hc _ IH]; [reflexivity|].
      cbn [rev]. rewrite filter_app, IH.
      rewrite filter_cons_False by (rewrite Hc; discriminate). reflexivity. }
    reflexivity.
  - rewrite filter_app, length_app, filter_cons_True by reflexivity. simpl. lia.
Qed.

End ServiceFacts.

(** ** Invariants of the runtime, and the selection record *)
Section RuntimeInvariants.
Import Py Runtime Pipeline Service.

(** X6.  In every state the service object reaches (from a process
    start, through loads, model selections and transcription calls) the
    handle and the identifier agree: a resident handle is the model the
    constructor built at its latest successful call, and that call was
    made for the current identifier.  A handle is resident exactly when
    some constructor call has built a model, and never when the
    recognition backend is missing. *)
Theorem X6_handle_matches_identifier (e : Pipeline.env) (initial_format : string)
    (file : config_file) (st : state) :
  reachable e initial_format file st ->
  consistent (runtime_env e) st /\
  (resident st = true <-> (0 < models_built st)%nat) /\
  (resident st = true ->
   exists src, last_built st = Some src /\ source_name src = current_model_name st) /\
  (WhisperModel (runtime_env e) = None -> resident st = false).
Proof.
  intros R. pose proof (reachable_consistent e initial_format file st R) as C.
  split; [exact C|]. destruct C as (Hh & Hn & Hw). unfold resident.
  destruct (current_model st) as [h|] eqn:M.
  - destruct (Hh h eq_refl) as (c & before & src & after & Ec & El & Ef & Eb & En).
    destruct (last_built_split st before after src El Ef) as [Lb Lm].
    split_and!.
    + split; auto.
    + intros _. exists src. auto.
    + intros W. rewrite W in Ec. discriminate.
  - rewrite (Hn eq_refl). split_and!.
    + split; [discriminate|lia].
    + discriminate.
    + reflexivity.
Qed.

Lemma X6_handle_matches_identifier_witness :
  consistent (runtime_env (Pipeline.sample_env true (RunCompletes None) true 0))
    (snd (_load_model (runtime_env (Pipeline.sample_env true (RunCompletes None) true 0))
            "large-v3-turbo"
            (init (runtime_env (Pipeline.sample_env true (RunCompletes None) true 0))
               "vtt" NoFile))) /\
  last_built
    (snd (_load_model (runtime_env (Pipeline.sample_env true (RunCompletes None) true 0))
            "large-v3-turbo"
            (init (runtime_env (Pipeline.sample_env true (RunCompletes None) true 0))
               "vtt" NoFile))) = Some (LocalDirectory "large-v3-turbo").
Proof.
  destruct (X6_handle_matches_identifier
              (Pipeline.sample_env true (RunCompletes None) true 0) "vtt" NoFile
              (snd (_load_model
                      (runtime_env (Pipeline.sample_env true (RunCompletes None) true 0))
                      "large-v3-turbo"
                      (init (runtime_env
                               (Pipeline.sample_env true (RunCompletes None) true 0))
                         "vtt" NoFile))))
    as (C & _).
  - apply reach_load. apply reach_init.
  - split; [exact C|reflexivity].
Defined.

(** X7.  What one process saves, the next one resumes.  After the
    selection record has been written for a state, a process start that
    finds this record takes over its model identifier, whatever it is
    (it is not checked against the registry), and its subtitle format if
    that is an allowed one, keeping its own configured format otherwise.
    The start loads no model and leaves the record as it found it. *)
Theorem X7_selection_record_round_trip (e e' : Runtime.env) (st : state)
    (initial_format : string) :
  config_write_ok e (write_attempts st) = true ->
  let st' := init e' initial_format (model_config_file (_save_config e st)) in
  current_model_name st' = current_model_name st /\
  SUBTITLE_OUTPUT_FORMAT st' =
    (if str_in (SUBTITLE_OUTPUT_FORMAT st) SUBTITLE_AVAILABLE_FORMATS
     then SUBTITLE_OUTPUT_FORMAT st else initial_format) /\
  current_model st' = None /\
  write_attempts st' = 0%nat /\
  model_config_file st' = model_config_file (_save_config e st).
Proof.
  intros Hw st'. subst st'.
  destruct (save_config_written e st Hw) as (config & Ef & En & Efmt).
  rewrite Ef. unfold init, _load_config. cbn [model_config_file]. cbv zeta.
  unfold get. rewrite En. cbn [set_model_name SUBTITLE_OUTPUT_FORMAT]. rewrite Efmt.
  destruct (str_in (SUBTITLE_OUTPUT_FORMAT st) SUBTITLE_AVAILABLE_FORMATS);
    split_and!; reflexivity.
Qed.

Lemma X7_selection_record_round_trip_witness :
  current_model_name
    (init (Runtime.sample_env None) "vtt"
       (model_config_file (_save_config (Runtime.sample_env (Some always_builds))
                             (set_format "SRT" (set_model_name "tiny" base_loaded)))))
    = "tiny" /\
  SUBTITLE_OUTPUT_FORMAT
    (init (Runtime.sample_env None) "vtt"
       (model_config_file (_save_config (Runtime.sample_env (Some always_builds))
                             (set_format "SRT" (set_model_name "tiny" base_loaded)))))
    = "vtt".
Proof.
  destruct (X7_selection_record_round_trip
              (Runtime.sample_env (Some always_builds)) (Runtime.sample_env None)
              (set_format "SRT" (set_model_name "tiny" base_loaded)) "vtt")
    as (H1 & H2 & _).
  - reflexivity.
  - split; [exact H1|exact H2].
Defined.



End RuntimeInvariants.

(** ** The registry listing and the download probe *)
Section RegistryFacts.
Import Py Runtime Pipeline Service Registry.

(** X9.  The listing of the registry has one descriptor per registered
    identifier, in the order of the registry.  A descriptor is flagged
    current exactly when its name is the identifier [get_current_model]
    reports, in which case both report the same display name and size;
    at most one descriptor is flagged, and none is when the current
    identifier is not a registered one. *)
Theorem X9_registry_listing (e : Runtime.env) (p : probes) (st : state) :
  map name (get_available_models e p st) = WHISPER_AVAILABLE_MODELS /\
  (forall d, d ∈ get_available_models e p st ->
     (is_current d = true <-> name d = info_name (get_current_model st)) /\
     (is_current d = true ->
      display_name d = info_display_name (get_current_model st) /\
      size d = info_size (get_current_model st)) /\
     is_downloaded d = _is_model_downloaded e p (name d)) /\
  (length (filter (fun d => is_current d = true) (get_available_models e p st)) <= 1)%nat /\
  (str_in (current_model_name st) WHISPER_AVAILABLE_MODELS = false <->
   forall d, d ∈ get_available_models e p st -> is_current d = false).
Proof.
  unfold get_available_models, WHISPER_AVAILABLE_MODELS, get_current_model.
  cbn [map info_name info_display_name info_size].
  split; [reflexivity|]. split.
  { intros d Hd.
    assert (is_current d = String.eqb (name d) (current_model_name st) /\
            display_name d = _get_model_display_name (name d) /\
            size d = _get_model_size (name d) /\
            is_downloaded d = _is_model_downloaded e p (name d)) as (Hc & Hn & Hs & Hdl).
    { apply elem_of_cons in Hd as [->|Hd]; [cbn; auto|].
      apply elem_of_cons in Hd as [->|Hd]; [cbn; auto|]. inversion Hd. }
    rewrite Hc, String.eqb_eq. split; [reflexivity|]. split; [|exact Hdl].
    intros <-. auto. }
  split.
  { rewrite !filter_cons, filter_nil. cbn [is_current].
    destruct (decide (String.eqb "base" (current_model_name st) = true)) as [E1|N1];
      destruct (decide (String.eqb "large-v3-turbo" (current_model_name st) = true))
        as [E2|N2]; cbn [length]; try lia.
    apply String.eqb_eq in E1, E2. rewrite <- E1 in E2. discriminate. }
  unfold str_in. cbn [existsb]. rewrite orb_false_r, orb_false_iff.
  rewrite (String.eqb_sym (current_model_name st) "base"),
    (String.eqb_sym (current_model_name st) "large-v3-turbo").
  split.
  - intros [E1 E2] d Hd.
    apply elem_of_cons in Hd as [->|Hd]; [exact E1|].
    apply elem_of_cons in Hd as [->|Hd]; [exact E2|]. inversion Hd.
  - intros H. split.
    + apply (H {| name := "base"; display_name := _get_model_display_name "base";
                  size := _get_model_size "base";
                  language := if negb (endswith "base" ".en")
                              then "multilingual" else "english";
                  is_current := String.eqb "base" (current_model_name st);
                  is_downloaded := _is_model_downloaded e p "base" |}).
      left.
    + apply (H {| name := "large-v3-turbo";
                  display_name := _get_model_display_name "large-v3-turbo";
                  size := _get_model_size "large-v3-turbo";
                  language := if negb (endswith "large-v3-turbo" ".en")
                              then "multilingual" else "english";
                  is_current := String.eqb "large-v3-turbo" (current_model_name st);
                  is_downloaded := _is_model_downloaded e p "large-v3-turbo" |}).
      right. left.
Qed.

(** X10.  The download probe and the loader look at the local model
    directory differently.  When the directory is there, the probe
    answers by the presence of [config.json] alone and never consults
    the download cache, while a load that reaches the constructor always
    builds from the local directory, with or without [config.json].
    When the directory is missing, the probe answers by the cache: true
    exactly when the cache lists a directory whose lower-cased name
    contains the identifier, and false when the cache is missing or
    cannot be read. *)
Theorem X10_download_probe (e : Runtime.env) (p : probes) (model_name : string) :
  (local_model_present e model_name = true ->
   _is_model_downloaded e p model_name = local_config_json p model_name /\
   forall construct st,
     WhisperModel e = Some construct ->
     (resident st && String.eqb (current_model_name st) model_name)%bool = false ->
     exists built,
       constructor_log (snd (_load_model e model_name st)) =
       (constructor_log st ++ [(LocalDirectory model_name, built)])%list) /\
  (local_model_present e model_name = false ->
   match hub_cache p with
   | Returned (Some items) =>
       _is_model_downloaded e p model_name = true <->
       exists item, item ∈ items /\ item_is_dir item = true /\
                    contains model_name (lower (unicode_lower e) (item_name item)) = true
   | _ => _is_model_downloaded e p model_name = false
   end).
Proof.
  unfold _is_model_downloaded, _is_model_downloaded_try. split.
  - intros L. rewrite L. cbn [forallb]. rewrite andb_true_r. split; [reflexivity|].
    intros construct st W Hs. unfold _load_model, _load_model_try.
    rewrite W, Hs, L.
    destruct (construct (constructor_calls st) (LocalDirectory model_name)) as [h|].
    + exists true. cbn [snd].
      fold (loaded e model_name (LocalDirectory model_name) h st).
      destruct (loaded_fields e model_name (LocalDirectory model_name) h st)
        as (_ & _ & Ll & _). exact Ll.
    + exists false. reflexivity.
  - intros L. rewrite L. destruct (hub_cache p) as [[items|]|what]; try reflexivity.
    rewrite existsb_exists. split.
    + intros (item & Hi & Ht). apply andb_true_iff in Ht as [Hd Hc].
      exists item. rewrite list_elem_of_In. auto.
    + intros (item & Hi & Hd & Hc). exists item.
      rewrite <- list_elem_of_In, Hd, Hc. auto.
Qed.

Lemma X10_download_probe_witness :
  _is_model_downloaded (Runtime.sample_env (Some always_builds))
    {| local_config_json := fun _ => false;
       hub_cache := Returned (Some [ {| item_name := "models--Systran--faster-whisper-base";
                                        item_is_dir := true |} ]) |}
    "base" = false.
Proof.
  destruct (X10_download_probe (Runtime.sample_env (Some always_builds))
              {| local_config_json := fun _ => false;
                 hub_cache :=
                   Returned (Some [ {| item_name := "models--Systran--faster-whisper-base";
                                       item_is_dir := true |} ]) |}
              "base") as [H _].
  destruct (H eq_refl) as [E _]. exact E.
Defined.

End RegistryFacts.

(** ** Transcription calls from end to end *)
Section TranscriptionFacts.
Import Py Runtime Pipeline Service Registry Transcript.

Lemma with_service_same (w : world) : with_service (service w) w = w.
Proof. destruct w. reflexivity. Qed.

Lemma choose_model_degraded (e : Pipeline.env) (model_name : option string) (w : world) :
  WhisperModel (runtime_env e) = None -> choose_model e model_name w = (None, w).
Proof.
  intros W. unfold choose_model.
  rewrite !(load_model_world_skipped e _ w (or_introl W)).
  match goal with |- context [if ?c then _ else _] => destruct c end; [reflexivity|].
  destruct (negb (resident (service w))); reflexivity.
Qed.



(** X11.  Without the recognition backend every transcription call on
    an existing file is the canned one, whatever model and language are
    asked for: the three canned segments and their text, saved as a
    document; the service object is left as it was, no constructor call
    is made, and the model reported is the current identifier, not the one
    asked for. *)
Theorem X11_degraded_transcription (e : Pipeline.env) (file_path : path)
    (model_name : option string) (language : string) (w : world) :
  WhisperModel (runtime_env e) = None ->
  exists_ (fs w) file_path = true ->
  let r := extract_subtitle e file_path model_name language w in
  r = _mock_extract_subtitle e file_path w /\
  service (snd r) = service w /\
  success (fst r) = true /\
  exists t, payload (fst r) = Some t /\
            segments t = mock_segments /\
            model_used t = current_model_name (service w) /\
            subtitle_file t = fst (_save_subtitle_file e file_path mock_segments w).
Proof.
  intros W Hex r. subst r.
  assert (extract_subtitle e file_path model_name language w =
          _mock_extract_subtitle e file_path w) as E.
  { unfold extract_subtitle, extract_subtitle_try. rewrite Hex. cbn [negb].
    rewrite (choose_model_degraded e model_name w W), W.
    destruct (_mock_extract_subtitle e file_path w) as [r w']. reflexivity. }
  rewrite E. split; [reflexivity|].
  unfold _mock_extract_subtitle.
  pose proof (save_subtitle_file_keeps e file_path mock_segments w) as K.
  destruct (_save_subtitle_file e file_path mock_segments w) as [sf w1].
  cbv zeta in K. destruct K as (K & _). cbn [fst snd] in *.
  split; [exact K|]. split; [reflexivity|].
  eexists. split; [reflexivity|]. cbn. rewrite K. auto.
Qed.

Lemma X11_degraded_transcription_witness :
  extract_subtitle degraded_env sample_source (Some "large-v3-turbo") "en" sample_world
  = _mock_extract_subtitle degraded_env sample_source sample_world.
Proof.
  apply (X11_degraded_transcription degraded_env
           sample_source (Some "large-v3-turbo") "en" sample_world).
  - reflexivity.
  - reflexivity.
Defined.





End TranscriptionFacts.

(** ** File names: extensions, stems and safe names *)
Section NameFacts.
Import Py PyFormat Timecode Subtitle Correlator Pipeline FileStore.

Lemma rfind_dot_rfind (s : string) : rfind "." s = rfind_dot s.
Proof.
  induction s as [|x s IH]; [reflexivity|]. simpl. rewrite IH. reflexivity.
Qed.

Lemma rfind_lacks (c : ascii) (s : string) : lacks c s = true <-> rfind c s = None.
Proof.
  induction s as [|x s IH]; simpl; [tauto|].
  rewrite andb_true_iff, negb_true_iff, IH.
  destruct (rfind c s); destruct (Ascii.eqb x c); split; intros H;
    try discriminate; try tauto; destruct H; discriminate.
Qed.

Lemma rfind_app_lacks (c : ascii) (a b : string) :
  lacks c b = true -> rfind c (a ++ b) = rfind c a.
Proof.
  intros H. induction a as [|x a IH].
  - rewrite append_empty_l. apply rfind_lacks. exact H.
  - rewrite append_String. simpl. rewrite IH. reflexivity.
Qed.

Lemma rfind_app_at (c : ascii) (a r : string) :
  lacks c r = true -> rfind c (a ++ String c r) = Some (String.length a).
Proof.
  intros H. induction a as [|x a IH].
  - rewrite append_empty_l. simpl. apply rfind_lacks in H. rewrite H, Ascii.eqb_refl.
    reflexivity.
  - rewrite append_String. simpl. rewrite IH. reflexivity.
Qed.

Lemma rfind_Some_split (c : ascii) (s : string) (i : nat) :
  rfind c s = Some i ->
  exists a r, s = a ++ String c r /\ String.length a = i /\ lacks c r = true.
Proof.
  revert i. induction s as [|x s IH]; intros i; simpl; [discriminate|].
  destruct (rfind c s) as [j|] eqn:R.
  - intros [= <-]. destruct (IH j eq_refl) as (a & r & -> & <- & L).
    exists (String x a), r. rewrite append_String. auto.
  - destruct (Ascii.eqb_spec x c) as [->|N]; [|discriminate].
    intros [= <-]. exists "", s. rewrite append_empty_l.
    split; [reflexivity|]. split; [reflexivity|]. apply rfind_lacks. exact R.
Qed.

Lemma substring_0_all (s : string) : substring 0 (String.length s) s = s.
Proof. induction s as [|x s IH]; simpl; [reflexivity|]. rewrite IH. reflexivity. Qed.

Lemma substring_0_app (a b : string) : substring 0 (String.length a) (a ++ b) = a.
Proof.
  induction a as [|x a IH].
  - rewrite append_empty_l. destruct b; reflexivity.
  - rewrite append_String. simpl. rewrite IH. reflexivity.
Qed.

Lemma substring_skip_app (a b : string) (m : nat) :
  substring (String.length a) m (a ++ b) = substring 0 m b.
Proof.
  induction a as [|x a IH]; [reflexivity|].
  rewrite append_String. simpl. exact IH.
Qed.

Lemma from_app (a b : string) : from (String.length a) (a ++ b) = b.
Proof.
  unfold from. rewrite substring_skip_app, length_append.
  replace (String.length a + String.length b - String.length a)%nat
    with (String.length b) by lia.
  apply substring_0_all.
Qed.

Lemma length_substring_0 (n : nat) (s : string) :
  String.length (substring 0 n s) = Nat.min n (String.length s).
Proof.
  revert s. induction n as [|n IH]; intros s.
  - destruct s; reflexivity.
  - destruct s as [|x s]; [reflexivity|]. simpl. rewrite IH. reflexivity.
Qed.

(** [splitext] on a name without separator. *)
Lemma splitext_nodot (p : string) : lacks "." p = true -> splitext p = (p, "").
Proof.
  intros H. unfold splitext. apply rfind_lacks in H. rewrite H. reflexivity.
Qed.

Lemma splitext_split (a r : string) :
  lacks "/" (a ++ String "." r) = true -> lacks "." r = true ->
  splitext (a ++ String "." r) =
  if forallb (Ascii.eqb ".") (list_ascii_of_string a)
  then (a ++ String "." r, "")
  else (a, String "." r).
Proof.
  intros Hs Hd. unfold splitext.
  rewrite (rfind_app_at "." a r Hd).
  apply rfind_lacks in Hs. rewrite Hs. cbn [Nat.leb].
  rewrite Nat.sub_0_r, substring_0_app.
  destruct (forallb (Ascii.eqb ".") (list_ascii_of_string a)); [reflexivity|].
  rewrite from_app. reflexivity.
Qed.

(** The two parts [splitext] returns: together they are the name, and
    the extension is empty or a dot followed by a dot-free rest. *)
Lemma splitext_parts (p : string) :
  lacks "/" p = true ->
  fst (splitext p) ++ snd (splitext p) = p /\
  (snd (splitext p) = "" /\ fst (splitext p) = p \/
   exists r, snd (splitext p) = String "." r /\ lacks "." r = true /\
             forallb (Ascii.eqb ".") (list_ascii_of_string (fst (splitext p))) = false).
Proof.
  intros Hs. destruct (rfind "." p) as [i|] eqn:R.
  - destruct (rfind_Some_split "." p i R) as (a & r & -> & _ & Hd).
    rewrite (splitext_split a r Hs Hd).
    destruct (forallb (Ascii.eqb ".") (list_ascii_of_string a)) eqn:D; cbn [fst snd].
    + rewrite append_empty_r. auto.
    + split; [reflexivity|]. right. exists r. auto.
  - apply rfind_lacks in R. rewrite (splitext_nodot p R). cbn [fst snd].
    rewrite append_empty_r. auto.
Qed.

(** *** Safe characters *)

Lemma all_safe_app (a b : string) : all_safe (a ++ b) = (all_safe a && all_safe b)%bool.
Proof.
  unfold all_safe. induction a as [|x a IH]; [reflexivity|].
  rewrite append_String. simpl. rewrite IH. apply andb_assoc.
Qed.

Lemma all_safe_keep (s : string) : all_safe (keep_chars is_safe s) = true.
Proof.
  unfold all_safe. induction s as [|x s IH]; [reflexivity|]. simpl.
  destruct (is_safe x) eqn:E; [|exact IH]. simpl. rewrite E. exact IH.
Qed.

Lemma keep_safe (s : string) : all_safe s = true -> keep_chars is_safe s = s.
Proof.
  unfold all_safe. induction s as [|x s IH]; [reflexivity|]. simpl.
  intros H. apply andb_prop in H as [Hx Hs]. rewrite Hx, (IH Hs). reflexivity.
Qed.

Lemma all_safe_substring_0 (n : nat) (s : string) :
  all_safe s = true -> all_safe (substring 0 n s) = true.
Proof.
  unfold all_safe. revert s. induction n as [|n IH]; intros s H.
  - destruct s; reflexivity.
  - destruct s as [|x s]; [reflexivity|]. simpl in *.
    apply andb_prop in H as [Hx Hs]. rewrite Hx. apply IH. exact Hs.
Qed.

Lemma all_safe_lacks (c : ascii) (s : string) :
  is_safe c = false -> all_safe s = true -> lacks c s = true.
Proof.
  unfold all_safe. intros Hc. induction s as [|x s IH]; [reflexivity|]. simpl.
  intros H. apply andb_prop in H as [Hx Hs]. rewrite (IH Hs), andb_true_r.
  apply negb_true_iff. destruct (Ascii.eqb_spec x c) as [->|]; [congruence|reflexivity].
Qed.

Lemma all_safe_parts (p : string) :
  all_safe p = true ->
  all_safe (fst (splitext p)) = true /\ all_safe (snd (splitext p)) = true.
Proof.
  intros H.
  destruct (splitext_parts p (all_safe_lacks "/" p eq_refl H)) as [J _].
  rewrite <- J, all_safe_app in H. apply andb_prop in H. exact H.
Qed.

End NameFacts.

(** ** Validation and storage of uploads *)
Section StorageFacts.
Import Py PyFormat Timecode Subtitle Correlator Pipeline FileStore.

Lemma length_zero (s : string) : String.length s = 0%nat -> s = "".
Proof. destruct s; [reflexivity|discriminate]. Qed.

(** The name before it is cut: the safe characters of the file name, or
    the stand-in when none is left. *)
Lemma safe_filename_cases (filename : string) :
  let kept := if String.eqb (keep_chars is_safe filename) ""
              then "uploaded_file" else keep_chars is_safe filename in
  all_safe kept = true /\ kept <> "" /\
  _generate_safe_filename filename =
    if (100 <? String.length kept)%nat
    then substring 0 95 (fst (splitext kept)) ++ snd (splitext kept)
    else kept.
Proof.
  intros kept. subst kept. unfold _generate_safe_filename. cbv zeta.
  destruct (String.eqb_spec (keep_chars is_safe filename) "") as [E|N].
  - split; [reflexivity|]. split; [discriminate|]. reflexivity.
  - split; [apply all_safe_keep|]. split; [exact N|].
    destruct (splitext (keep_chars is_safe filename)). reflexivity.
Qed.

Lemma safe_filename_props (filename : string) :
  let kept := if String.eqb (keep_chars is_safe filename) ""
              then "uploaded_file" else keep_chars is_safe filename in
  let safe_filename := _generate_safe_filename filename in
  all_safe safe_filename = true /\
  lacks "/" safe_filename = true /\
  safe_filename <> "" /\
  (all_safe filename = true -> filename <> "" -> (String.length filename <= 100)%nat ->
   safe_filename = filename) /\
  ((100 < String.length safe_filename)%nat ->
   (5 < String.length (snd (splitext kept)))%nat /\
   safe_filename = substring 0 95 (fst (splitext kept)) ++ snd (splitext kept)).
Proof.
  intros kept safe_filename.
  destruct (safe_filename_cases filename) as (Hs & Hn & He).
  fold kept in Hs, Hn, He. fold safe_filename in He.
  destruct (all_safe_parts kept Hs) as [Hf Hx].
  destruct (splitext_parts kept (all_safe_lacks "/" kept eq_refl Hs)) as [J _].
  assert (String.length kept =
          (String.length (fst (splitext kept)) + String.length (snd (splitext kept)))%nat)
    as L by (rewrite <- J at 1; apply length_append).
  assert (all_safe safe_filename = true) as A.
  { rewrite He. destruct (100 <? String.length kept)%nat; [|exact Hs].
    rewrite all_safe_app, all_safe_substring_0 by exact Hf. exact Hx. }
  split; [exact A|]. split; [apply all_safe_lacks; [reflexivity|exact A]|].
  assert (String.length safe_filename =
          if (100 <? String.length kept)%nat
          then (Nat.min 95 (String.length (fst (splitext kept))) +
                String.length (snd (splitext kept)))%nat
          else String.length kept) as Ls.
  { rewrite He. destruct (100 <? String.length kept)%nat; [|reflexivity].
    rewrite length_append, length_substring_0. reflexivity. }
  split_and!.
  - intros E. rewrite E in Ls. cbn [String.length] in Ls.
    apply Hn. apply length_zero.
    destruct (Nat.ltb_spec 100 (String.length kept)); lia.
  - intros Sf Ne Le.
    assert (kept = filename) as K.
    { unfold kept. rewrite (keep_safe filename Sf).
      destruct (String.eqb_spec filename ""); [contradiction|reflexivity]. }
    rewrite He, K. destruct (Nat.ltb_spec 100 (String.length filename)); [lia|reflexivity].
  - intros Lt. rewrite Ls in Lt.
    destruct (Nat.ltb_spec 100 (String.length kept)) as [G|G]; [|lia].
    split; [lia|]. rewrite He.
    destruct (Nat.ltb_spec 100 (String.length kept)); [reflexivity|lia].
Qed.

(** X14.  The safe name of an upload consists of safe characters only
    (so it holds no path separator) and is never empty.  A name that is
    already safe, not empty and at most 100 characters long is kept as
    it is.  The cut to 100 characters spares the extension: the result
    is longer than 100 characters only when the extension alone is
    longer than five, and then it is the first 95 characters of the rest
    followed by the whole extension. *)
Theorem X14_safe_filename (filename : string) :
  let kept := if String.eqb (keep_chars is_safe filename) ""
              then "uploaded_file" else keep_chars is_safe filename in
  let safe_filename := _generate_safe_filename filename in
  all_safe safe_filename = true /\
  lacks "/" safe_filename = true /\
  safe_filename <> "" /\
  (all_safe filename = true -> filename <> "" -> (String.length filename <= 100)%nat ->
   safe_filename = filename) /\
  ((100 < String.length safe_filename)%nat ->
   (5 < String.length (snd (splitext kept)))%nat /\
   safe_filename = substring 0 95 (fst (splitext kept)) ++ snd (splitext kept)).
Proof. exact (safe_filename_props filename). Qed.

Lemma X14_safe_filename_witness :
  _generate_safe_filename "../etc/talk one.mp4" = "..etctalk one.mp4".
Proof.
  destruct (X14_safe_filename "..etctalk one.mp4") as (_ & _ & _ & H & _).
  change (_generate_safe_filename "../etc/talk one.mp4")
    with (_generate_safe_filename "..etctalk one.mp4").
  apply H; [reflexivity|discriminate|simpl; lia].
Defined.

Lemma listed_mime_is_media (t : string) :
  str_in t valid_mime_types = true ->
  (String.prefix "video/" t || String.prefix "audio/" t)%bool = true.
Proof.
  unfold str_in, valid_mime_types. cbn [existsb]. rewrite !orb_true_iff.
  intros H.
  repeat (destruct H as [H|H];
          [apply String.eqb_eq in H; subst t; left + right; reflexivity|]).
  discriminate.
Qed.

Lemma is_valid_mime_type_spec (m : option string) :
  _is_valid_mime_type m =
  match m with
  | None => true
  | Some t =>
      (String.eqb t "" || String.prefix "video/" t || String.prefix "audio/" t)%bool
  end.
Proof.
  destruct m as [t|]; [|reflexivity]. unfold _is_valid_mime_type.
  destruct (String.eqb t ""); [reflexivity|]. cbv zeta. cbn [orb].
  destruct (str_in t valid_mime_types) eqn:E; [|reflexivity].
  rewrite (listed_mime_is_media t E). reflexivity.
Qed.

Lemma validate_file_spec (e : FileStore.env) (p : path) (fs : gmap path node) :
  (valid (validate_file e p fs) = true <->
   exists file_size,
     getsize e fs p = Returned file_size /\
     (file_size <= MAX_CONTENT_LENGTH)%Z /\
     str_in (lower (str_lower e) (suffix (name_of p))) ALLOWED_EXTENSIONS = true /\
     match guess_type e p with
     | None => True
     | Some t => t = "" \/ String.prefix "video/" t = true \/ String.prefix "audio/" t = true
     end) /\
  (valid (validate_file e p fs) = true ->
   exists info, validation_info (validate_file e p fs) = Some info /\
                getsize e fs p = Returned (size info) /\
                extension info = lower (str_lower e) (suffix (name_of p)) /\
                name info = name_of p).
Proof.
  unfold validate_file, validate_file_try, exists_, getsize.
  rewrite is_valid_mime_type_spec.
  destruct (fs !! p) as [[d|]|] eqn:L; cbn [negb].
  - destruct (Z.ltb_spec MAX_CONTENT_LENGTH (Z.of_nat (String.length d))) as [G|G].
    + split; [|discriminate]. split; [discriminate|].
      intros (sz & [= <-] & Hle & _). lia.
    + cbv zeta.
      destruct (str_in (lower (str_lower e) (suffix (name_of p))) ALLOWED_EXTENSIONS) eqn:X; cbn [negb].
      * destruct (guess_type e p) as [t|] eqn:M.
        -- destruct (String.eqb_spec t "") as [E0|N0]; cbn [orb negb].
           ++ split; [|intros _; eexists; cbn; eauto].
              split; [intros _; eexists; eauto|reflexivity].
           ++ destruct (String.prefix "video/" t) eqn:V; cbn [orb negb].
              ** split; [|intros _; eexists; cbn; eauto].
                 split; [intros _; eexists; eauto 6|reflexivity].
              ** destruct (String.prefix "audio/" t) eqn:A; cbn [negb].
                 --- split; [|intros _; eexists; cbn; eauto].
                     split; [intros _; eexists; eauto 6|reflexivity].
                 --- split; [|discriminate]. split; [discriminate|].
                     intros (sz & _ & _ & _ & [H|[H|H]]); congruence.
        -- cbn [negb]. split; [|intros _; eexists; cbn; eauto].
           split; [intros _; eexists; eauto|reflexivity].
      * split; [|discriminate]. split; [discriminate|].
        intros (sz & _ & _ & H & _). discriminate.
  - destruct (Z.ltb_spec MAX_CONTENT_LENGTH (dir_size e p)) as [G|G].
    + split; [|discriminate]. split; [discriminate|].
      intros (sz & [= <-] & Hle & _). lia.
    + cbv zeta.
      destruct (str_in (lower (str_lower e) (suffix (name_of p))) ALLOWED_EXTENSIONS) eqn:X; cbn [negb].
      * destruct (guess_type e p) as [t|] eqn:M.
        -- destruct (String.eqb_spec t "") as [E0|N0]; cbn [orb negb].
           ++ split; [|intros _; eexists; cbn; eauto].
              split; [intros _; eexists; eauto|reflexivity].
           ++ destruct (String.prefix "video/" t) eqn:V; cbn [orb negb].
              ** split; [|intros _; eexists; cbn; eauto].
                 split; [intros _; eexists; eauto 6|reflexivity].
              ** destruct (String.prefix "audio/" t) eqn:A; cbn [negb].
                 --- split; [|intros _; eexists; cbn; eauto].
                     split; [intros _; eexists; eauto 6|reflexivity].
                 --- split; [|discriminate]. split; [discriminate|].
                     intros (sz & _ & _ & _ & [H|[H|H]]); congruence.
        -- cbn [negb]. split; [|intros _; eexists; cbn; eauto].
           split; [intros _; eexists; eauto|reflexivity].
      * split; [|discriminate]. split; [discriminate|].
        intros (sz & _ & _ & H & _). discriminate.
  - split; [|discriminate]. split; [discriminate|].
    intros (sz & H & _). discriminate.
Qed.


End StorageFacts.

(** ** From an upload to its identifier *)
Section UploadFacts.
Import Py PyFormat Timecode Subtitle Correlator Pipeline FileStore Api.

Lemma length_lower (s : string) : String.length (ascii_lower s) = String.length s.
Proof. induction s as [|x s IH]; simpl; [reflexivity|]. rewrite IH. reflexivity. Qed.

(** *** Text in ASCII *)

Lemma lower_ascii (u : string -> string) (s : string) :
  is_ascii s = true -> lower u s = ascii_lower s.
Proof. intros H. unfold lower. rewrite H. reflexivity. Qed.

Lemma is_ascii_app (a b : string) : is_ascii (a ++ b) = (is_ascii a && is_ascii b)%bool.
Proof.
  unfold is_ascii. induction a as [|x a IH]; [reflexivity|].
  rewrite append_String. simpl. rewrite IH. apply andb_assoc.
Qed.

Lemma is_ascii_substring (n m : nat) (s : string) :
  is_ascii s = true -> is_ascii (substring n m s) = true.
Proof.
  unfold is_ascii. revert n m. induction s as [|x s IH]; intros n m H.
  - destruct n, m; reflexivity.
  - simpl in H. apply andb_prop in H as [Hx Hs].
    destruct n as [|n]; [|simpl; apply IH; exact Hs].
    destruct m as [|m]; [reflexivity|]. simpl. rewrite Hx. apply IH. exact Hs.
Qed.

Lemma is_ascii_suffix (s : string) : is_ascii s = true -> is_ascii (suffix s) = true.
Proof.
  intros H. unfold suffix. destruct (rfind_dot s) as [i|]; [|reflexivity].
  destruct (_ && _)%bool; [|reflexivity]. apply is_ascii_substring. exact H.
Qed.

Lemma is_safe_ascii (c : ascii) : is_safe c = true -> (nat_of_ascii c <? 128)%nat = true.
Proof.
  unfold is_safe, safe_chars. cbn [list_ascii_of_string existsb].
  rewrite !orb_true_iff. intros H.
  repeat (destruct H as [H|H]; [apply Ascii.eqb_eq in H; subst c; reflexivity|]).
  discriminate.
Qed.

Lemma all_safe_ascii (s : string) : all_safe s = true -> is_ascii s = true.
Proof.
  unfold all_safe, is_ascii. induction s as [|x s IH]; [reflexivity|]. simpl.
  intros H. apply andb_prop in H as [Hx Hs]. rewrite (is_safe_ascii x Hx). apply IH, Hs.
Qed.

Lemma is_ascii_uint (d : Decimal.uint) : is_ascii (NilEmpty.string_of_uint d) = true.
Proof.
  unfold is_ascii.
  induction d as [|d IH|d IH|d IH|d IH|d IH|d IH|d IH|d IH|d IH|d IH];
    cbn [NilEmpty.string_of_uint list_ascii_of_string forallb]; [reflexivity|..];
    rewrite IH; reflexivity.
Qed.

Lemma is_ascii_zeros (k : nat) : is_ascii (PyFormat.zeros k) = true.
Proof.
  unfold is_ascii. induction k as [|k IH]; [reflexivity|].
  cbn [PyFormat.zeros list_ascii_of_string forallb]. rewrite IH. reflexivity.
Qed.

Lemma is_ascii_format_d (w : nat) (n : Z) : 0 <= n -> is_ascii (format_d w n) = true.
Proof.
  intros Hn. unfold format_d. destruct (Z.ltb_spec n 0) as [L|_]; [lia|].
  unfold zfill, digits. rewrite is_ascii_app, is_ascii_zeros, is_ascii_uint. reflexivity.
Qed.

Lemma is_ascii_strftime_seconds (t : datetime) :
  valid_datetime t -> is_ascii (strftime_seconds t) = true.
Proof.
  intros (Y & M & D & h & m & s & _). unfold strftime_seconds.
  rewrite !is_ascii_app, !is_ascii_format_d by lia. reflexivity.
Qed.

Lemma allowed_length (x : string) :
  str_in x ALLOWED_EXTENSIONS = true -> (2 <= String.length x <= 5)%nat.
Proof.
  unfold str_in, ALLOWED_EXTENSIONS. cbn [existsb]. rewrite !orb_true_iff.
  intros H.
  repeat (destruct H as [H|H]; [apply String.eqb_eq in H; subst x; simpl; lia|]).
  discriminate.
Qed.

Lemma rfind_dot_app_lacks (a b : string) :
  lacks "." b = true -> rfind_dot (a ++ b) = rfind_dot a.
Proof. intros H. rewrite <- !rfind_dot_rfind. apply rfind_app_lacks. exact H. Qed.

Lemma rfind_dot_app_at (a r : string) :
  lacks "." r = true -> rfind_dot (a ++ String "." r) = Some (String.length a).
Proof. intros H. rewrite <- rfind_dot_rfind. apply rfind_app_at. exact H. Qed.

Lemma stem_suffix_dot (a r : string) :
  a <> "" -> lacks "." r = true ->
  (r <> "" -> stem (a ++ String "." r) = a /\ suffix (a ++ String "." r) = String "." r) /\
  (r = "" -> suffix (a ++ String "." r) = "").
Proof.
  intros Ha Hr. unfold stem, suffix. rewrite (rfind_dot_app_at a r Hr).
  rewrite length_append. cbn [String.length].
  assert ((0 <? String.length a)%nat = true) as ->.
  { apply Nat.ltb_lt. destruct a; [contradiction|simpl; lia]. }
  cbn [andb]. split.
  - intros Hn.
    assert ((String.length a <? String.length a + S (String.length r) - 1)%nat = true) as ->.
    { apply Nat.ltb_lt. destruct r; [contradiction|simpl; lia]. }
    rewrite substring_0_app, from_app. auto.
  - intros ->. cbn [String.length].
    assert ((String.length a <? String.length a + 1 - 1)%nat = false) as ->
      by (apply Nat.ltb_ge; lia).
    reflexivity.
Qed.

Lemma final_filename_eq (filename timestamp : string) :
  final_filename filename timestamp =
  fst (splitext (_generate_safe_filename filename)) ++ "_" ++ timestamp ++
  snd (splitext (_generate_safe_filename filename)).
Proof.
  unfold final_filename. destruct (splitext (_generate_safe_filename filename)).
  reflexivity.
Qed.

(** A stored name that passes the extension check: the time stamp sits
    between the two parts [splitext] found, and the extension check saw
    the extension of the safe name. *)
Lemma stored_name_valid (safe ts : string) :
  lacks "/" safe = true -> lacks "." ts = true -> (4 <= String.length ts)%nat ->
  str_in (ascii_lower (suffix (fst (splitext safe) ++ "_" ++ ts ++ snd (splitext safe))))
    ALLOWED_EXTENSIONS = true ->
  stem (fst (splitext safe) ++ "_" ++ ts ++ snd (splitext safe)) =
    fst (splitext safe) ++ "_" ++ ts /\
  (2 <= String.length (snd (splitext safe)) <= 5)%nat /\
  exists r, snd (splitext safe) = String "." r /\ lacks "." r = true /\
            safe = fst (splitext safe) ++ String "." r.
Proof.
  intros Hs Ht Hl Hv.
  destruct (splitext_parts safe Hs) as [J [[E1 E2]|(r & Er & Hr & Hd)]].
  - exfalso. rewrite E1, E2, append_empty_r in Hv.
    assert (lacks "." ("_" ++ ts) = true) as Lt by (rewrite lacks_app, Ht; reflexivity).
    pose proof (allowed_length _ Hv) as Len. rewrite length_lower in Len.
    unfold suffix in Hv, Len. rewrite (rfind_dot_app_lacks safe _ Lt) in Hv, Len.
    destruct (rfind_dot safe) as [i|] eqn:R; [|simpl in Len; lia].
    rewrite <- rfind_dot_rfind in R.
    destruct (rfind_Some_split "." safe i R) as (a & r & -> & <- & Lr).
    rewrite append_assoc in Len.
    destruct ((0 <? String.length a)%nat &&
              (String.length a <?
               String.length (a ++ String "." r ++ "_" ++ ts) - 1)%nat)%bool;
      [|simpl in Len; lia].
    rewrite from_app in Len. rewrite append_String in Len. cbn [String.length] in Len.
    rewrite !length_append in Len. simpl in Len. lia.
  - rewrite Er in *.
    assert (fst (splitext safe) ++ "_" ++ ts ++ String "." r =
            (fst (splitext safe) ++ "_" ++ ts) ++ String "." r) as Assoc
      by (rewrite !append_assoc; reflexivity).
    rewrite Assoc in *.
    assert (fst (splitext safe) ++ "_" ++ ts <> "") as Ne.
    { intros E. apply (f_equal String.length) in E.
      rewrite !length_append in E. simpl in E. lia. }
    destruct (stem_suffix_dot _ r Ne Hr) as [Hne He].
    destruct (String.eqb_spec r "") as [E0|N0].
    + rewrite (He E0) in Hv. discriminate.
    + destruct (Hne N0) as [St Su]. rewrite Su in Hv.
      pose proof (allowed_length _ Hv) as Len. rewrite length_lower in Len.
      split; [exact St|]. split; [exact Len|].
      exists r. split; [reflexivity|]. split; [exact Hr|]. symmetry. exact J.
Qed.

Lemma strftime_seconds_plain (t : datetime) :
  valid_datetime t ->
  lacks "." (strftime_seconds t) = true /\ String.length (strftime_seconds t) = 15%nat.
Proof.
  intros V. split; [|apply strftime_seconds_length; exact V].
  destruct V as (Y & M & D & h & m & s & _).
  unfold strftime_seconds. rewrite !lacks_app.
  rewrite !format_d_lacks by (reflexivity || lia). reflexivity.
Qed.

(** What an accepted upload leaves. *)
Lemma upload_accepted (e : Api.env) (part : option (string * string))
    (fs : gmap path node) :
  status (fst (upload_file e part fs)) = 200 ->
  exists raw file_data,
    part = Some (raw, file_data) /\
    let filename := secure_filename e raw in
    let timestamp := strftime_seconds (now (files e)) in
    let p := (TEMP_FOLDER (files e) ++ [final_filename filename timestamp])%list in
    snd (upload_file e part fs) = <[p := File file_data]> fs /\
    valid (validate_file (files e) p (<[p := File file_data]> fs)) = true /\
    exists sz,
      data (fst (upload_file e part fs)) =
      Some {| file_id := fst (splitext filename) ++ "_" ++ timestamp;
              filename := filename;
              stored_path := Some p;
              file_size := sz |}.
Proof.
  unfold upload_file. destruct part as [[raw file_data]|]; [|discriminate].
  destruct (String.eqb raw ""); [discriminate|].
  cbv zeta. unfold save_uploaded_file, save_uploaded_file_try. cbv zeta.
  set (p := (TEMP_FOLDER (files e) ++
             [final_filename (secure_filename e raw)
                (strftime_seconds (now (files e)))])%list).
  intros H. exists raw, file_data. split; [reflexivity|]. revert H.
  destruct (fs !! p) as [[d|]|]; cbn [negb].
  - destruct (open_ok (files e) p); cbn [negb]; [|discriminate].
    destruct (valid (validate_file (files e) p (<[p:=File file_data]> fs))) eqn:V;
      cbn [negb FileStore.success]; [|discriminate].
    intros _. cbn [fst snd file_path]. split; [reflexivity|]. split; [exact V|].
    eexists. reflexivity.
  - discriminate.
  - destruct (open_ok (files e) p); cbn [negb]; [|discriminate].
    destruct (valid (validate_file (files e) p (<[p:=File file_data]> fs))) eqn:V;
      cbn [negb FileStore.success]; [|discriminate].
    intros _. cbn [fst snd file_path]. split; [reflexivity|]. split; [exact V|].
    eexists. reflexivity.
Qed.

Lemma name_of_child (dir : path) (child : string) : name_of (dir ++ [child])%list = child.
Proof. unfold name_of. apply last_last. Qed.

Lemma listed_sound (fs : gmap path node) (dir : path) (listing : list dir_entry)
    (en : dir_entry) :
  forallb (listed fs dir) listing = true -> en ∈ listing ->
  exists n, fs !! (dir ++ [entry_name en])%list = Some n /\
            entry_is_file en = is_file (Some n).
Proof.
  intros H He. rewrite forallb_forall in H. apply list_elem_of_In in He.
  specialize (H en He). unfold listed in H.
  destruct (fs !! (dir ++ [entry_name en])%list) as [n|]; [|discriminate].
  apply andb_prop in H as [_ H].
  exists n. split; [reflexivity|]. apply Bool.eqb_prop. exact H.
Qed.

(** On the entries of a listing that describes the file system
    [is_file()] does not raise. *)
Lemma listed_quiet (fs : gmap path node) (dir : path) (listing : list dir_entry) :
  forallb (listed fs dir) listing = true -> quiet listing.
Proof.
  intros H. apply Forall_forall. intros en He. apply list_elem_of_In in He.
  rewrite forallb_forall in H. specialize (H en He). unfold listed in H.
  destruct (fs !! (dir ++ [entry_name en])%list) as [n|]; [|discriminate].
  apply andb_prop in H as [H _]. apply negb_true_iff in H. exact H.
Qed.

Lemma resolve_Some (listing : list dir_entry) (file_id : string) (en : dir_entry) :
  resolve listing file_id = Some en ->
  en ∈ listing /\ entry_is_file en = true /\
  String.prefix file_id (stem (entry_name en)) = true /\
  ((exists x, x ∈ listing /\ exact_test file_id x = true) ->
   stem (entry_name en) = file_id).
Proof.
  unfold resolve, resolve_try.
  destruct (first_match (exact_test file_id) listing) as [[x|]|what] eqn:M;
    [| |discriminate].
  - intros [= <-]. apply first_match_Some in M as (b & a & -> & T & _).
    apply exact_test_spec in T as [Tf Ts].
    split; [apply elem_of_app; right; left|]. split; [exact Tf|].
    split; [|auto]. rewrite Ts. clear. induction file_id as [|c s IH]; [reflexivity|].
    simpl. destruct (ascii_dec c c); [exact IH|contradiction].
  - destruct (first_match (prefix_test file_id) listing) as [[y|]|what] eqn:P;
      [|discriminate|discriminate].
    intros [= <-]. apply first_match_Some in P as (b & a & -> & T & _).
    apply prefix_test_spec in T as [Tf Tp].
    split; [apply elem_of_app; right; left|]. split; [exact Tf|]. split; [exact Tp|].
    intros (x & Hx & Tx). apply first_match_None in M as [_ M].
    rewrite (M x Hx) in Tx. discriminate.
Qed.

(** On a listing without raising entries, [None] means that no entry
    matches. *)
Lemma resolve_None (listing : list dir_entry) (file_id : string) :
  quiet listing ->
  resolve listing file_id = None ->
  forall x, x ∈ listing -> exact_test file_id x = false /\ prefix_test file_id x = false.
Proof.
  intros Q. unfold resolve, resolve_try.
  rewrite !(first_match_quiet _ _ Q).
  destruct (List.find (exact_test file_id) listing) as [y|] eqn:M; [discriminate|].
  destruct (List.find (prefix_test file_id) listing) as [y|] eqn:P; [discriminate|].
  intros _ x Hx. apply list_elem_of_In in Hx.
  split; [exact (find_none _ _ M x Hx)|exact (find_none _ _ P x Hx)].
Qed.

End UploadFacts.

(** ** Storing an upload and finding it again *)
Section ResolveFacts.
Import Py PyFormat Timecode Subtitle Correlator Pipeline FileStore Api.


Lemma prefix_length (a b : string) :
  String.prefix a b = true -> (String.length a <= String.length b)%nat.
Proof.
  revert b. induction a as [|x a IH]; intros b; [simpl; lia|].
  destruct b as [|y b]; simpl; [discriminate|].
  destruct (ascii_dec x y); [|discriminate]. intros H. specialize (IH b H). lia.
Qed.

(** The stem of the stored name of an accepted upload. *)
Lemma accepted_stem (e : FileStore.env) (filename : string) (fs : gmap path node) :
  valid_datetime (now e) ->
  valid (validate_file e
           (TEMP_FOLDER e ++ [final_filename filename (strftime_seconds (now e))])%list
           fs) = true ->
  let safe := _generate_safe_filename filename in
  stem (final_filename filename (strftime_seconds (now e))) =
    fst (splitext safe) ++ "_" ++ strftime_seconds (now e) /\
  (2 <= String.length (snd (splitext safe)) <= 5)%nat /\
  exists r, snd (splitext safe) = String "." r /\ lacks "." r = true /\
            safe = fst (splitext safe) ++ String "." r.
Proof.
  intros V Hv safe.
  destruct (strftime_seconds_plain (now e) V) as [Hd Hl].
  apply (proj1 (validate_file_spec e _ fs)) in Hv as (sz & _ & _ & Hx & _).
  rewrite name_of_child, final_filename_eq in Hx. fold safe in Hx.
  rewrite final_filename_eq. fold safe.
  destruct (safe_filename_props filename) as (Hsafe & Hsep & _).
  destruct (all_safe_parts _ Hsafe) as [S1 S2]. fold safe in S1, S2.
  rewrite lower_ascii in Hx.
  - apply stored_name_valid; [exact Hsep|exact Hd|lia|exact Hx].
  - apply is_ascii_suffix. rewrite !is_ascii_app.
    rewrite (all_safe_ascii _ S1), (all_safe_ascii _ S2),
      (is_ascii_strftime_seconds _ V). reflexivity.
Qed.

(** X17.  The identifier an accepted upload is answered with finds the
    upload again.  When the name [secure_filename] returned consists of
    safe characters and is at most 100 characters long, the stem of the
    stored file is exactly the identifier; so, on any listing of the Temp
    folder taken after the upload, [find_file_by_id] returns a regular
    file whose stem is the identifier, and returns the stored file
    itself when no other regular file there has the same stem. *)
Theorem X17_upload_resolves (e : Api.env) (part : option (string * string))
    (fs : gmap path node) (listing : list dir_entry) (d : upload_data) :
  valid_datetime (now (files e)) ->
  status (fst (upload_file e part fs)) = 200 ->
  data (fst (upload_file e part fs)) = Some d ->
  all_safe (filename d) = true ->
  (String.length (filename d) <= 100)%nat ->
  listing_of (snd (upload_file e part fs)) (TEMP_FOLDER (files e)) listing ->
  lists_all (snd (upload_file e part fs)) (TEMP_FOLDER (files e)) listing ->
  exists p,
    FileStore.find_file_by_id (files e) listing (file_id d) = Some p /\
    is_file (snd (upload_file e part fs) !! p) = true /\
    stem (name_of p) = file_id d /\
    ((forall x, x ∈ listing -> entry_is_file x = true ->
                stem (entry_name x) = file_id d -> entry_name x = name_of p) ->
     stored_path d = Some p).
Proof.
  intros V S Hd Sf Le [Snd ND] All.
  destruct (upload_accepted e part fs S) as (raw & file_data & -> & H).
  cbv zeta in H. destruct H as (Hfs & Hv & sz & Hdata).
  rewrite Hdata in Hd. injection Hd as <-.
  cbn [filename file_id stored_path] in *.
  set (name := secure_filename e raw) in *.
  set (ts := strftime_seconds (now (files e))) in *.
  remember (TEMP_FOLDER (files e) ++ [final_filename name ts])%list as p eqn:Ep.
  rewrite Hfs in *.
  assert (valid (validate_file (files e)
                   (TEMP_FOLDER (files e) ++ [final_filename name ts])%list
                   (<[p:=File file_data]> fs)) = true) as Hv'
    by (rewrite <- Ep; exact Hv).
  destruct (accepted_stem (files e) name _ V Hv') as (St & Len & r & Er & Hr & Es).
  fold ts in St. cbv zeta in St, Len, Er, Es.
  assert (name <> "") as Ne.
  { intros E. rewrite E in Er. vm_compute in Er. discriminate. }
  destruct (safe_filename_props name) as (_ & _ & _ & Keep & _).
  rewrite (Keep Sf Ne Le) in St, Er, Es. clear Keep.
  (* the stored file is listed, as a regular file *)
  assert (exists en, en ∈ listing /\ entry_name en = final_filename name ts /\
                     entry_is_file en = true) as (en & Hen & En & Ef).
  { pose proof (All (final_filename name ts) (File file_data)) as A.
    rewrite <- Ep, lookup_insert_eq in A. specialize (A eq_refl).
    apply list_elem_of_fmap in A as (en & En & Hen).
    exists en. split; [exact Hen|]. split; [auto|].
    destruct (listed_sound _ _ _ en Snd Hen) as (n & Ln & Fn).
    rewrite <- En, <- Ep, lookup_insert_eq in Ln.
    injection Ln as <-. exact Fn. }
  assert (exact_test (fst (splitext name) ++ "_" ++ ts) en = true) as Tx.
  { apply exact_test_spec. rewrite En. auto. }
  unfold FileStore.find_file_by_id.
  destruct (resolve listing (fst (splitext name) ++ "_" ++ ts)) as [en'|] eqn:R.
  - destruct (resolve_Some _ _ _ R) as (Hin & Hf & _ & Hs).
    specialize (Hs (ex_intro _ en (conj Hen Tx))).
    destruct (listed_sound _ _ _ en' Snd Hin) as (n & Ln & Fn).
    exists (TEMP_FOLDER (files e) ++ [entry_name en'])%list.
    split; [reflexivity|]. rewrite name_of_child.
    assert (forall o : option node, o = Some n -> is_file o = true) as G
      by (intros o ->; rewrite <- Fn; exact Hf).
    split; [apply G; exact Ln|]. split; [exact Hs|].
    intros U. specialize (U en Hen Ef). rewrite En, St in U.
    specialize (U eq_refl). rewrite Ep, U. reflexivity.
  - destruct (resolve_None _ _ (listed_quiet _ _ _ Snd) R en Hen) as [K _].
    rewrite K in Tx. discriminate.
Qed.

Lemma X17_upload_resolves_witness :
  exists p,
    FileStore.find_file_by_id (files Api.sample_env)
      [ {| entry_name := "talk_20240517_093015.mp4"; entry_is_file := true;
           entry_raises := false |} ]
      (file_id sample_upload) = Some p /\
    is_file (snd (upload_file Api.sample_env (Some ("talk.mp4", "media")) ∅) !! p) = true /\
    stem (name_of p) = file_id sample_upload /\
    ((forall x,
        x ∈ [ {| entry_name := "talk_20240517_093015.mp4"; entry_is_file := true;
           entry_raises := false |} ] ->
        entry_is_file x = true ->
        stem (entry_name x) = file_id sample_upload ->
        entry_name x = name_of p) ->
     stored_path sample_upload = Some p).
Proof.
  apply (X17_upload_resolves Api.sample_env (Some ("talk.mp4", "media")) ∅
           [ {| entry_name := "talk_20240517_093015.mp4"; entry_is_file := true;
           entry_raises := false |} ]
           sample_upload).
  - unfold valid_datetime. simpl. lia.
  - vm_compute. reflexivity.
  - vm_compute. reflexivity.
  - reflexivity.
  - simpl. lia.
  - split; [vm_compute; reflexivity|apply NoDup_singleton].
  - intros child n H.
    change (snd (upload_file Api.sample_env (Some ("talk.mp4", "media")) ∅))
      with (<[ ["/"; "app"; "Temp"; "talk_20240517_093015.mp4"] := File "media" ]>
              (∅ : gmap path node)) in H.
    apply lookup_insert_Some in H as [[E _]|[_ H]].
    + injection E as <-. left.
    + rewrite lookup_empty in H. discriminate.
Defined.

(** X18.  For names over 100 characters the identifier is lost.  When
    the name [secure_filename] returned consists of safe characters and
    is longer than 100 characters, an accepted upload is stored under a
    shortened name while its identifier is made from the whole name: the
    stem of the stored file is strictly shorter than the identifier, so
    the stored file matches it neither exactly nor as a prefix, and
    [find_file_by_id] returns [None] unless some other file matches. *)
Theorem X18_long_name_identifier (e : Api.env) (part : option (string * string))
    (fs : gmap path node) (d : upload_data) :
  valid_datetime (now (files e)) ->
  status (fst (upload_file e part fs)) = 200 ->
  data (fst (upload_file e part fs)) = Some d ->
  all_safe (filename d) = true ->
  (100 < String.length (filename d))%nat ->
  exists stored,
    stored_path d = Some (TEMP_FOLDER (files e) ++ [stored])%list /\
    snd (upload_file e part fs) !! (TEMP_FOLDER (files e) ++ [stored])%list <> None /\
    (String.length (stem stored) < String.length (file_id d))%nat /\
    (forall listing,
       (forall x, x ∈ listing -> entry_name x <> stored ->
                  prefix_test (file_id d) x = false) ->
       FileStore.find_file_by_id (files e) listing (file_id d) = None).
Proof.
  intros V S Hd Sf Lt.
  destruct (upload_accepted e part fs S) as (raw & file_data & -> & H).
  cbv zeta in H. destruct H as (Hfs & Hv & sz & Hdata).
  rewrite Hdata in Hd. injection Hd as <-.
  cbn [filename file_id stored_path] in *.
  set (name := secure_filename e raw) in *.
  set (ts := strftime_seconds (now (files e))) in *.
  exists (final_filename name ts). split; [reflexivity|].
  split; [rewrite Hfs, lookup_insert_eq; discriminate|].
  destruct (accepted_stem (files e) name _ V Hv) as (St & Len & r & Er & Hr & Es).
  fold ts in St. cbv zeta in St, Len, Er, Es.
  destruct (strftime_seconds_plain (now (files e)) V) as [_ Lts]. fold ts in Lts.
  (* the safe name is the shortened one *)
  destruct (safe_filename_cases name) as (_ & _ & Cut). cbv zeta in Cut.
  rewrite (keep_safe name Sf) in Cut.
  assert (name <> "") as Ne by (intros E; rewrite E in Lt; simpl in Lt; lia).
  destruct (String.eqb_spec name "") as [|_]; [contradiction|].
  destruct (Nat.ltb_spec 100 (String.length name)) as [_|]; [|lia].
  pose proof (all_safe_lacks "/" name eq_refl Sf) as Sep.
  destruct (splitext_parts name Sep) as [J Cases].
  assert (String.length name =
          (String.length (fst (splitext name)) + String.length (snd (splitext name)))%nat)
    as Ln by (rewrite <- J at 1; apply length_append).
  assert (String.length (fst (splitext (_generate_safe_filename name))) <
          String.length (fst (splitext name)))%nat as Short.
  { assert (String.length (_generate_safe_filename name) =
            (String.length (fst (splitext (_generate_safe_filename name))) +
             String.length (snd (splitext (_generate_safe_filename name))))%nat) as Ls.
    { rewrite Es at 1. rewrite length_append, Er. reflexivity. }
    destruct Cases as [[E1 E2]|(r0 & Er0 & Hr0 & _)].
    - rewrite Cut in Ls at 1.
      rewrite E1, append_empty_r, length_substring_0 in Ls. lia.
    - assert (lacks "/" (substring 0 95 (fst (splitext name)) ++ String "." r0) = true)
        as Sep'.
      { apply all_safe_lacks; [reflexivity|].
        destruct (all_safe_parts name Sf) as [Sf1 Sf2]. rewrite Er0 in Sf2.
        rewrite all_safe_app, all_safe_substring_0 by exact Sf1. exact Sf2. }
      pose proof (splitext_split (substring 0 95 (fst (splitext name))) r0 Sep' Hr0) as Sp.
      rewrite Er0 in Cut. rewrite <- Cut in Sp.
      destruct (forallb (Ascii.eqb ".")
                  (list_ascii_of_string (substring 0 95 (fst (splitext name))))).
      + rewrite Sp in Er. discriminate.
      + rewrite Sp in Len |- *. cbn [fst snd] in *.
        rewrite length_substring_0. rewrite Er0 in Ln. lia. }
  assert (String.length (stem (final_filename name ts)) <
          String.length (fst (splitext name) ++ "_" ++ ts))%nat as Lstem.
  { rewrite St, !length_append. lia. }
  split; [exact Lstem|].
  intros listing Other. unfold FileStore.find_file_by_id.
  destruct (resolve listing (fst (splitext name) ++ "_" ++ ts)) as [en|] eqn:R;
    [|reflexivity].
  exfalso. destruct (resolve_Some _ _ _ R) as (Hin & Hf & Hp & _).
  destruct (decide (entry_name en = final_filename name ts)) as [E|N].
  - rewrite E in Hp. apply prefix_length in Hp. lia.
  - specialize (Other en Hin N). unfold prefix_test in Other.
    rewrite Hf, Hp in Other. discriminate.
Qed.

Lemma X18_long_name_identifier_witness :
  exists stored,
    stored_path long_upload = Some (TEMP_FOLDER (files Api.sample_env) ++ [stored])%list /\
    snd (upload_file Api.sample_env (Some (long_name, "media")) ∅)
      !! (TEMP_FOLDER (files Api.sample_env) ++ [stored])%list <> None /\
    (String.length (stem stored) < String.length (file_id long_upload))%nat /\
    (forall listing,
       (forall x, x ∈ listing -> entry_name x <> stored ->
                  prefix_test (file_id long_upload) x = false) ->
       FileStore.find_file_by_id (files Api.sample_env) listing (file_id long_upload)
       = None).
Proof.
  apply (X18_long_name_identifier Api.sample_env (Some (long_name, "media")) ∅
           long_upload).
  - unfold valid_datetime. simpl. lia.
  - vm_compute. reflexivity.
  - vm_compute. reflexivity.
  - vm_compute. reflexivity.
  - vm_compute. lia.
Defined.

End ResolveFacts.
(** ** Deleting and cleaning *)
Section CleaningFacts.
Import Py PyFormat Timecode Subtitle Correlator Pipeline FileStore Api.













End CleaningFacts.

(** ** The routes *)
Section RouteFacts.
Import Py PyFormat Timecode Subtitle Correlator Runtime Pipeline FileStore Api.






End RouteFacts.

(** ** Sizes as text *)
Section SizeFacts.
Import Py PyFloat PyFormat Timecode Subtitle Instants FileStore.
Local Open Scope Q_scope.

(** Integers below 2^53 convert to a float exactly. *)
Lemma b64_round_int (n : Z) :
  (0 < n < 2 ^ 53)%Z -> b64_round (inject_Z n) == inject_Z n.
Proof.
  intros [Hp Hb].
  assert (0 < inject_Z n) as Hx by (rewrite <- (Zlt_Qlt 0); exact Hp).
  assert (floor_log2 (inject_Z n) < 53)%Z as Hl.
  { apply (Qpower_lt_compat_l_inv 2); [|reflexivity].
    eapply Qle_lt_trans; [apply floor_log2_le; exact Hx|].
    rewrite two_pow_Z by lia. rewrite <- Zlt_Qlt. exact Hb. }
  assert (0 <= floor_log2 (inject_Z n))%Z as Hl0.
  { assert (0 < floor_log2 (inject_Z n) + 1)%Z; [|lia].
    apply (Qpower_lt_compat_l_inv 2); [|reflexivity].
    eapply Qle_lt_trans; [|apply floor_log2_lt; exact Hx].
    change (2 ^ 0) with 1. rewrite <- (Zle_Qle 1). lia. }
  rewrite (b64_round_pos _ Hx), ulp_binade.
  assert (binade (inject_Z n) = floor_log2 (inject_Z n)) as -> by (unfold binade; lia).
  set (k := (52 - floor_log2 (inject_Z n))%Z).
  assert (0 <= k)%Z as Hk by (unfold k; lia).
  replace (floor_log2 (inject_Z n) - 52)%Z with (- k)%Z by (unfold k; lia).
  assert (0 < 2 ^ k) as Pk by apply two_pow_pos.
  assert (2 ^ (- k) == / 2 ^ k) as Eo by apply Qpower_opp.
  assert (inject_Z n / 2 ^ (- k) == inject_Z (n * 2 ^ k)) as Ei.
  { rewrite Eo, inject_Z_mult, <- two_pow_Z by exact Hk. field. lra. }
  rewrite (round_half_even_comp _ _ Ei), round_half_even_Z.
  rewrite Eo, inject_Z_mult, <- two_pow_Z by exact Hk. field. lra.
Qed.

Lemma format_1f_comp (x y : Q) : x == y -> format_1f x = format_1f y.
Proof.
  intros E. unfold format_1f. cbv zeta.
  assert (x * 10 == y * 10) as E10 by (rewrite E; reflexivity).
  rewrite (round_half_even_comp _ _ E10).
  assert (Qle_bool 0 x = Qle_bool 0 y) as -> by (rewrite E; reflexivity).
  reflexivity.
Qed.

Lemma scale_stop (rounds : nat) (x : Q) (i : nat) :
  x < 1024 \/ (4 <= i)%nat -> scale rounds x i = (x, i).
Proof.
  intros H. destruct rounds as [|r]; [reflexivity|]. cbn [scale].
  destruct (Qle_bool 1024 x) eqn:L; cbn [andb]; [|reflexivity].
  destruct H as [H|H].
  - apply Qle_bool_iff in L. lra.
  - assert ((i <? length size_names - 1)%nat = false) as ->
      by (apply Nat.ltb_ge; simpl; lia).
    reflexivity.
Qed.

Lemma scale_go (rounds : nat) (x : Q) (i : nat) :
  1024 <= x -> (i < 4)%nat -> scale (S rounds) x i = scale rounds (x / 1024) (S i).
Proof.
  intros H Hi. cbn [scale].
  assert (Qle_bool 1024 x = true) as -> by (apply Qle_bool_iff; exact H).
  assert ((i <? length size_names - 1)%nat = true) as ->
    by (apply Nat.ltb_lt; simpl; lia).
  reflexivity.
Qed.

(** The loop divides by 1024 as long as the value is not below 1024 and
    a larger unit is left. *)
Lemma scale_spec (k : nat) (rounds : nat) (x : Q) (i : nat) :
  (k <= rounds)%nat -> (i + k <= 4)%nat ->
  inject_Z (1024 ^ Z.of_nat k) <= x ->
  ((i + k < 4)%nat -> x < inject_Z (1024 ^ Z.of_nat (S k))) ->
  exists y, scale rounds x i = (y, (i + k)%nat) /\ y == x / inject_Z (1024 ^ Z.of_nat k).
Proof.
  revert rounds x i. induction k as [|k IH]; intros rounds x i Hr Hi Hl Hu.
  - exists x. rewrite Nat.add_0_r. split.
    + apply scale_stop. destruct (Nat.lt_ge_cases i 4) as [L|G]; [|auto].
      left. rewrite Nat.add_0_r in Hu. specialize (Hu L).
      change (inject_Z (1024 ^ Z.of_nat 1)) with 1024 in Hu. exact Hu.
    + change (inject_Z (1024 ^ Z.of_nat 0)) with 1. field.
  - destruct rounds as [|r]; [lia|].
    assert (inject_Z (1024 ^ Z.of_nat (S k)) == 1024 * inject_Z (1024 ^ Z.of_nat k)) as Ek.
    { rewrite Nat2Z.inj_succ, Z.pow_succ_r by lia. rewrite inject_Z_mult. reflexivity. }
    assert (0 < inject_Z (1024 ^ Z.of_nat k)) as Pk.
    { rewrite <- (Zlt_Qlt 0). apply Z.pow_pos_nonneg; lia. }
    assert (1 <= inject_Z (1024 ^ Z.of_nat k)) as Pk1.
    { rewrite <- (Zle_Qle 1).
      assert (0 < 1024 ^ Z.of_nat k)%Z by (apply Z.pow_pos_nonneg; lia). lia. }
    rewrite scale_go; [| rewrite Ek in Hl; lra | lia].
    destruct (IH r (x / 1024) (S i)) as (y & Hy & Ey).
    + lia.
    + lia.
    + apply Qle_shift_div_l; [reflexivity|]. rewrite Ek in Hl. lra.
    + intros L. apply Qlt_shift_div_r; [reflexivity|].
      assert (inject_Z (1024 ^ Z.of_nat (S (S k))) ==
              1024 * inject_Z (1024 ^ Z.of_nat (S k))) as Ek'.
      { rewrite (Nat2Z.inj_succ (S k)), Z.pow_succ_r by lia.
        rewrite inject_Z_mult. reflexivity. }
      rewrite Ek' in Hu. assert (i + S k < 4)%nat as L' by lia.
      specialize (Hu L'). lra.
    + exists y. replace (i + S k)%nat with (S i + k)%nat by lia.
      split; [exact Hy|]. rewrite Ey, Ek. field. lra.
Qed.

(** X22.  The text of a size.  For a size of [n] bytes below 2^53, with
    [i] the largest of the five units not greater than [n] (1024^i <= n,
    TB being the last), the text is [n / 1024^i] with one decimal, rounded
    to the nearest tenth with ties to the even one, a space and the unit.
    The number printed is at least 1.0, and below TB at most 1024.0,
    which is reached: the rounding can print 1024.0 of a unit instead of
    1.0 of the next. *)
Theorem X22_format_file_size (n : Z) (i : nat) :
  (0 < n < 2 ^ 53)%Z -> (i <= 4)%nat ->
  (1024 ^ Z.of_nat i <= n)%Z ->
  ((i < 4)%nat -> (n < 1024 ^ Z.of_nat (S i))%Z) ->
  let tenths := round_half_even (inject_Z n / inject_Z (1024 ^ Z.of_nat i) * 10) in
  _format_file_size n =
    str_int (tenths / 10) ++ "." ++ str_int (tenths mod 10) ++ " " ++ nth i size_names "" /\
  (10 <= tenths)%Z /\
  ((i < 4)%nat -> (tenths <= 10240)%Z).
Proof.
  intros Hn Hi Hl Hu tenths.
  assert (0 < inject_Z (1024 ^ Z.of_nat i)) as Pi.
  { rewrite <- (Zlt_Qlt 0). apply Z.pow_pos_nonneg; lia. }
  pose proof (b64_round_int n Hn) as Er.
  assert (10 <= tenths)%Z as T0.
  { apply round_half_even_ge. change (inject_Z 10) with 10.
    assert (1 <= inject_Z n / inject_Z (1024 ^ Z.of_nat i)).
    { apply Qle_shift_div_l; [exact Pi|]. rewrite Qmult_1_l, <- Zle_Qle. exact Hl. }
    lra. }
  split; [|split; [exact T0|]].
  - unfold _format_file_size.
    destruct (Z.eqb_spec n 0) as [E|_]; [lia|].
    destruct (scale_spec i 4 (b64_round (inject_Z n)) 0) as (y & Hy & Ey).
    + exact Hi.
    + lia.
    + rewrite Er, <- Zle_Qle. exact Hl.
    + intros L. rewrite Er, <- Zlt_Qlt. apply Hu. lia.
    + rewrite Hy. cbn [Nat.add].
      assert (y == inject_Z n / inject_Z (1024 ^ Z.of_nat i)) as Ey'
        by (rewrite Ey, Er; reflexivity).
      rewrite (format_1f_comp _ _ Ey'). unfold format_1f. cbv zeta. fold tenths.
      assert (Qle_bool 0 (inject_Z n / inject_Z (1024 ^ Z.of_nat i)) = true) as ->.
      { apply Qle_bool_iff. apply Qle_shift_div_l; [exact Pi|].
        rewrite Qmult_0_l, <- (Zle_Qle 0). lia. }
      rewrite append_empty_l, Z.abs_eq by lia. rewrite !append_assoc. reflexivity.
  - intros L. apply round_half_even_le. change (inject_Z 10240) with 10240.
    assert (inject_Z n / inject_Z (1024 ^ Z.of_nat i) <= 1024); [|lra].
    apply Qle_shift_div_r; [exact Pi|].
    assert (inject_Z (1024 ^ Z.of_nat (S i)) == 1024 * inject_Z (1024 ^ Z.of_nat i)) as Ek.
    { rewrite Nat2Z.inj_succ, Z.pow_succ_r by lia. rewrite inject_Z_mult. reflexivity. }
    rewrite <- Ek, <- Zle_Qle. specialize (Hu L). lia.
Qed.

Lemma X22_format_file_size_witness : _format_file_size 1048575 = "1024.0 KB".
Proof.
  destruct (X22_format_file_size 1048575 1) as (H & _).
  - lia.
  - lia.
  - vm_compute. discriminate.
  - intros _. vm_compute. reflexivity.
  - rewrite H. vm_compute. reflexivity.
Defined.

End SizeFacts.

(** ** What a transcription call touches *)
Section FootprintFacts.
Import Py Runtime Pipeline Service.








End FootprintFacts.

(** ** Counting loads, and the answer of a selection *)
Section SelectionFacts.
Import Py Runtime Pipeline Service.


(** X25.  What a selection answers.  For an identifier outside the
    registry it is a failure and nothing is done.  With the backend
    installed a success means that the model is resident under the
    selected identifier, and the answer describes it so.  Without the
    backend every selection of a registered identifier is answered as a
    success although nothing is loaded or changed: the model described
    in the answer is the one that was current before, not loaded, and its
    name need not be the selected one. *)
Theorem X25_selection_answer (e : Runtime.env) (model_name : string) (st : state) :
  let r := select_model e model_name st in
  (str_in model_name WHISPER_AVAILABLE_MODELS = false ->
   Runtime.success (fst r) = false /\ selected (fst r) = None /\ snd r = st) /\
  (Runtime.success (fst r) = true ->
   selected (fst r) = Some (get_current_model (snd r)) /\
   Runtime.message (fst r) = "模型切换成功: " ++ model_name) /\
  (WhisperModel e <> None -> Runtime.success (fst r) = true ->
   selected (fst r) =
     Some {| info_name := model_name;
             info_display_name := _get_model_display_name model_name;
             info_size := _get_model_size model_name;
             info_is_loaded := true |}) /\
  (WhisperModel e = None -> str_in model_name WHISPER_AVAILABLE_MODELS = true ->
   Runtime.success (fst r) = true /\ snd r = st /\
   selected (fst r) = Some (get_current_model st)).
Proof.
  intros r. subst r. unfold select_model.
  destruct (str_in model_name WHISPER_AVAILABLE_MODELS) eqn:Reg; cbn [negb].
  - pose proof (load_model_success e model_name st) as Ok.
    pose proof (load_model_degraded e model_name st) as Deg.
    destruct (_load_model e model_name st) as [[|] st'] eqn:L; cbn [fst snd] in *.
    + split; [discriminate|]. split; [auto|]. split.
      * intros W _. destruct (Ok W eq_refl) as [R N].
        unfold get_current_model. rewrite R, N. reflexivity.
      * intros W _. specialize (Deg W). injection Deg as <-. auto.
    + split; [discriminate|]. split; [discriminate|]. split; [discriminate|].
      intros W _. specialize (Deg W). discriminate.
  - cbn [fst snd Runtime.success selected].
    split; [auto|]. split; [discriminate|]. split; [discriminate|]. discriminate.
Qed.

End SelectionFacts.

(** ** Instances of the further properties *)
Section FurtherInstances.
Import Py Runtime Correlator Pipeline Service Registry FileStore Api.


Lemma X9_registry_listing_witness :
  Forall (fun d => is_current d = false)
    (get_available_models (Runtime.sample_env (Some always_builds))
       {| local_config_json := fun _ => true; hub_cache := Returned None |}
       (set_model_name "tiny" base_loaded)).
Proof.
  apply Forall_forall.
  apply (proj1 (proj2 (proj2 (proj2
           (X9_registry_listing (Runtime.sample_env (Some always_builds))
              {| local_config_json := fun _ => true; hub_cache := Returned None |}
              (set_model_name "tiny" base_loaded)))))).
  reflexivity.
Defined.






Lemma X25_selection_answer_witness :
  Runtime.success (fst (select_model (Runtime.sample_env None) "large-v3-turbo"
                          (fresh (Runtime.sample_env None)))) = true /\
  snd (select_model (Runtime.sample_env None) "large-v3-turbo"
         (fresh (Runtime.sample_env None))) = fresh (Runtime.sample_env None) /\
  selected (fst (select_model (Runtime.sample_env None) "large-v3-turbo"
                   (fresh (Runtime.sample_env None)))) =
    Some (get_current_model (fresh (Runtime.sample_env None))).
Proof.
  apply (proj2 (proj2 (proj2
           (X25_selection_answer (Runtime.sample_env None) "large-v3-turbo"
              (fresh (Runtime.sample_env None)))))).
  - reflexivity.
  - reflexivity.
Defined.

End FurtherInstances.
